(** * TaskMateAi: report windows, task counts and reminder scheduling

    A shallow embedding of the report and reminder core of the backend
    ([backend/services/reports.py], [backend/services/reminders.py],
    [backend/workers/reminders_worker.py], the reminder part of
    [backend/api/telegram_router.py] and the guard of
    [backend/api/reports_router.py]), followed by the properties proved
    about it.

    Conventions of the embedding.
    - An aware [datetime] that is only compared, stored or shifted by a
      [timedelta] is an instant: a [Z] counting microseconds.
    - A local wall-clock [datetime] (the anchor of a report) keeps its
      calendar date, its microsecond of the day and its [fold] bit; the zone
      is passed next to it, as the code passes [tz].
    - Python's [str] is [string]; [str.lower] maps the ASCII capitals.
    - A function that can raise returns [result]; the database session is an
      explicit [Store] threaded through the calls. *)

From stdpp Require Import base numbers strings list gmap sorting.
From Stdlib Require Import ZArith Lia String Ascii Permutation.

Set Default Proof Using "Type".

(* ===================================================================== *)
(** * Part I: the embedding                                               *)
(* ===================================================================== *)

(** ** Python values and helpers *)

Module Py.

(** Outcome of a call that may raise. *)
Inductive exn :=
| TypeError
| ValueError
| IOError (what : string)
| HTTPException (status_code : Z) (code : string).

Inductive result (A : Type) :=
| Ok (a : A)
| Raise (e : exn).
Arguments Ok {A} a.
Arguments Raise {A} e.

Definition bind {A B} (m : result A) (k : A -> result B) : result B :=
  match m with
  | Ok a => k a
  | Raise e => Raise e
  end.

Definition raises {A} (m : result A) : Prop :=
  match m with
  | Ok _ => False
  | Raise _ => True
  end.

(** [str.lower], on the ASCII capitals. The other characters are kept: a
    string with a character outside ASCII is never lowered to an ASCII word
    without the letters i and k, which is all the code compares with. *)
Definition is_upper (c : ascii) : bool :=
  (65 <=? nat_of_ascii c)%nat && (nat_of_ascii c <=? 90)%nat.

Definition lower_char (c : ascii) : ascii :=
  if is_upper c then ascii_of_nat (nat_of_ascii c + 32) else c.

Fixpoint lower (s : string) : string :=
  match s with
  | EmptyString => EmptyString
  | String c rest => String (lower_char c) (lower rest)
  end.

(** [sep.join(lines)]. *)
Definition join (sep : string) (lines : list string) : string :=
  String.concat sep lines.

(** [x or default] on an optional string: [None] and the empty string are falsy. *)
Definition str_or (x : option string) (default : string) : string :=
  match x with
  | Some s => if String.eqb s EmptyString then default else s
  | None => default
  end.

(** [x is not None]. *)
Definition is_not_none {A} (x : option A) : bool :=
  match x with
  | Some _ => true
  | None => false
  end.

(** [x in xs] for strings. *)
Definition str_in (x : string) (xs : list string) : bool :=
  existsb (String.eqb x) xs.

(** [sorted(xs, key=...)]: a stable insertion sort for the order [le]. *)
Fixpoint insert_sorted {A} (le : A -> A -> bool) (x : A) (l : list A) : list A :=
  match l with
  | [] => [x]
  | y :: rest => if le x y then x :: l else y :: insert_sorted le x rest
  end.

Definition sorted_by {A} (le : A -> A -> bool) (l : list A) : list A :=
  foldr (insert_sorted le) [] l.

(** Values of a JSON document, as stored in [User.preferences]. A finite
    float is the rational it denotes. *)
#[warnings="-register-all"]
Inductive json :=
| JNull
| JBool (b : bool)
| JInt (n : Z)
| JFloat (num : Z) (den : positive)
| JStr (s : string)
| JList (items : list json)
| JDict (items : list (string * json)).

(** [dict.get(key, default)] on the items of a dict. *)
Fixpoint dict_get (items : list (string * json)) (key : string) (default : json) : json :=
  match items with
  | [] => default
  | (k, v) :: rest => if String.eqb k key then v else dict_get rest key default
  end.

End Py.

Export Py.

(** ** Calendar dates and local datetimes *)

Module Calendar.

Local Open Scope Z_scope.

(** A date of the proleptic Gregorian calendar. Years are not bounded
    above: the last year of [datetime] plays no part in the embedding. *)
Record date := Date { year : Z; month : Z; day : Z }.

Definition is_leap (y : Z) : bool :=
  (y mod 4 =? 0) && (negb (y mod 100 =? 0) || (y mod 400 =? 0)).

Definition days_in_month (y m : Z) : Z :=
  if m =? 2 then (if is_leap y then 29 else 28)
  else if (m =? 4) || (m =? 6) || (m =? 9) || (m =? 11) then 30
  else 31.

Definition valid_date (d : date) : Prop :=
  1 <= year d /\ 1 <= month d <= 12 /\ 1 <= day d <= days_in_month (year d) (month d).

(** Days before January 1st of year [y], and before the first of month
    [m] in year [y]: the proleptic Gregorian ordinal of [datetime]. *)
Definition days_before_year (y : Z) : Z :=
  let p := y - 1 in p * 365 + p / 4 - p / 100 + p / 400.

Definition days_before_month_table (m : Z) : Z :=
  match m with
  | 1 => 0 | 2 => 31 | 3 => 59 | 4 => 90 | 5 => 120 | 6 => 151
  | 7 => 181 | 8 => 212 | 9 => 243 | 10 => 273 | 11 => 304 | 12 => 334
  | _ => -1
  end.

Definition days_before_month (y m : Z) : Z :=
  days_before_month_table m + (if (2 <? m) && is_leap y then 1 else 0).

Definition toordinal (d : date) : Z :=
  days_before_year (year d) + days_before_month (year d) (month d) + day d.

(** The calendar day after [d]. *)
Definition next_day (d : date) : date :=
  if day d <? days_in_month (year d) (month d) then Date (year d) (month d) (day d + 1)
  else if month d <? 12 then Date (year d) (month d + 1) 1
  else Date (year d + 1) 1 1.

(** [d + timedelta(days=n)] for [n >= 0]. *)
Definition date_add_days (n : nat) (d : date) : date := Nat.iter n next_day d.

(** A wall-clock datetime in some zone: date, microsecond of the day, fold. *)
Record local_datetime := LocalDatetime {
  ld_date : date;
  ld_micro : Z;
  ld_fold : bool
}.

Definition us_per_day : Z := 86400 * 1000000.
Definition us_per_minute : Z := 60 * 1000000.

(** The wall clock read as if it were UTC, in microseconds. *)
Definition naive_instant (t : local_datetime) : Z :=
  toordinal (ld_date t) * us_per_day + ld_micro t.

(** [zoneinfo.ZoneInfo]: the offset in force at a wall-clock time, and the
    wall clock of an instant. *)
Record ZoneInfo := {
  utcoffset : local_datetime -> Z;
  fromutc : Z -> local_datetime
}.

(** [datetime.combine(d, time.min, tzinfo=tz)]. *)
Definition combine_min (d : date) : local_datetime :=
  LocalDatetime d 0 false.

(** [t.replace(hour=0, minute=0, second=0, microsecond=0)]. *)
Definition replace_midnight (t : local_datetime) : local_datetime :=
  LocalDatetime (ld_date t) 0 (ld_fold t).

(** [t.replace(day=1)]. *)
Definition replace_day1 (t : local_datetime) : local_datetime :=
  LocalDatetime (Date (year (ld_date t)) (month (ld_date t)) 1) (ld_micro t) (ld_fold t).

(** [t + timedelta(days=n)]: wall-clock arithmetic, the result has fold 0. *)
Definition add_days (t : local_datetime) (n : nat) : local_datetime :=
  LocalDatetime (date_add_days n (ld_date t)) (ld_micro t) false.

(** [t.astimezone(timezone.utc)], as an instant. *)
Definition astimezone_utc (tz : ZoneInfo) (t : local_datetime) : Z :=
  naive_instant t - utcoffset tz t.

End Calendar.

Export Calendar.

(** ** The ORM models ([backend/models]) and the session *)

Module User.
Record t := mk {
  id : Z;
  telegram_id : option Z;
  language : option string;
  timezone : option string;
  preferences : list (string * json)
}.
End User.

Module Task.
Record t := mk {
  id : Z;
  user_id : option Z;
  organization_id : option Z;
  project_id : option Z;
  title : string;
  status : option string;
  priority : option string;
  due_at : option Z;
  created_at : option Z;
  end_at : option Z
}.
End Task.

Module TaskAssignment.
Record t := mk {
  id : Z;
  task_id : Z;
  assigned_to_user_id : option Z;
  assigned_team_id : option Z
}.
End TaskAssignment.

Module Project.
Record t := mk {
  id : Z;
  team_id : option Z
}.
End Project.

Module Reminder.
Record t := mk {
  id : Z;
  task_id : Z;
  remind_at : Z;
  sent : bool
}.

Definition set_sent (r : t) : t := mk (id r) (task_id r) (remind_at r) true.
End Reminder.

(** The rows a session sees, with the next value of each autoincrement key
    the code inserts into. *)
Record Store := {
  users : list User.t;
  tasks : list Task.t;
  assignments : list TaskAssignment.t;
  projects : list Project.t;
  reminders : list Reminder.t;
  next_task_id : Z;
  next_reminder_id : Z
}.

Definition opt_eqb (column : option Z) (value : Z) : bool :=
  match column with
  | Some c => (c =? value)%Z
  | None => false
  end.

(** ** Collaborators outside the repository

    Python built-ins, the zone database, the settings object, the message
    catalogs and Babel. *)

Inductive arg :=
| AStr (s : string)
| AInt (n : Z).

Class Env := {
  (** [int(s)] on a [str]; [None] when it raises [ValueError]. *)
  int_of_str : string -> option Z;
  (** [str(n)] on an [int]. *)
  str_of_int : Z -> string;
  (** [ZoneInfo(name)]; [None] when the key is unknown. *)
  zone_lookup : string -> option ZoneInfo;
  utc_zone : ZoneInfo;
  default_timezone : string;
  default_locale : string;
  (** [str.format] with the keyword arguments, on the catalog entry of a
      key (the key itself when no catalog has it). *)
  catalog_format : string -> string -> list (string * arg) -> string;
  babel_format_date : local_datetime -> string -> string -> string;
  babel_format_datetime : local_datetime -> string -> string -> string;
  (** [round(completed / throughput * 100, 1)] and its one-decimal
      rendering. *)
  float : Type;
  float_zero : float;
  completion_rate_of : nat -> nat -> float;
  format_1f : float -> string
}.

(** ** [backend/core/i18n.py] *)

Module I18n.
Section WithEnv.
Context `{Env}.

Definition SUPPORTED_LOCALES : list string := ["en"; "fa"; "ar"].
Definition RTL_LOCALES : list string := ["fa"; "ar"].

(** [s.split("-")[0]]. *)
Fixpoint before_dash (s : string) : string :=
  match s with
  | EmptyString => EmptyString
  | String c rest => if Ascii.eqb c "-" then EmptyString else String c (before_dash rest)
  end.

Definition _ensure_locale (locale : option string) : string :=
  match locale with
  | None => default_locale
  | Some l =>
      if String.eqb l EmptyString then default_locale
      else
        let code := lower (before_dash l) in
        if str_in code SUPPORTED_LOCALES then code else default_locale
  end.

Definition normalize_locale := _ensure_locale.

Definition translate (locale key : string) (kwargs : list (string * arg)) : string :=
  catalog_format (_ensure_locale (Some locale)) key kwargs.

(** The [timezone_name] argument: a zone, a name, or nothing. *)
Inductive tz_arg :=
| TzInfo (z : ZoneInfo)
| TzName (name : option string).

Definition _ensure_timezone (timezone_name : tz_arg) : ZoneInfo :=
  match timezone_name with
  | TzInfo z => z
  | TzName name =>
      let candidate := str_or name default_timezone in
      match zone_lookup candidate with
      | Some z => z
      | None =>
          match zone_lookup default_timezone with
          | Some z => z
          | None => utc_zone
          end
      end
  end.

Definition format_datetime (value : Z) (locale : string) (timezone_name : tz_arg)
    (fmt : string) : string :=
  let tzinfo := _ensure_timezone timezone_name in
  babel_format_datetime (fromutc tzinfo value) fmt (_ensure_locale (Some locale)).

Definition format_date (value : Z) (locale : string) (timezone_name : tz_arg)
    (fmt : string) : string :=
  let tzinfo := _ensure_timezone timezone_name in
  babel_format_date (fromutc tzinfo value) fmt (_ensure_locale (Some locale)).

(** [text.replace(CR LF, LF)]. *)
Fixpoint replace_crlf (text : string) : string :=
  match text with
  | EmptyString => EmptyString
  | String c rest =>
      match rest with
      | String c' rest' =>
          if Ascii.eqb c (ascii_of_nat 13) && Ascii.eqb c' (ascii_of_nat 10)
          then String c' (replace_crlf rest')
          else String c (replace_crlf rest)
      | EmptyString => String c EmptyString
      end
  end.

(** U+202B and U+202C, in UTF-8. *)
Definition RLE : string :=
  String (ascii_of_nat 226) (String (ascii_of_nat 128) (String (ascii_of_nat 171) EmptyString)).
Definition PDF_MARK : string :=
  String (ascii_of_nat 226) (String (ascii_of_nat 128) (String (ascii_of_nat 172) EmptyString)).

Definition apply_direction (locale text : string) : string :=
  if String.eqb text EmptyString then text
  else if str_in (_ensure_locale (Some locale)) RTL_LOCALES then RLE ++ text ++ PDF_MARK
  else text.

Definition prepare_telegram (locale text : string) : string :=
  apply_direction locale (replace_crlf text).

End WithEnv.
End I18n.

Export I18n.

(** ** [backend/core/rbac.py] *)

Module Rbac.

Inductive Role := SYSTEM_ADMIN | ORG_ADMIN | TEAM_MANAGER | MEMBER.

Definition _rank (r : Role) : Z :=
  match r with
  | MEMBER => 0
  | TEAM_MANAGER => 1
  | ORG_ADMIN => 2
  | SYSTEM_ADMIN => 3
  end.

Definition _role_satisfies (held required : Role) : bool :=
  (_rank required <=? _rank held)%Z.

Record Principal := {
  subject : string;
  _global_roles : list Role;
  _org_roles : list (Z * Role);
  _team_roles : list (Z * Role)
}.

Definition role_eqb (a b : Role) : bool := (_rank a =? _rank b)%Z.

Definition is_system_admin (p : Principal) : bool :=
  existsb (role_eqb SYSTEM_ADMIN) (_global_roles p).

Definition principal_user_id `{Env} (p : Principal) : option Z :=
  int_of_str (subject p).

Definition has_org_privilege (p : Principal) (organization_id : Z) (required : Role) : bool :=
  if is_system_admin p then true
  else
    match List.find (fun kv => (fst kv =? organization_id)%Z) (_org_roles p) with
    | None => false
    | Some (_, held) => _role_satisfies held required
    end.

(** [has_any_role]: any of the required roles, in any namespace. *)
Definition has_any_role (p : Principal) (required : list Role) : bool :=
  match required with
  | [] => true
  | _ =>
      existsb
        (fun role =>
           (role_eqb role SYSTEM_ADMIN && is_system_admin p)
           || existsb (role_eqb role) (_global_roles p)
           || existsb (fun kv => _role_satisfies (snd kv) role) (_org_roles p)
           || existsb (fun kv => _role_satisfies (snd kv) role) (_team_roles p))
        required
  end.

Definition has_team_privilege (p : Principal) (team_id : Z) (required : Role) : bool :=
  if is_system_admin p then true
  else
    match List.find (fun kv => (fst kv =? team_id)%Z) (_team_roles p) with
    | None => false
    | Some (_, held) => _role_satisfies held required
    end.

End Rbac.

Export Rbac.

(** ** [backend/schemas/reports.py] *)

Module Schemas.

Inductive ReportFormat := TEXT | PDF | CSV.

Inductive ReportScope := USER | ORGANIZATION | TEAM | PROJECT.

Definition scope_value (s : ReportScope) : string :=
  match s with
  | USER => "user"
  | ORGANIZATION => "organization"
  | TEAM => "team"
  | PROJECT => "project"
  end.

Record ReportRequest := {
  report_type : string;
  req_user_id : option Z;
  req_organization_id : option Z;
  req_team_id : option Z;
  req_project_id : option Z;
  req_date : option date;
  req_timezone : option string;
  req_locale : option string;
  req_format : ReportFormat
}.

Record ReportCounts := {
  total : nat;
  completed : nat;
  overdue : nat
}.

Record ReportTask := {
  rt_id : Z;
  rt_title : string;
  rt_status : option string;
  rt_priority : option string;
  rt_due_at : option Z
}.

Record TrendPoint := {
  period : string;
  tp_overdue : nat
}.

Record OrgMetrics `{Env} := {
  throughput : nat;
  completion_rate : float;
  overdue_trend : list TrendPoint;
  active_users : nat
}.

Record ReportResponse `{Env} := {
  resp_report_type : string;
  scope : ReportScope;
  summary : string;
  counts : option ReportCounts;
  next_tasks : list ReportTask;
  overdue_tasks : list ReportTask;
  metrics : option OrgMetrics;
  file_url : option string;
  resp_format : ReportFormat;
  generated_at : Z
}.

End Schemas.

Export Schemas.

(** ** [backend/services/reports.py] *)

Module Reports.
Section WithEnv.
Context `{Env}.

(** The two exporters write a file (WeasyPrint, [csv.writer]) and return
    its path; an I/O failure raises. *)
Class Exporter := {
  _render_user_pdf :
    string -> ReportRequest -> Principal -> ReportCounts -> string ->
    list Task.t -> ZoneInfo -> Z -> Z -> result string;
  _render_org_csv :
    string -> ReportRequest -> Principal -> OrgMetrics ->
    ZoneInfo -> Z -> Z -> result string
}.

Definition _fetch_user (session : Store) (user_id : option Z) : option User.t :=
  match user_id with
  | None => None
  | Some uid => List.find (fun u => (User.id u =? uid)%Z) (users session)
  end.

Definition _resolve_timezone (name : option string) : ZoneInfo :=
  let candidate := str_or name default_timezone in
  match zone_lookup candidate with
  | Some z => z
  | None =>
      match zone_lookup default_timezone with
      | Some z => z
      | None => utc_zone
      end
  end.

Definition _calculate_window (now : Z) (report_type : string) (report_date : option date)
    (tz : ZoneInfo) : Z * Z * local_datetime :=
  let now_local := fromutc tz now in
  let anchor :=
    match report_date with
    | Some d => combine_min d
    | None => replace_midnight now_local
    end in
  let '(window_start_local, window_end_local) :=
    if String.eqb report_type "weekly" then (anchor, add_days anchor 7)
    else if String.eqb report_type "monthly" then
      let window_start_local := replace_day1 anchor in
      let next_month := replace_day1 (add_days window_start_local 32) in
      (window_start_local, next_month)
    else (anchor, add_days anchor 1) in
  (astimezone_utc tz window_start_local,
   astimezone_utc tz window_end_local,
   window_start_local).

Definition _determine_scope (payload : ReportRequest) : ReportScope :=
  if is_not_none (req_user_id payload) then USER
  else if is_not_none (req_project_id payload) then PROJECT
  else if is_not_none (req_team_id payload) then TEAM
  else if is_not_none (req_organization_id payload) then ORGANIZATION
  else USER.

(** The [WHERE] clauses of [_fetch_tasks]; a filter on an absent request
    field is not applied, and a [NULL] column equals nothing. *)
Definition created_in (window_start window_end : Z) (t : Task.t) : bool :=
  match Task.created_at t with
  | Some c => (window_start <=? c)%Z && (c <? window_end)%Z
  | None => false
  end.

Definition column_is (requested column : option Z) : bool :=
  match requested with
  | None => true
  | Some v => opt_eqb column v
  end.

Definition team_matches (session : Store) (team : option Z) (t : Task.t) : bool :=
  match team with
  | None => true
  | Some team_id =>
      existsb (fun a => (TaskAssignment.task_id a =? Task.id t)%Z
                        && opt_eqb (TaskAssignment.assigned_team_id a) team_id)
              (assignments session)
      || existsb (fun p => opt_eqb (Task.project_id t) (Project.id p)
                           && opt_eqb (Project.team_id p) team_id)
                 (projects session)
  end.

Definition created_le (a b : Task.t) : bool :=
  match Task.created_at a, Task.created_at b with
  | Some x, Some y => (x <=? y)%Z
  | None, _ => true
  | Some _, None => false
  end.

Definition _fetch_tasks (session : Store) (payload : ReportRequest)
    (window_start window_end : Z) : list Task.t :=
  sorted_by created_le
    (List.filter
       (fun t =>
          created_in window_start window_end t
          && column_is (req_user_id payload) (Task.user_id t)
          && column_is (req_organization_id payload) (Task.organization_id t)
          && column_is (req_project_id payload) (Task.project_id t)
          && team_matches session (req_team_id payload) t)
       (tasks session)).

Definition _is_completed (task : Task.t) : bool :=
  let status := lower (str_or (Task.status task) EmptyString) in
  str_in status ["done"; "completed"; "resolved"] || is_not_none (Task.end_at task).

(** The [due_at and due_at < now_utc] test. *)
Definition past_due (now_utc : Z) (task : Task.t) : bool :=
  match Task.due_at task with
  | Some due => (due <? now_utc)%Z
  | None => false
  end.

(** The body of the loop of [_compute_counts]. *)
Definition counts_step (now_utc : Z) (c : ReportCounts) (task : Task.t) : ReportCounts :=
  let total := S (total c) in
  if _is_completed task then
    {| total := total; completed := S (completed c); overdue := overdue c |}
  else if past_due now_utc task then
    {| total := total; completed := completed c; overdue := S (overdue c) |}
  else {| total := total; completed := completed c; overdue := overdue c |}.

Definition _compute_counts (now_utc : Z) (tasks : list Task.t) : ReportCounts :=
  fold_left (counts_step now_utc) tasks {| total := 0; completed := 0; overdue := 0 |}.

(** [datetime.max.replace(tzinfo=timezone.utc)]. *)
Definition datetime_max : Z :=
  naive_instant (LocalDatetime (Date 9999 12 31) (us_per_day - 1) false).

(** [due_at.astimezone(tz)] is the same instant. *)
Definition _to_report_task (task : Task.t) (tz : ZoneInfo) : ReportTask :=
  {| rt_id := Task.id task;
     rt_title := Task.title task;
     rt_status := Task.status task;
     rt_priority := Task.priority task;
     rt_due_at := Task.due_at task |}.

Definition next_key (task : Task.t) : Z * Z :=
  (default datetime_max (Task.due_at task), default datetime_max (Task.created_at task)).

Definition pair_le (a b : Z * Z) : bool :=
  (a.1 <? b.1)%Z || ((a.1 =? b.1)%Z && (a.2 <=? b.2)%Z).

Definition _select_next_tasks (tasks : list Task.t) (tz : ZoneInfo) (limit : nat)
    : list ReportTask :=
  let pending := List.filter (fun task => negb (_is_completed task)) tasks in
  let pending := sorted_by (fun a b => pair_le (next_key a) (next_key b)) pending in
  List.map (fun task => _to_report_task task tz) (take limit pending).

Definition due_le (a b : Task.t) : bool :=
  match Task.due_at a, Task.due_at b with
  | Some x, Some y => (x <=? y)%Z
  | _, _ => true
  end.

Definition _select_overdue_tasks (now_utc : Z) (tasks : list Task.t) (tz : ZoneInfo)
    (limit : nat) : list ReportTask :=
  let overdue_tasks :=
    List.filter (fun task => past_due now_utc task && negb (_is_completed task)) tasks in
  let overdue_tasks := sorted_by due_le overdue_tasks in
  List.map (fun task => _to_report_task task tz) (take limit overdue_tasks).

Definition counts_kwargs (c : ReportCounts) : list (string * arg) :=
  [("total", AInt (Z.of_nat (total c)));
   ("completed", AInt (Z.of_nat (completed c)));
   ("overdue", AInt (Z.of_nat (overdue c)))].

Definition task_line (locale : string) (tz : ZoneInfo) (task : ReportTask) : string :=
  match rt_due_at task with
  | Some due =>
      let due_text := format_datetime due locale (TzInfo tz) "short" in
      translate locale "report_user_task_line"
        [("title", AStr (rt_title task)); ("due", AStr due_text)]
  | None =>
      translate locale "report_user_task_line_no_due" [("title", AStr (rt_title task))]
  end.

Definition _format_user_summary (locale report_type : string) (anchor : local_datetime)
    (counts : ReportCounts) (next_tasks overdue_tasks : list ReportTask)
    (tz : ZoneInfo) (window_start window_end : Z) : string :=
  let header_key :=
    if String.eqb report_type "daily" then "report_user_header_daily"
    else if String.eqb report_type "weekly" then "report_user_header_weekly"
    else if String.eqb report_type "monthly" then "report_user_header_monthly"
    else "report_user_header_daily" in
  let period_label :=
    translate locale header_key
      [("date", AStr (format_date (astimezone_utc tz anchor) locale (TzInfo tz) "medium"))] in
  let lines := [period_label] in
  let lines := lines ++ [translate locale "report_user_counts" (counts_kwargs counts)] in
  let start_local := format_datetime window_start locale (TzInfo tz) "short" in
  let end_local := format_datetime window_end locale (TzInfo tz) "short" in
  let lines :=
    lines ++ [translate locale "report_period"
                [("start", AStr start_local); ("end", AStr end_local)]] in
  if (total counts =? 0)%nat then
    join (String (ascii_of_nat 10) EmptyString)
         (lines ++ [translate locale "report_user_no_tasks" []])
  else
    let lines :=
      match next_tasks with
      | [] => lines
      | _ => lines ++ [translate locale "report_user_next_header" []]
                   ++ List.map (task_line locale tz) next_tasks
      end in
    let lines :=
      match overdue_tasks with
      | [] => lines ++ [translate locale "report_user_overdue_empty" []]
      | _ => lines ++ [translate locale "report_user_overdue_header" []]
                   ++ List.map (task_line locale tz) overdue_tasks
      end in
    join (String (ascii_of_nat 10) EmptyString) lines.

(** One pass of the loop of [_compute_org_metrics]: throughput, completed,
    the [defaultdict(int)] of overdue counts per period, the active users. *)
Definition metrics_step (tz : ZoneInfo) (locale : string)
    (acc : nat * nat * gmap string nat * gset Z) (task : Task.t)
    : nat * nat * gmap string nat * gset Z :=
  let '(throughput, completed, overdue_by_period, active_users) := acc in
  let throughput := S throughput in
  let active_users :=
    match Task.user_id task with
    | Some uid => if (uid =? 0)%Z then active_users else {[ uid ]} ∪ active_users
    | None => active_users
    end in
  if _is_completed task then (throughput, S completed, overdue_by_period, active_users)
  else
    match Task.due_at task with
    | Some due =>
        let period_key := format_date due locale (TzInfo tz) "medium" in
        (throughput, completed,
         <[ period_key := S (default 0%nat (overdue_by_period !! period_key)) ]> overdue_by_period,
         active_users)
    | None => (throughput, completed, overdue_by_period, active_users)
    end.

Definition item_le (a b : string * nat) : bool :=
  String.ltb a.1 b.1 || (String.eqb a.1 b.1 && (a.2 <=? b.2)%nat).

Definition _compute_org_metrics (tasks : list Task.t) (tz : ZoneInfo) (locale : string)
    : OrgMetrics :=
  let '(throughput, completed, overdue_by_period, active_users) :=
    fold_left (metrics_step tz locale) tasks (0%nat, 0%nat, ∅, ∅) in
  let completion_rate :=
    if (throughput =? 0)%nat then float_zero else completion_rate_of completed throughput in
  let trend :=
    List.map (fun item => {| period := item.1; tp_overdue := item.2 |})
             (sorted_by item_le (map_to_list overdue_by_period)) in
  {| throughput := throughput;
     completion_rate := completion_rate;
     overdue_trend := trend;
     active_users := size active_users |}.

Definition _format_org_summary (locale : string) (scope : ReportScope) (report_type : string)
    (counts : ReportCounts) (metrics : OrgMetrics) (tz : ZoneInfo)
    (window_start window_end : Z) : string :=
  let period_label :=
    if String.eqb report_type "daily" then translate locale "report_period_label_daily" []
    else if String.eqb report_type "weekly" then translate locale "report_period_label_weekly" []
    else if String.eqb report_type "monthly" then translate locale "report_period_label_monthly" []
    else translate locale "report_period_label_daily" [] in
  let header_key :=
    match scope with
    | ORGANIZATION => "report_org_header_organization"
    | TEAM => "report_org_header_team"
    | PROJECT => "report_org_header_project"
    | USER => "report_org_header_organization"
    end in
  let lines := [translate locale header_key [("period", AStr period_label)]] in
  let lines := lines ++ [translate locale "report_user_counts" (counts_kwargs counts)] in
  let lines :=
    lines ++ [translate locale "report_org_throughput"
                [("count", AInt (Z.of_nat (throughput metrics)))]] in
  let lines :=
    lines ++ [translate locale "report_org_completion_rate"
                [("rate", AStr (format_1f (completion_rate metrics)))]] in
  let lines :=
    lines ++ [translate locale "report_org_active_users"
                [("count", AInt (Z.of_nat (active_users metrics)))]] in
  let lines :=
    match overdue_trend metrics with
    | [] => lines ++ [translate locale "report_org_no_trend" []]
    | trend =>
        let trend_entries :=
          List.map (fun point =>
                      translate locale "report_org_trend_entry"
                        [("period", AStr (period point));
                         ("overdue", AInt (Z.of_nat (tp_overdue point)))])
                   trend in
        lines ++ [translate locale "report_org_overdue_trend"
                    [("trend", AStr (join ", " trend_entries))]]
    end in
  let start_local := format_datetime window_start locale (TzInfo tz) "short" in
  let end_local := format_datetime window_end locale (TzInfo tz) "short" in
  let lines :=
    lines ++ [translate locale "report_period"
                [("start", AStr start_local); ("end", AStr end_local)]] in
  join (String (ascii_of_nat 10) EmptyString) lines.

Context `{Exporter}.

Definition generate (session : Store) (now : Z) (payload : ReportRequest)
    (principal : Principal) : result ReportResponse :=
  let user := _fetch_user session (req_user_id payload) in
  let locale :=
    normalize_locale
      (match req_locale payload with
       | Some l => if String.eqb l EmptyString then (user ≫= User.language) else Some l
       | None => user ≫= User.language
       end) in
  let tz :=
    _resolve_timezone
      (match req_timezone payload with
       | Some z => if String.eqb z EmptyString then (user ≫= User.timezone) else Some z
       | None => user ≫= User.timezone
       end) in
  let '(window_start, window_end, anchor) :=
    _calculate_window now (report_type payload) (req_date payload) tz in
  let scope := _determine_scope payload in
  let tasks := _fetch_tasks session payload window_start window_end in
  let counts := _compute_counts now tasks in
  let finish summary next_tasks overdue_tasks metrics file_url :=
    {| resp_report_type := report_type payload;
       scope := scope;
       summary := summary;
       counts := Some counts;
       next_tasks := next_tasks;
       overdue_tasks := overdue_tasks;
       metrics := metrics;
       file_url := file_url;
       resp_format := req_format payload;
       generated_at := now |} in
  match scope with
  | USER =>
      let next_tasks := _select_next_tasks tasks tz 3 in
      let overdue_tasks := _select_overdue_tasks now tasks tz 3 in
      let summary :=
        _format_user_summary locale (report_type payload) anchor counts
          next_tasks overdue_tasks tz window_start window_end in
      match req_format payload with
      | PDF =>
          bind (_render_user_pdf locale payload principal counts summary tasks tz
                  window_start window_end)
               (fun file_path => Ok (finish summary next_tasks overdue_tasks None (Some file_path)))
      | CSV => Ok (finish summary next_tasks overdue_tasks None None)
      | TEXT => Ok (finish summary next_tasks overdue_tasks None None)
      end
  | _ =>
      let metrics := _compute_org_metrics tasks tz locale in
      let summary :=
        _format_org_summary locale scope (report_type payload) counts metrics tz
          window_start window_end in
      match req_format payload with
      | CSV =>
          bind (_render_org_csv locale payload principal metrics tz window_start window_end)
               (fun file_path => Ok (finish summary [] [] (Some metrics) (Some file_path)))
      | PDF => Ok (finish summary [] [] (Some metrics) None)
      | TEXT => Ok (finish summary [] [] (Some metrics) None)
      end
  end.

End WithEnv.
End Reports.

Export Reports.

(** ** [backend/api/reports_router.py] *)

Module ReportsRouter.
Section WithEnv.
Context `{Env} `{!Exporter}.

Definition _generate_user_report (session : Store) (now : Z) (principal : Principal)
    (report_type : string) (organization_id : option Z) (report_date : option date)
    (timezone locale : option string) (format : ReportFormat) : result ReportResponse :=
  if match organization_id with
     | Some org =>
         negb (has_org_privilege principal org TEAM_MANAGER)
         && negb (is_system_admin principal)
     | None => false
     end
  then Raise (HTTPException 403 "error_forbidden")
  else
    let user_id :=
      match organization_id with
      | None => principal_user_id principal
      | Some _ => None
      end in
    if negb (is_not_none organization_id) && negb (is_not_none user_id)
    then Raise (HTTPException 400 "error_user_required")
    else
      let payload :=
        {| report_type := report_type;
           req_user_id := user_id;
           req_organization_id := organization_id;
           req_team_id := None;
           req_project_id := None;
           req_date := report_date;
           req_timezone := timezone;
           req_locale := locale;
           req_format := format |} in
      generate session now payload principal.

(** The dependency of both routes: [require_roles] with the four roles. *)
Definition require_any_role (principal : Principal) : result Principal :=
  if has_any_role principal [SYSTEM_ADMIN; ORG_ADMIN; TEAM_MANAGER; MEMBER]
  then Ok principal
  else Raise (HTTPException 403 "error_forbidden").

Definition report_route (report_type : string) (session : Store) (now : Z)
    (principal : Principal) (report_date : option date) (timezone : option string)
    (organization_id : option Z) (locale : option string) (format : ReportFormat)
    : result ReportResponse :=
  bind (require_any_role principal) (fun principal =>
    match format with
    | CSV => Raise (HTTPException 400 "error_unsupported_format")
    | TEXT | PDF =>
        _generate_user_report session now principal report_type organization_id
          report_date timezone locale format
    end).

Definition get_daily_report := report_route "daily".

Definition get_weekly_report := report_route "weekly".

End WithEnv.
End ReportsRouter.

Export ReportsRouter.

(** ** [backend/services/reminders.py] *)

Module Reminders.
Section WithEnv.
Context `{Env}.

(** [int(x)] on a JSON value. *)
Definition py_int (x : json) : result Z :=
  match x with
  | JInt n => Ok n
  | JBool b => Ok (if b then 1 else 0)%Z
  | JFloat num den => Ok (Z.quot num (Z.pos den))
  | JStr s =>
      match int_of_str s with
      | Some n => Ok n
      | None => Raise ValueError
      end
  | JNull | JList _ | JDict _ => Raise TypeError
  end.

(** The characters of a string, each as a string. *)
Fixpoint chars (s : string) : list string :=
  match s with
  | EmptyString => []
  | String c rest => String c EmptyString :: chars rest
  end.

(** What [for offset in offsets] visits, after the [isinstance] test that
    wraps a lone number in a list. *)
Definition offsets_of (offsets : json) : result (list json) :=
  match offsets with
  | JInt _ | JFloat _ _ | JBool _ => bind (py_int offsets) (fun n => Ok [JInt n])
  | JList items => Ok items
  | JStr s => Ok (List.map JStr (chars s))
  | JDict items => Ok (List.map (fun kv => JStr kv.1) items)
  | JNull => Raise TypeError
  end.

Definition schedule (session : Store) (task_id when : Z) : Store * Reminder.t :=
  let existing :=
    List.find (fun r => (Reminder.task_id r =? task_id)%Z && (Reminder.remind_at r =? when)%Z)
              (reminders session) in
  match existing with
  | Some reminder => (session, reminder)
  | None =>
      let reminder := Reminder.mk (next_reminder_id session) task_id when false in
      ({| users := users session;
          tasks := tasks session;
          assignments := assignments session;
          projects := projects session;
          reminders := reminders session ++ [reminder];
          next_task_id := next_task_id session;
          next_reminder_id := (next_reminder_id session + 1)%Z |},
       reminder)
  end.

(** [DELETE FROM reminders WHERE id = :reminder_id]. *)
Definition cancel (session : Store) (reminder_id : Z) : Store :=
  {| users := users session;
     tasks := tasks session;
     assignments := assignments session;
     projects := projects session;
     reminders :=
       List.filter (fun r => negb (Reminder.id r =? reminder_id)%Z) (reminders session);
     next_task_id := next_task_id session;
     next_reminder_id := next_reminder_id session |}.

(** [session.get] by primary key; when there is a row, the commit updates
    the row of that key. *)
Definition mark_sent (session : Store) (reminder_id : Z) : Store :=
  match List.find (fun r => (Reminder.id r =? reminder_id)%Z) (reminders session) with
  | None => session
  | Some _ =>
      {| users := users session;
         tasks := tasks session;
         assignments := assignments session;
         projects := projects session;
         reminders :=
           List.map (fun r => if (Reminder.id r =? reminder_id)%Z
                              then Reminder.set_sent r else r)
                    (reminders session);
         next_task_id := next_task_id session;
         next_reminder_id := next_reminder_id session |}
  end.

Definition get_due_reminders (session : Store) (now : Z) (limit : nat) : list Reminder.t :=
  take limit
    (sorted_by (fun a b => (Reminder.remind_at a <=? Reminder.remind_at b)%Z)
       (List.filter (fun r => negb (Reminder.sent r) && (Reminder.remind_at r <=? now)%Z)
                    (reminders session))).

(** The body of the loop of [compute_default_times]: an offset that does
    not convert is skipped, a candidate not after [now] is not appended. *)
Definition default_times_step (now due_at : Z) (reminders : list Z) (offset : json)
    : list Z :=
  match py_int offset with
  | Raise _ => reminders
  | Ok minutes =>
      let delta := (minutes * us_per_minute)%Z in
      let remind_at := (due_at - delta)%Z in
      if (now <? remind_at)%Z then reminders ++ [remind_at] else reminders
  end.

Definition compute_default_times (now : Z) (due_at : option Z) (user : option User.t)
    : result (list Z) :=
  match due_at with
  | None => Ok []
  | Some due_at =>
      let preferences :=
        match user with
        | Some u => User.preferences u
        | None => []
        end in
      let offsets := dict_get preferences "default_reminder_minutes" (JList [JInt 30]) in
      bind (offsets_of offsets) (fun offsets =>
        let reminders := fold_left (default_times_step now due_at) offsets [] in
        Ok (sorted_by Z.leb reminders))
  end.

(** The body of the loop of [schedule_default_reminders]. *)
Definition schedule_step (task_id : Z) (acc : Store * list Reminder.t) (remind_at : Z)
    : Store * list Reminder.t :=
  let '(session, reminders) := acc in
  let '(session, reminder) := schedule session task_id remind_at in
  (session, reminders ++ [reminder]).

Definition schedule_default_reminders (session : Store) (now : Z) (task : Task.t)
    (user : option User.t) : result (Store * list Reminder.t) :=
  bind (compute_default_times now (Task.due_at task) user) (fun times =>
    Ok (fold_left (schedule_step (Task.id task)) times (session, []))).

End WithEnv.
End Reminders.

Export Reminders.

(** ** [backend/workers/reminders_worker.py] *)

Module Worker.
Section WithEnv.
Context `{Env}.

(** The Telegram adapter: sending changes the outside world and either
    returns ([true]) or raises ([false]). *)
Class Adapter := {
  adapter_state : Type;
  send_message : adapter_state -> string -> string -> adapter_state * bool
}.

Context `{Adapter}.

(** The relationships loaded with each reminder: [reminder.task] and
    [task.user]. *)
Definition reminder_task (session : Store) (reminder : Reminder.t) : option Task.t :=
  List.find (fun t => (Task.id t =? Reminder.task_id reminder)%Z) (tasks session).

Definition task_user (session : Store) (task : Task.t) : option User.t :=
  match Task.user_id task with
  | Some uid => List.find (fun u => (User.id u =? uid)%Z) (users session)
  | None => None
  end.

(** The task, the user and the chat id of a reminder that can be
    delivered: none of the three is missing (a chat id of 0 is falsy). *)
Definition deliverable (session : Store) (reminder : Reminder.t)
    : option (Task.t * User.t * Z) :=
  match reminder_task session reminder with
  | None => None
  | Some task =>
      match task_user session task with
      | None => None
      | Some user =>
          match User.telegram_id user with
          | None => None
          | Some chat => if (chat =? 0)%Z then None else Some (task, user, chat)
          end
      end
  end.

Definition reminder_message (task : Task.t) (user : User.t) : string * string :=
  let locale := normalize_locale (Some (str_or (User.language user) default_locale)) in
  let due_extra :=
    match Task.due_at task with
    | Some due =>
        let user_timezone := str_or (User.timezone user) default_timezone in
        translate locale "task_summary_due"
          [("due", AStr (format_datetime due locale (TzName (Some user_timezone)) "short"))]
    | None => EmptyString
    end in
  (locale,
   translate locale "reminder_due_message"
     [("title", AStr (Task.title task)); ("extra", AStr due_extra)]).

(** State of the [for reminder in reminders] loop: the adapter, the
    reminder objects visited so far (after their update), the counter, and
    the reminder ids logged as [worker.reminder.delivery_failed]. *)
Record loop_state := {
  adapter : adapter_state;
  visited : list Reminder.t;
  processed : nat;
  delivery_failed : list Z
}.

Definition dispatch_step (session : Store) (st : loop_state) (reminder : Reminder.t)
    : loop_state :=
  match deliverable session reminder with
  | None =>
      {| adapter := adapter st;
         visited := visited st ++ [Reminder.set_sent reminder];
         processed := processed st;
         delivery_failed := delivery_failed st |}
  | Some (task, user, chat) =>
      let '(locale, message) := reminder_message task user in
      let '(adapter', delivered) :=
        send_message (adapter st) (str_of_int chat) (prepare_telegram locale message) in
      if delivered then
        {| adapter := adapter';
           visited := visited st ++ [Reminder.set_sent reminder];
           processed := S (processed st);
           delivery_failed := delivery_failed st |}
      else
        {| adapter := adapter';
           visited := visited st ++ [reminder];
           processed := processed st;
           delivery_failed := delivery_failed st ++ [Reminder.id reminder] |}
  end.

Definition dispatch_loop (session : Store) (a : adapter_state) (batch : list Reminder.t)
    : loop_state :=
  fold_left (dispatch_step session)
            batch
            {| adapter := a; visited := []; processed := 0; delivery_failed := [] |}.

(** [session.commit()]: the updated reminder objects replace their rows. *)
Definition flush (session : Store) (objects : list Reminder.t) : Store :=
  {| users := users session;
     tasks := tasks session;
     assignments := assignments session;
     projects := projects session;
     reminders :=
       List.map
         (fun row =>
            match List.find (fun o => (Reminder.id o =? Reminder.id row)%Z) objects with
            | Some o => o
            | None => row
            end)
         (reminders session);
     next_task_id := next_task_id session;
     next_reminder_id := next_reminder_id session |}.

(** One run of the task. [commit_ok] tells whether the final commit
    succeeds; on failure the session is rolled back. The result is the
    session, the returned count, and the final state of the loop. *)
Definition dispatch_due_reminders (session : Store) (a : adapter_state) (now : Z)
    (commit_ok : bool) (batch_size : nat) : Store * nat * loop_state :=
  let reminders := get_due_reminders session now batch_size in
  match reminders with
  | [] => (session, 0, {| adapter := a; visited := []; processed := 0; delivery_failed := [] |})
  | _ =>
      let st := dispatch_loop session a reminders in
      ((if commit_ok then flush session (visited st) else session), processed st, st)
  end.

End WithEnv.
End Worker.

Export Worker.

(** ** [backend/api/telegram_router.py]: reminders of chat-created tasks *)

Module Telegram.
Section WithEnv.
Context `{Env}.

Definition DEFAULT_REMINDER_MINUTES : json := JInt 15.

(** A task payload of the intent classifier; [tp_due_at] is the instant its
    [due_at] or [due] text resolves to through [parse_due_date]. *)
Record TaskPayload := {
  tp_title : option string;
  tp_name : option string;
  tp_due_at : option Z;
  tp_priority : option string
}.

(** [title[:255]]. *)
Definition truncate255 (s : string) : string := String.substring 0 255 s.

(** The [remind_at] given to the reminder of a created task. *)
Definition chat_remind_at (now_utc reminder_offset : Z) (due_at : option Z) : Z :=
  let remind_at :=
    match due_at with
    | Some due => (due - reminder_offset * us_per_minute)%Z
    | None => (now_utc + reminder_offset * us_per_minute)%Z
    end in
  if (remind_at <=? now_utc)%Z then (now_utc + reminder_offset * us_per_minute)%Z
  else remind_at.

(** The tasks built by the first loop, numbered and stamped by the first
    commit. *)
Fixpoint build_tasks (user : User.t) (now_utc next_id : Z)
    (task_payloads : list TaskPayload) : list Task.t :=
  match task_payloads with
  | [] => []
  | payload :: rest =>
      let title := str_or (tp_title payload) (str_or (tp_name payload) EmptyString) in
      if String.eqb title EmptyString then build_tasks user now_utc next_id rest
      else
        Task.mk next_id (Some (User.id user)) None None (truncate255 title)
                (Some "pending") (tp_priority payload) (tp_due_at payload)
                (Some now_utc) None
        :: build_tasks user now_utc (next_id + 1)%Z rest
  end.

(** The reminders built by the second loop, numbered by the second commit. *)
Fixpoint build_reminders (now_utc reminder_offset next_id : Z) (created : list Task.t)
    : list Reminder.t :=
  match created with
  | [] => []
  | task :: rest =>
      Reminder.mk next_id (Task.id task)
                  (chat_remind_at now_utc reminder_offset (Task.due_at task)) false
      :: build_reminders now_utc reminder_offset (next_id + 1)%Z rest
  end.

(** [create_tasks]: the tasks and the reminders it inserts (the analytics
    event and the [last_task_ids] bookkeeping of the user are left out). *)
Definition create_tasks (session : Store) (now_utc : Z) (user : User.t)
    (task_payloads : list TaskPayload) : result (Store * list Task.t) :=
  bind (py_int (dict_get (User.preferences user) "default_reminder_minutes"
                         DEFAULT_REMINDER_MINUTES))
       (fun reminder_offset =>
          let created := build_tasks user now_utc (next_task_id session) task_payloads in
          match created with
          | [] => Ok (session, [])
          | _ =>
              let new_reminders :=
                build_reminders now_utc reminder_offset (next_reminder_id session) created in
              Ok ({| users := users session;
                     tasks := tasks session ++ created;
                     assignments := assignments session;
                     projects := projects session;
                     reminders := reminders session ++ new_reminders;
                     next_task_id := (next_task_id session + Z.of_nat (List.length created))%Z;
                     next_reminder_id :=
                       (next_reminder_id session + Z.of_nat (List.length created))%Z |},
                  created)
          end).

(** [to_user_timezone]: the zone the datetime is moved to (the instant
    stays), falling back to the default zone when the key is unknown;
    [None] stands for the [ZoneInfoNotFoundError] of an unknown default
    zone.  Only that error is caught: a key on which [ZoneInfo] raises
    anything else is not followed here. *)
Definition to_user_timezone (timezone_name : string) : option ZoneInfo :=
  match zone_lookup timezone_name with
  | Some tz => Some tz
  | None => zone_lookup default_timezone
  end.

(** The window of [build_report], in UTC. *)
Definition chat_window (tz : ZoneInfo) (now : Z) (period : string) : Z * Z :=
  let now_local := fromutc tz now in
  let '(start_local, end_local) :=
    if String.eqb period "week" then
      let start_local := replace_midnight now_local in
      (start_local, add_days start_local 7)
    else
      let start_local := replace_midnight now_local in
      (start_local, add_days start_local 1) in
  (astimezone_utc tz start_local, astimezone_utc tz end_local).

(** Its query: the tasks of the user without due time or due inside the
    window, both ends included. *)
Definition chat_tasks (session : Store) (user : User.t) (start_utc end_utc : Z)
    : list Task.t :=
  List.filter
    (fun task =>
       opt_eqb (Task.user_id task) (User.id user)
       && match Task.due_at task with
          | None => true
          | Some due => (start_utc <=? due)%Z && (due <=? end_utc)%Z
          end)
    (tasks session).

(** [task.status != "completed"]. *)
Definition chat_is_pending (task : Task.t) : bool :=
  match Task.status task with
  | Some status => negb (String.eqb status "completed")
  | None => true
  end.

Definition chat_task_line (locale tz : string) (task : Task.t) : string :=
  let extra :=
    match Task.due_at task with
    | Some due =>
        let due_text := format_datetime due locale (TzName (Some tz)) "short" in
        translate locale "task_summary_due" [("due", AStr due_text)]
    | None => EmptyString
    end in
  translate locale "task_summary_line"
    [("title", AStr (Task.title task)); ("extra", AStr extra)].

Definition build_report (session : Store) (now : Z) (user : User.t) (locale period : string)
    : option string :=
  let tz := str_or (User.timezone user) default_timezone in
  match to_user_timezone tz with
  | None => None
  | Some zone =>
      let '(start_utc, end_utc) := chat_window zone now period in
      let tasks := chat_tasks session user start_utc end_utc in
      let header_key :=
        if String.eqb period "week" then "report_week_header" else "report_today_header" in
      let lines := [translate locale header_key []] in
      match tasks with
      | [] =>
          let lines := lines ++ [translate locale "no_tasks_found" []] in
          Some (prepare_telegram locale (join (String (ascii_of_nat 10) EmptyString) lines))
      | _ =>
          let pending := List.length (List.filter chat_is_pending tasks) in
          let completed := (List.length tasks - pending)%nat in
          let lines :=
            lines
            ++ [translate locale "report_totals" [("count", AInt (Z.of_nat (List.length tasks)))];
                translate locale "report_completed" [("count", AInt (Z.of_nat completed))];
                translate locale "report_pending" [("count", AInt (Z.of_nat pending))]] in
          let lines := lines ++ List.map (chat_task_line locale tz) tasks in
          Some (prepare_telegram locale (join (String (ascii_of_nat 10) EmptyString) lines))
      end
  end.

(** [mark_latest_tasks_done]: the tasks whose id is in [last_task_ids]
    get the status [completed]; the result is their number.  A stored
    value that is falsy ends the function early; the query needs a list of
    integers, and [None] stands for the error of any other value. *)
Definition int_items (items : list json) : option (list Z) :=
  mapM (fun x => match x with
                 | JInt n => Some n
                 | _ => None
                 end) items.

Definition is_latest (task_ids : list Z) (task : Task.t) : bool :=
  existsb (Z.eqb (Task.id task)) task_ids.

Definition complete (task : Task.t) : Task.t :=
  Task.mk (Task.id task) (Task.user_id task) (Task.organization_id task)
          (Task.project_id task) (Task.title task) (Some "completed")
          (Task.priority task) (Task.due_at task) (Task.created_at task)
          (Task.end_at task).

Definition mark_latest_tasks_done (session : Store) (user : User.t)
    : option (Store * nat) :=
  match dict_get (User.preferences user) "last_task_ids" (JList []) with
  | JNull | JBool false | JInt 0 | JFloat 0 _ | JStr EmptyString | JList [] | JDict [] =>
      Some (session, 0%nat)
  | JList items =>
      match int_items items with
      | None => None
      | Some task_ids =>
          let found := List.filter (is_latest task_ids) (tasks session) in
          match found with
          | [] => Some (session, 0%nat)
          | _ =>
              Some ({| users := users session;
                       tasks := List.map (fun task => if is_latest task_ids task
                                                      then complete task else task)
                                         (tasks session);
                       assignments := assignments session;
                       projects := projects session;
                       reminders := reminders session;
                       next_task_id := next_task_id session;
                       next_reminder_id := next_reminder_id session |},
                    List.length found)
          end
      end
  | _ => None
  end.

End WithEnv.
End Telegram.

Export Telegram.

(** ** Notions the properties are stated with *)

Module Notions.

(** Two characters that are the same letter up to ASCII case. *)
Definition same_letter (a b : ascii) : Prop :=
  a = b
  \/ (is_upper a = true /\ nat_of_ascii b = (nat_of_ascii a + 32)%nat)
  \/ (is_upper b = true /\ nat_of_ascii a = (nat_of_ascii b + 32)%nat).

(** Equality of strings up to case, character by character. *)
Inductive eq_ignoring_case : string -> string -> Prop :=
| eic_empty : eq_ignoring_case EmptyString EmptyString
| eic_letter a b s w :
    same_letter a b -> eq_ignoring_case s w ->
    eq_ignoring_case (String a s) (String b w).

Definition COMPLETED_STATUSES : list string := ["done"; "completed"; "resolved"].

(** The due date of a task lies strictly before [now]. *)
Definition due_before (now : Z) (task : Task.t) : Prop :=
  exists due, Task.due_at task = Some due /\ (due < now)%Z.

(** The due date of a task is absent, or not before [now]. *)
Definition not_yet_due (now : Z) (task : Task.t) : Prop :=
  Task.due_at task = None \/ exists due, Task.due_at task = Some due /\ (now <= due)%Z.

(** The session holds a reminder of the task at the instant. *)
Definition scheduled (session : Store) (task_id when : Z) : Prop :=
  exists r, In r (reminders session)
            /\ Reminder.task_id r = task_id /\ Reminder.remind_at r = when.

(** The first day of the month after month [m] of year [y]. *)
Definition first_of_next_month (y m : Z) : date :=
  if (m =? 12)%Z then Date (y + 1) 1 1 else Date y (m + 1) 1.

(** Midnight of a calendar date, as a wall-clock time. *)
Definition midnight (d : date) : local_datetime := LocalDatetime d 0 false.

End Notions.

Export Notions.

(** ** A concrete environment, for the instances named in the properties *)

Module Examples.

Fixpoint show_nat_aux (fuel n : nat) (acc : string) : string :=
  match fuel with
  | O => acc
  | S fuel' =>
      let acc' := String (ascii_of_nat (48 + n mod 10)) acc in
      if (n / 10 =? 0)%nat then acc' else show_nat_aux fuel' (n / 10) acc'
  end.

Definition show_nat (n : nat) : string := show_nat_aux (S n) n EmptyString.

Definition show_Z (z : Z) : string :=
  if (z <? 0)%Z then String "-" (show_nat (Z.to_nat (- z))) else show_nat (Z.to_nat z).

Fixpoint parse_digits (s : string) (acc : Z) : option Z :=
  match s with
  | EmptyString => Some acc
  | String c rest =>
      let n := nat_of_ascii c in
      if (48 <=? n)%nat && (n <=? 57)%nat
      then parse_digits rest (acc * 10 + Z.of_nat (n - 48))%Z
      else None
  end.

Definition parse_decimal (s : string) : option Z :=
  match s with
  | EmptyString => None
  | String c rest =>
      if Ascii.eqb c "-" then
        (if String.eqb rest EmptyString then None else Z.opp <$> parse_digits rest 0%Z)
      else parse_digits s 0%Z
  end.

(** The date of a proleptic Gregorian ordinal, by cycles of 400, 100 and 4
    years. *)
Definition date_of_ordinal (ordinal : Z) : date :=
  let n := (ordinal - 1)%Z in
  let n400 := (n / 146097)%Z in
  let n := (n mod 146097)%Z in
  let n100 := (n / 36524)%Z in
  let n := (n mod 36524)%Z in
  let n4 := (n / 1461)%Z in
  let n := (n mod 1461)%Z in
  let n1 := (n / 365)%Z in
  let n := (n mod 365)%Z in
  let y := (n400 * 400 + 1 + n100 * 100 + n4 * 4 + n1)%Z in
  if (n1 =? 4)%Z || (n100 =? 4)%Z then Date (y - 1) 12 31
  else
    let m := ((n + 50) / 32)%Z in
    let preceding := days_before_month y m in
    if (n <? preceding)%Z
    then Date y (m - 1) (n - (preceding - days_in_month y (m - 1)) + 1)
    else Date y m (n - preceding + 1).

(** The wall clock of an instant at a fixed offset from UTC. *)
Definition local_of_instant (t : Z) : local_datetime :=
  LocalDatetime (date_of_ordinal (t / us_per_day)) (t mod us_per_day) false.

Definition fixed_offset (seconds : Z) : ZoneInfo :=
  {| utcoffset := fun _ => (seconds * 1000000)%Z;
     fromutc := fun t => local_of_instant (t + seconds * 1000000)%Z |}.

Definition show_date (t : local_datetime) : string :=
  show_Z (year (ld_date t)) ++ "-" ++ show_Z (month (ld_date t)) ++ "-"
  ++ show_Z (day (ld_date t)).

(** Catalogs without entries (every key is shown as it is), two zones,
    and the default settings. *)
Definition env : Env :=
  {| int_of_str := parse_decimal;
     str_of_int := show_Z;
     zone_lookup := fun name =>
       if String.eqb name "UTC" then Some (fixed_offset 0)
       else if String.eqb name "Europe/Stockholm" then Some (fixed_offset 3600)
       else None;
     utc_zone := fixed_offset 0;
     default_timezone := "Europe/Stockholm";
     default_locale := "en";
     catalog_format := fun _ key _ => key;
     babel_format_date := fun t _ _ => show_date t;
     babel_format_datetime := fun t _ _ => show_date t;
     float := (nat * nat)%type;
     float_zero := (0, 1)%nat;
     completion_rate_of := fun completed throughput => (completed, throughput);
     format_1f := fun r => show_nat (r.1 * 100 / r.2) |}.

Definition exporter : @Exporter env :=
  {| _render_user_pdf := fun _ _ _ _ _ _ _ _ _ => Ok "/tmp/taskmate_reports/report.pdf";
     _render_org_csv := fun _ _ _ _ _ _ _ => Ok "/tmp/taskmate_reports/report.csv" |}.

(** An adapter that records what it sends and fails for chat 13. *)
Definition adapter : @Adapter :=
  {| adapter_state := list (string * string);
     send_message := fun sent chat text =>
       if String.eqb chat "13" then (sent, false) else (sent ++ [(chat, text)], true) |}.

(** Instants of January 2024, in microseconds. *)
Definition instant (y m d hour minute : Z) : Z :=
  (toordinal (Date y m d) * us_per_day + (hour * 60 + minute) * us_per_minute)%Z.

Definition empty_store : Store :=
  {| users := []; tasks := []; assignments := []; projects := []; reminders := [];
     next_task_id := 1; next_reminder_id := 1 |}.

Definition no_identity_request : ReportRequest :=
  {| report_type := "daily";
     req_user_id := None;
     req_organization_id := None;
     req_team_id := None;
     req_project_id := None;
     req_date := Some (Date 2024 1 14);
     req_timezone := None;
     req_locale := None;
     req_format := TEXT |}.

Definition organization_pdf_request : ReportRequest :=
  {| report_type := "weekly";
     req_user_id := None;
     req_organization_id := Some 4%Z;
     req_team_id := None;
     req_project_id := None;
     req_date := Some (Date 2024 1 14);
     req_timezone := Some "UTC";
     req_locale := Some "en";
     req_format := PDF |}.

Definition member : Principal :=
  {| subject := "7"; _global_roles := []; _org_roles := []; _team_roles := [] |}.

Definition service_account : Principal :=
  {| subject := "svc-reports"; _global_roles := []; _org_roles := []; _team_roles := [] |}.

(** Five due reminders: tasks 1, 2 and 3 belong to users with chats 11, 12
    and 13; task 4 has no user; the user of task 5 has no chat. *)
Definition five_users : list User.t :=
  [User.mk 1 (Some 11%Z) (Some "en") None [];
   User.mk 2 (Some 12%Z) (Some "en") None [];
   User.mk 3 (Some 13%Z) (Some "en") None [];
   User.mk 5 None (Some "en") None []].

Definition plain_task (id : Z) (user_id : option Z) : Task.t :=
  Task.mk id user_id None None "Call the supplier" (Some "pending") None None
          (Some (instant 2024 1 14 9 0)) None.

Definition five_store : Store :=
  {| users := five_users;
     tasks := [plain_task 1 (Some 1%Z); plain_task 2 (Some 2%Z); plain_task 3 (Some 3%Z);
               plain_task 4 None; plain_task 5 (Some 5%Z)];
     assignments := [];
     projects := [];
     reminders := [Reminder.mk 1 1 (instant 2024 1 15 8 0) false;
                   Reminder.mk 2 2 (instant 2024 1 15 8 5) false;
                   Reminder.mk 3 3 (instant 2024 1 15 8 10) false;
                   Reminder.mk 4 4 (instant 2024 1 15 8 15) false;
                   Reminder.mk 5 5 (instant 2024 1 15 8 20) false];
     next_task_id := 6;
     next_reminder_id := 6 |}.

End Examples.

(** ** Instances for the reminder paths *)

Module ReminderExamples.

Definition eight_o_clock : Z := Examples.instant 2024 1 15 8 0.

(** A user whose stored reminder offset is minus five minutes. *)
Definition early_bird : User.t :=
  User.mk 1 (Some 11%Z) (Some "en") None [("default_reminder_minutes", JInt (-5))].

(** A user with the default offset of the chat flow, a quarter of an hour. *)
Definition regular : User.t :=
  User.mk 2 (Some 12%Z) (Some "en") None [("default_reminder_minutes", JInt 15)].

Definition buy_milk : TaskPayload :=
  {| tp_title := Some "Buy milk"; tp_name := None; tp_due_at := None; tp_priority := None |}.

Definition nine_o_clock : Z := Examples.instant 2024 1 15 9 0.

(** A task of [regular], due at nine. *)
Definition standup : Task.t :=
  Task.mk 1 (Some 2%Z) None None "Standup" (Some "pending") None
          (Some nine_o_clock) (Some (Examples.instant 2024 1 14 9 0)) None.

End ReminderExamples.

(** ** What happens to each reminder of a dispatch run *)

Module Outcomes.

(** A reminder is dropped (nothing to deliver to), delivered, or its
    delivery raised. *)
Inductive outcome := Dropped | Delivered | Failed.

Definition is_delivered (o : outcome) : bool :=
  match o with
  | Delivered => true
  | _ => false
  end.

(** The task of a reminder, the user of the task or the chat id of the
    user is missing. *)
Definition undeliverable (session : Store) (reminder : Reminder.t) : Prop :=
  reminder_task session reminder = None
  \/ exists task,
       reminder_task session reminder = Some task
       /\ (task_user session task = None
           \/ exists user,
                task_user session task = Some user
                /\ (User.telegram_id user = None \/ User.telegram_id user = Some 0%Z)).

Section WithEnv.
Context `{Env} `{Adapter}.

(** The outcome of every reminder of a batch, the adapter being used for
    the deliverable ones in turn. *)
Fixpoint outcomes (session : Store) (a : adapter_state) (batch : list Reminder.t)
    : list outcome :=
  match batch with
  | [] => []
  | reminder :: rest =>
      match deliverable session reminder with
      | None => Dropped :: outcomes session a rest
      | Some (task, user, chat) =>
          let '(locale, message) := reminder_message task user in
          let '(a', delivered) :=
            send_message a (str_of_int chat) (prepare_telegram locale message) in
          (if delivered then Delivered else Failed) :: outcomes session a' rest
      end
  end.

End WithEnv.

(** The reminder object after its outcome. *)
Definition after_outcome (reminder : Reminder.t) (o : outcome) : Reminder.t :=
  match o with
  | Failed => reminder
  | Dropped | Delivered => Reminder.set_sent reminder
  end.

(** The ids of the reminders whose delivery raised. *)
Fixpoint failed_ids (batch : list Reminder.t) (results : list outcome) : list Z :=
  match batch, results with
  | reminder :: batch', Failed :: results' => Reminder.id reminder :: failed_ids batch' results'
  | _ :: batch', _ :: results' => failed_ids batch' results'
  | _, _ => []
  end.

Definition delivered_count (results : list outcome) : nat :=
  List.length (List.filter is_delivered results).

Definition sent_count (rows : list Reminder.t) : nat :=
  List.length (List.filter Reminder.sent rows).

End Outcomes.

Export Outcomes.

(** ** Totals of the overdue trend *)

Module Trend.

(** The sum of the per-bucket counts of a trend. *)
Definition trend_total (trend : list TrendPoint) : nat :=
  sum_list (List.map tp_overdue trend).

(** The sum of the counts of the [defaultdict] of buckets. *)
Definition bucket_total (buckets : gmap string nat) : nat :=
  sum_list (List.map snd (map_to_list buckets)).

(** A task that is not completed and has a due date. *)
Definition open_with_due (task : Task.t) : bool :=
  negb (_is_completed task) && is_not_none (Task.due_at task).

(** A task that is not completed and is due before [now]. *)
Definition open_past_due (now : Z) (task : Task.t) : bool :=
  negb (_is_completed task) && past_due now task.

(** A pending task due one day after [now]. *)
Definition due_tomorrow (now : Z) : Task.t :=
  Task.mk 1 (Some 1%Z) None None "Send the invoice" (Some "pending") None
          (Some (now + us_per_day)%Z) (Some now) None.

(** A task closed with its status in capitals and no completion time. *)
Definition shouted_done : Task.t :=
  Task.mk 2 (Some 1%Z) None None "File the report" (Some "DONE") None None None None.

End Trend.

Export Trend.

(** ** Notions for the report queries *)

Module Queries.

(** A task is what a report request asks for in a window: created in the
    window, equal to the request on each of user, organization and project
    the request names, and, when a team is named, assigned to the team or
    in a project of the team. *)
Definition requested (session : Store) (payload : ReportRequest)
    (window_start window_end : Z) (task : Task.t) : Prop :=
  (exists created,
      Task.created_at task = Some created
      /\ (window_start <= created < window_end)%Z)
  /\ (forall u, req_user_id payload = Some u -> Task.user_id task = Some u)
  /\ (forall o, req_organization_id payload = Some o -> Task.organization_id task = Some o)
  /\ (forall p, req_project_id payload = Some p -> Task.project_id task = Some p)
  /\ (forall team,
        req_team_id payload = Some team ->
        (exists a,
            In a (assignments session)
            /\ TaskAssignment.task_id a = Task.id task
            /\ TaskAssignment.assigned_team_id a = Some team)
        \/ (exists pr,
               In pr (projects session)
               /\ Task.project_id task = Some (Project.id pr)
               /\ Project.team_id pr = Some team)).

(** Creation order of two tasks that have a creation time. *)
Definition created_no_later (a b : Task.t) : Prop :=
  exists x y, Task.created_at a = Some x /\ Task.created_at b = Some y /\ (x <= y)%Z.

(** The due instant a report task is ordered by: a missing one counts as
    the largest [datetime]. *)
Definition due_rank (task : ReportTask) : Z := default datetime_max (rt_due_at task).

End Queries.

Export Queries.

(** ** Notions for the organization metrics *)

Module Metrics.

(** The user ids that count as active: those that are neither null nor 0. *)
Fixpoint active_user_ids (tasks : list Task.t) : gset Z :=
  match tasks with
  | [] => ∅
  | task :: rest =>
      match Task.user_id task with
      | Some uid => if (uid =? 0)%Z then active_user_ids rest else {[ uid ]} ∪ active_user_ids rest
      | None => active_user_ids rest
      end
  end.

Section WithEnv.
Context `{Env}.

(** The period a task is counted under in the trend: the formatted date of
    its due time, for a task that is not completed and has one. *)
Definition bucket_label (tz : ZoneInfo) (locale : string) (task : Task.t) : option string :=
  if _is_completed task then None
  else (fun due => format_date due locale (TzInfo tz) "medium") <$> Task.due_at task.

Definition in_bucket (tz : ZoneInfo) (locale label : string) (task : Task.t) : bool :=
  match bucket_label tz locale task with
  | Some l => String.eqb l label
  | None => false
  end.

End WithEnv.
End Metrics.

Export Metrics.

(** ** [backend/services/reports.py]: the slug of an export file name *)

Module Slug.
Section WithCharacters.

(** Python strings are sequences of code points; [str.isalnum] and
    [str.lower] are those of the interpreter. *)
Variable char : Type.
Variable isalnum : char -> bool.
Variable str_lower : list char -> list char.
Variable is_dash : char -> bool.
Variable dash : char.
Variable subject_word : list char.

(** [s.lstrip("-")] and [s.strip("-")]. *)
Fixpoint lstrip (s : list char) : list char :=
  match s with
  | [] => []
  | c :: rest => if is_dash c then lstrip rest else s
  end.

Definition strip (s : list char) : list char :=
  rev (lstrip (rev (lstrip s))).

Definition _safe_slug (value : list char) : list char :=
  let base :=
    match value with
    | [] => subject_word
    | _ => value
    end in
  let sanitized := List.map (fun c => if isalnum c then c else dash) (str_lower base) in
  match strip sanitized with
  | [] => subject_word
  | slug => slug
  end.

End WithCharacters.
End Slug.

Export Slug.

(** ** [backend/services/users.py]: stored preferences *)

Module Users.

(** [d[key] = value] on the items of a dict. *)
Fixpoint dict_set (items : list (string * json)) (key : string) (value : json)
    : list (string * json) :=
  match items with
  | [] => [(key, value)]
  | (k, v) :: rest =>
      if String.eqb k key then (k, value) :: rest else (k, v) :: dict_set rest key value
  end.

(** [merged.update(preferences)]. *)
Definition dict_update (items updates : list (string * json)) : list (string * json) :=
  fold_left (fun merged kv => dict_set merged kv.1 kv.2) updates items.

(** What [update_user] does to the row when only [preferences] is given. *)
Definition update_preferences (user : User.t) (preferences : list (string * json)) : User.t :=
  User.mk (User.id user) (User.telegram_id user) (User.language user) (User.timezone user)
          (dict_update (User.preferences user) preferences).

Definition set_default_preferences (user : User.t) (default_reminders : option (list Z))
    (work_hours : option json) : User.t :=
  let prefs :=
    match default_reminders with
    | Some minutes => [("default_reminder_minutes", JList (List.map JInt minutes))]
    | None => []
    end in
  let prefs :=
    match work_hours with
    | Some hours => dict_set prefs "work_hours" hours
    | None => prefs
    end in
  match prefs with
  | [] => user
  | _ => update_preferences user prefs
  end.

End Users.

Export Users.

(** ** The reminder table *)

Module Rows.

(** [id] is the primary key of the table. *)
Definition unique_ids (session : Store) : Prop :=
  NoDup (List.map Reminder.id (reminders session)).

(** The autoincrement counter is above every stored key. *)
Definition ids_below_next (session : Store) : Prop :=
  Forall (fun r => (Reminder.id r < next_reminder_id session)%Z) (reminders session).

(** The task and instant a reminder stands for. *)
Definition slot (r : Reminder.t) : Z * Z := (Reminder.task_id r, Reminder.remind_at r).

(** No task has two reminders for the same instant. *)
Definition unique_slots (session : Store) : Prop :=
  NoDup (List.map slot (reminders session)).

(** A reminder a later run would fetch. *)
Definition still_due (now : Z) (r : Reminder.t) : Prop :=
  Reminder.sent r = false /\ (Reminder.remind_at r <= now)%Z.

End Rows.

Export Rows.

(** ** An instance for the slug: ASCII subjects *)

Module SlugExample.

Definition ascii_isalnum (c : ascii) : bool :=
  let n := nat_of_ascii c in
  ((48 <=? n)%nat && (n <=? 57)%nat)
  || ((65 <=? n)%nat && (n <=? 90)%nat)
  || ((97 <=? n)%nat && (n <=? 122)%nat).

Definition ascii_lower (s : list ascii) : list ascii := List.map lower_char s.

Definition slug_of (value : string) : string :=
  string_of_list_ascii
    (_safe_slug ascii ascii_isalnum ascii_lower (Ascii.eqb "-") "-"%char
                (list_ascii_of_string "subject") (list_ascii_of_string value)).

End SlugExample.


(* ===================================================================== *)
(** * Part II: properties                                                 *)
(* ===================================================================== *)

(** ** The completion predicate *)

Lemma lower_char_same_letter a b : same_letter a b <-> lower_char a = lower_char b.
Proof.
  unfold same_letter, lower_char, is_upper.
  pose proof (nat_ascii_bounded a) as Ha. pose proof (nat_ascii_bounded b) as Hb.
  split.
  - intros [-> | [[Hu Hn] | [Hu Hn]]]; [done | |].
    + rewrite Hu. apply andb_true_iff in Hu as [H1 H2].
      apply Nat.leb_le in H1, H2.
      replace ((65 <=? nat_of_ascii b)%nat && (nat_of_ascii b <=? 90)%nat) with false.
      * rewrite <- Hn. by rewrite ascii_nat_embedding.
      * symmetry. apply andb_false_iff. right. apply Nat.leb_gt. lia.
    + rewrite Hu. apply andb_true_iff in Hu as [H1 H2].
      apply Nat.leb_le in H1, H2.
      replace ((65 <=? nat_of_ascii a)%nat && (nat_of_ascii a <=? 90)%nat) with false.
      * rewrite <- Hn. by rewrite ascii_nat_embedding.
      * symmetry. apply andb_false_iff. right. apply Nat.leb_gt. lia.
  - destruct ((65 <=? nat_of_ascii a)%nat && (nat_of_ascii a <=? 90)%nat) eqn:Ea;
      destruct ((65 <=? nat_of_ascii b)%nat && (nat_of_ascii b <=? 90)%nat) eqn:Eb;
      intros Heq.
    + left.
      apply andb_true_iff in Ea as [A1 A2]. apply andb_true_iff in Eb as [B1 B2].
      apply Nat.leb_le in A1, A2, B1, B2.
      apply (f_equal nat_of_ascii) in Heq.
      rewrite !nat_ascii_embedding in Heq by lia.
      rewrite <- (ascii_nat_embedding a), <- (ascii_nat_embedding b).
      f_equal. lia.
    + right. left. split; [done |].
      apply andb_true_iff in Ea as [A1 A2]. apply Nat.leb_le in A1, A2.
      apply (f_equal nat_of_ascii) in Heq.
      rewrite nat_ascii_embedding in Heq by lia. done.
    + right. right. split; [done |].
      apply andb_true_iff in Eb as [B1 B2]. apply Nat.leb_le in B1, B2.
      apply (f_equal nat_of_ascii) in Heq.
      rewrite nat_ascii_embedding in Heq by lia. done.
    + by left.
Qed.

Lemma lower_eq_ignoring_case s w : eq_ignoring_case s w <-> lower s = lower w.
Proof.
  split.
  - induction 1 as [| a b s w Hl _ IH]; [done |].
    simpl. apply lower_char_same_letter in Hl. by rewrite Hl, IH.
  - revert w. induction s as [| a s IH]; intros [| b w]; simpl; try done.
    + constructor.
    + intros Heq. injection Heq as Hc Hs.
      constructor; [by apply lower_char_same_letter | by apply IH].
Qed.

Lemma str_in_spec x xs : str_in x xs = true <-> In x xs.
Proof.
  unfold str_in. rewrite existsb_exists. split.
  - intros (w & Hw & Heq). apply String.eqb_eq in Heq. by subst.
  - intros Hin. exists x. split; [done | apply String.eqb_refl].
Qed.

Lemma is_not_none_true {A} (x : option A) : is_not_none x = true <-> x <> None.
Proof. destruct x; simpl; split; try done. Qed.

(** The status of a task matches a completed status, up to case. *)
Lemma completed_status_spec (status : option string) :
  str_in (lower (str_or status EmptyString)) COMPLETED_STATUSES = true
  <-> exists s w, status = Some s /\ In w COMPLETED_STATUSES /\ eq_ignoring_case s w.
Proof.
  rewrite str_in_spec. split.
  - intros Hin. destruct status as [s |].
    + exists s, (lower (str_or (Some s) EmptyString)). split; [done |]. split; [done |].
      apply lower_eq_ignoring_case.
      assert (Hs : str_or (Some s) EmptyString = s).
      { simpl. destruct (String.eqb s EmptyString) eqn:E; [| done].
        apply String.eqb_eq in E. by subst. }
      rewrite Hs in *.
      unfold COMPLETED_STATUSES in Hin. simpl in Hin.
      destruct Hin as [<- | [<- | [<- | []]]]; reflexivity.
    + simpl in Hin. destruct Hin as [Hc | [Hc | [Hc | []]]]; discriminate Hc.
  - intros (s & w & -> & Hw & Hci).
    apply lower_eq_ignoring_case in Hci.
    assert (Hlw : lower w = w).
    { unfold COMPLETED_STATUSES in Hw. simpl in Hw.
      destruct Hw as [<- | [<- | [<- | []]]]; reflexivity. }
    assert (Hs : str_or (Some s) EmptyString = s).
    { simpl. destruct (String.eqb s EmptyString) eqn:E; [| done].
      apply String.eqb_eq in E. by subst. }
    rewrite Hs, Hci, Hlw. done.
Qed.

(** C2. A task is completed exactly when its [end_at] is set or its status
    is, up to case, one of "done", "completed", "resolved"; the predicate
    reads only these two fields, so a task that is not modified gets the
    same answer wherever it is evaluated. *)
Theorem is_completed_spec (task : Task.t) :
  (_is_completed task = true
   <-> Task.end_at task <> None
       \/ exists s w, Task.status task = Some s
                      /\ In w ["done"; "completed"; "resolved"]
                      /\ eq_ignoring_case s w)
  /\ (forall other : Task.t,
        Task.status other = Task.status task ->
        Task.end_at other = Task.end_at task ->
        _is_completed other = _is_completed task).
Proof.
  split.
  - unfold _is_completed. rewrite orb_true_iff, is_not_none_true.
    rewrite (completed_status_spec (Task.status task)). tauto.
  - intros other Hs He. unfold _is_completed. by rewrite Hs, He.
Qed.

Lemma is_completed_spec_witness :
  eq_ignoring_case "DONE" "done" /\ _is_completed shouted_done = true.
Proof.
  assert (Hc : eq_ignoring_case "DONE" "done")
    by (apply lower_eq_ignoring_case; reflexivity).
  split; [exact Hc |].
  apply (proj1 (is_completed_spec shouted_done)).
  right. exists "DONE", "done". split; [reflexivity |]. split; [| exact Hc].
  left. reflexivity.
Defined.

(** ** Counts *)

Lemma compute_counts_fold now tasks :
  _compute_counts now tasks
  = fold_left (counts_step now) tasks {| total := 0; completed := 0; overdue := 0 |}.
Proof. reflexivity. Qed.

Lemma compute_counts_snoc now tasks task :
  _compute_counts now (tasks ++ [task]) = counts_step now (_compute_counts now tasks) task.
Proof. rewrite !compute_counts_fold. by rewrite fold_left_app. Qed.

Lemma past_due_spec now task : past_due now task = true <-> due_before now task.
Proof.
  unfold past_due, due_before. destruct (Task.due_at task) as [due |].
  - rewrite Z.ltb_lt. split; [intros ?; by exists due | intros (d & [= <-] & ?); done].
  - split; [done | intros (d & ? & _); done].
Qed.

Lemma past_due_false now task : past_due now task = false <-> not_yet_due now task.
Proof.
  unfold past_due, not_yet_due. destruct (Task.due_at task) as [due |].
  - rewrite Z.ltb_ge. split.
    + intros ?. right. by exists due.
    + intros [? | (d & [= <-] & ?)]; done.
  - split; [by left | done].
Qed.

(** The three counters, read off the task list. *)
Lemma compute_counts_filter now tasks :
  total (_compute_counts now tasks) = List.length tasks
  /\ completed (_compute_counts now tasks) = List.length (List.filter _is_completed tasks)
  /\ overdue (_compute_counts now tasks)
     = List.length
         (List.filter (fun t => negb (_is_completed t) && past_due now t) tasks).
Proof.
  induction tasks as [| task tasks IH] using rev_ind; [done |].
  rewrite compute_counts_snoc, !List.filter_app, !length_app.
  destruct IH as (Ht & Hc & Ho). unfold counts_step. simpl.
  destruct (_is_completed task); simpl; [lia |].
  destruct (past_due now task); simpl; lia.
Qed.

(** C4. Completed and overdue tasks never exceed the total; they add up to
    it exactly when every task that is not completed is due strictly before
    the evaluation time; a task that is not completed and has no due date,
    or one not before the evaluation time, raises the total only. *)
Theorem compute_counts_invariant (now : Z) (tasks : list Task.t) :
  let c := _compute_counts now tasks in
  (completed c + overdue c <= total c)%nat
  /\ ((completed c + overdue c = total c)%nat
      <-> Forall (fun task => _is_completed task = false -> due_before now task) tasks)
  /\ (forall task : Task.t,
        _is_completed task = false -> not_yet_due now task ->
        _compute_counts now (tasks ++ [task])
        = {| total := S (total c); completed := completed c; overdue := overdue c |}).
Proof.
  cbv zeta. split; [| split].
  - induction tasks as [| task tasks IH] using rev_ind; [done |].
    rewrite compute_counts_snoc. unfold counts_step.
    destruct (_is_completed task); simpl; [lia |].
    destruct (past_due now task); simpl; lia.
  - induction tasks as [| task tasks IH] using rev_ind.
    + split; [constructor | done].
    + assert (Hle : (completed (_compute_counts now tasks) + overdue (_compute_counts now tasks)
                     <= total (_compute_counts now tasks))%nat).
      { clear IH. induction tasks as [| t ts IHts] using rev_ind; [done |].
        rewrite compute_counts_snoc. unfold counts_step.
        destruct (_is_completed t); simpl; [lia |].
        destruct (past_due now t); simpl; lia. }
      rewrite compute_counts_snoc, Forall_app, Forall_singleton, <- IH.
      unfold counts_step.
      destruct (_is_completed task) eqn:Ec; simpl.
      * split; [intros ?; split; [lia | done] | intros [? ?]; lia].
      * destruct (past_due now task) eqn:Ep; simpl.
        -- apply past_due_spec in Ep.
           split; [intros ?; split; [lia | done] | intros [? ?]; lia].
        -- split; [intros ?; lia |].
           intros [_ Hd]. specialize (Hd eq_refl).
           apply past_due_spec in Hd. congruence.
  - intros task Hc Hd. rewrite compute_counts_snoc. unfold counts_step.
    apply past_due_false in Hd. by rewrite Hc, Hd.
Qed.

Lemma compute_counts_invariant_witness :
  _is_completed (due_tomorrow 0) = false
  /\ not_yet_due 0 (due_tomorrow 0)
  /\ _compute_counts 0 ([shouted_done] ++ [due_tomorrow 0])
     = {| total := 2; completed := 1; overdue := 0 |}.
Proof.
  assert (Hc : _is_completed (due_tomorrow 0) = false) by reflexivity.
  assert (Hd : not_yet_due 0 (due_tomorrow 0)).
  { right. eexists. split; [reflexivity |]. apply Z.leb_le. reflexivity. }
  split; [exact Hc |]. split; [exact Hd |].
  exact (proj2 (proj2 (compute_counts_invariant 0 [shouted_done])) (due_tomorrow 0) Hc Hd).
Defined.

(** ** Sorting *)

Lemma insert_sorted_perm {A} (le : A -> A -> bool) x (l : list A) :
  Permutation (insert_sorted le x l) (x :: l).
Proof.
  induction l as [| y l IH]; simpl; [done |].
  destruct (le x y); [done |].
  rewrite IH. apply perm_swap.
Qed.

Lemma sorted_by_perm {A} (le : A -> A -> bool) (l : list A) :
  Permutation (sorted_by le l) l.
Proof.
  induction l as [| x l IH]; simpl; [done |].
  rewrite insert_sorted_perm. by constructor.
Qed.

Lemma sorted_by_In {A} (le : A -> A -> bool) (l : list A) x :
  In x (sorted_by le l) <-> In x l.
Proof.
  split; apply Permutation_in; [apply sorted_by_perm |].
  symmetry. apply sorted_by_perm.
Qed.

Lemma sorted_by_length {A} (le : A -> A -> bool) (l : list A) :
  List.length (sorted_by le l) = List.length l.
Proof. apply Permutation_length, sorted_by_perm. Qed.

(** ** Default reminder times *)

Section DefaultTimes.
Context `{Env}.

Lemma kept_In now due_at offsets acc t :
  In t (fold_left (default_times_step now due_at) offsets acc)
  <-> In t acc
      \/ exists offset minutes,
           In offset offsets /\ py_int offset = Ok minutes
           /\ t = (due_at - minutes * us_per_minute)%Z /\ (now < t)%Z.
Proof.
  revert acc. induction offsets as [| o offsets IH]; intros acc; simpl.
  - split; [by left | intros [? | (? & ? & [] & _)]; done].
  - rewrite IH. unfold default_times_step. cbv zeta.
    destruct (py_int o) as [minutes | e] eqn:Eo.
    + destruct (now <? due_at - minutes * us_per_minute)%Z eqn:El.
      * apply Z.ltb_lt in El. rewrite in_app_iff. simpl. split.
        -- intros [[? | [<- | []]] | (o' & m' & ? & ? & ? & ?)]; [by left | |].
           ++ right. exists o, minutes. auto.
           ++ right. exists o', m'. auto.
        -- intros [? | (o' & m' & [<- | ?] & Hm & -> & ?)]; [by left; left | |].
           ++ left. right. left. congruence.
           ++ right. exists o', m'. auto.
      * apply Z.ltb_ge in El. split.
        -- intros [? | (o' & m' & ? & ? & ? & ?)]; [by left |].
           right. exists o', m'. auto.
        -- intros [? | (o' & m' & [<- | ?] & Hm & -> & ?)]; [by left | |].
           ++ assert (m' = minutes) by congruence. subst. lia.
           ++ right. exists o', m'. auto.
    + split.
      * intros [? | (o' & m' & ? & ? & ? & ?)]; [by left |].
        right. exists o', m'. auto.
      * intros [? | (o' & m' & [<- | ?] & Hm & -> & ?)]; [by left | congruence |].
        right. exists o', m'. auto.
Qed.

(** What [compute_default_times] returns for a due date: the candidates
    [due_at - offset] that lie after [now], for the offsets that convert. *)
Lemma compute_default_times_In now due_at user times :
  compute_default_times now (Some due_at) user = Ok times ->
  exists offsets,
    offsets_of (dict_get (match user with Some u => User.preferences u | None => [] end)
                         "default_reminder_minutes" (JList [JInt 30])) = Ok offsets
    /\ forall t, In t times
         <-> exists offset minutes,
               In offset offsets /\ py_int offset = Ok minutes
               /\ t = (due_at - minutes * us_per_minute)%Z /\ (now < t)%Z.
Proof.
  unfold compute_default_times.
  destruct (offsets_of _) as [offsets | e]; simpl; [| done].
  intros [= <-]. exists offsets. split; [done |].
  intros t. rewrite sorted_by_In.
  rewrite kept_In. simpl. tauto.
Qed.

Lemma offsets_of_ok (offsets : json) :
  offsets <> JNull -> exists items, offsets_of offsets = Ok items.
Proof. destruct offsets; simpl; eauto; done. Qed.

Lemma default_times_all_after now due_at user times :
  compute_default_times now due_at user = Ok times ->
  Forall (fun t => (now < t)%Z) times.
Proof.
  destruct due_at as [due_at |]; intros Hr.
  - apply compute_default_times_In in Hr as (offsets & _ & Hin).
    apply List.Forall_forall. intros t Ht.
    apply Hin in Ht as (_ & _ & _ & _ & _ & Hlt). done.
  - injection Hr as <-. constructor.
Qed.

End DefaultTimes.



(** ** The two reminder paths *)

Lemma chat_remind_at_lower_bound now reminder_offset due_at :
  (0 <= reminder_offset)%Z -> (now <= chat_remind_at now reminder_offset due_at)%Z.
Proof.
  intros Hoff. unfold chat_remind_at, us_per_minute.
  destruct due_at as [due |].
  - destruct (due - reminder_offset * (60 * 1000000) <=? now)%Z eqn:E.
    + lia.
    + apply Z.leb_gt in E. lia.
  - destruct (now + reminder_offset * (60 * 1000000) <=? now)%Z; lia.
Qed.

Lemma build_reminders_lower_bound now reminder_offset next_id created :
  (0 <= reminder_offset)%Z ->
  Forall (fun r => (now <= Reminder.remind_at r)%Z /\ Reminder.sent r = false)
         (build_reminders now reminder_offset next_id created).
Proof.
  intros Hoff. revert next_id.
  induction created as [| task created IH]; intros next_id; simpl; constructor.
  - simpl. split; [by apply chat_remind_at_lower_bound | done].
  - apply IH.
Qed.

Lemma build_reminders_length now reminder_offset next_id created :
  List.length (build_reminders now reminder_offset next_id created) = List.length created.
Proof.
  revert next_id. induction created as [| task created IH]; intros next_id; simpl; [done |].
  by rewrite IH.
Qed.




(** ** Scheduling is idempotent *)

Section Scheduling.
Context `{Env}.

Lemma schedule_spec session task_id when :
  let '(session', reminder) := schedule session task_id when in
  (exists added, reminders session' = reminders session ++ added)
  /\ In reminder (reminders session')
  /\ Reminder.task_id reminder = task_id
  /\ Reminder.remind_at reminder = when.
Proof.
  unfold schedule.
  destruct (List.find _ (reminders session)) as [found |] eqn:Ef.
  - apply List.find_some in Ef as [Hin Hm].
    apply andb_true_iff in Hm as [Ht Hw].
    apply Z.eqb_eq in Ht, Hw.
    split; [exists []; by rewrite app_nil_r | done].
  - simpl. split; [by eexists |].
    split; [apply in_app_iff; right; by left | done].
Qed.

Lemma schedule_existing session task_id when existing :
  In existing (reminders session) ->
  Reminder.task_id existing = task_id ->
  Reminder.remind_at existing = when ->
  exists found,
    schedule session task_id when = (session, found)
    /\ In found (reminders session)
    /\ Reminder.task_id found = task_id
    /\ Reminder.remind_at found = when.
Proof.
  intros Hin Ht Hw. unfold schedule.
  destruct (List.find _ (reminders session)) as [found |] eqn:Ef.
  - exists found. apply List.find_some in Ef as [Hf Hm].
    apply andb_true_iff in Hm as [Ht' Hw'].
    apply Z.eqb_eq in Ht', Hw'. done.
  - exfalso. apply (List.find_none _ _ Ef) in Hin.
    rewrite Ht, Hw, !Z.eqb_refl in Hin. done.
Qed.

(** After the loop, every instant has its reminder and no row was lost. *)
Lemma schedule_all_covers task_id times session acc :
  let '(session', _) := fold_left (schedule_step task_id) times (session, acc) in
  (forall r, In r (reminders session) -> In r (reminders session'))
  /\ Forall (scheduled session' task_id) times.
Proof.
  revert session acc. induction times as [| t times IH]; intros session acc; simpl.
  - split; [done | constructor].
  - pose proof (schedule_spec session task_id t) as Hs.
    destruct (schedule session task_id t) as [s1 r1].
    destruct Hs as ((added & Hadd) & Hin & Ht & Hw).
    specialize (IH s1 (acc ++ [r1])).
    destruct (fold_left _ times _) as [s2 rs2].
    destruct IH as [Hkeep Hall]. split.
    + intros r Hr. apply Hkeep. rewrite Hadd. apply in_app_iff. by left.
    + constructor; [| done]. exists r1. split; [by apply Hkeep | done].
Qed.

(** When every instant already has its reminder, the loop inserts nothing
    and returns rows of the session. *)
Lemma schedule_all_existing task_id times session acc :
  Forall (scheduled session task_id) times ->
  exists found,
    fold_left (schedule_step task_id) times (session, acc) = (session, acc ++ found)
    /\ Forall (fun r => In r (reminders session)) found.
Proof.
  revert acc. induction times as [| t times IH]; intros acc Hall; simpl.
  - exists []. rewrite app_nil_r. split; [done | constructor].
  - apply Forall_cons in Hall as [(r & Hin & Ht & Hw) Hall].
    destruct (schedule_existing session task_id t r Hin Ht Hw) as (found & -> & Hf & _).
    destruct (IH (acc ++ [found]) Hall) as (rest & -> & Hrest).
    exists (found :: rest). rewrite <- app_assoc. split; [done |].
    by constructor.
Qed.

Lemma schedule_default_reminders_fold session now task user :
  schedule_default_reminders session now task user
  = bind (compute_default_times now (Task.due_at task) user)
         (fun times => Ok (fold_left (schedule_step (Task.id task)) times (session, []))).
Proof. reflexivity. Qed.

(** A later evaluation time yields instants of the earlier one only. *)
Lemma default_times_later now1 now2 due_at user times1 :
  (now1 <= now2)%Z ->
  compute_default_times now1 due_at user = Ok times1 ->
  exists times2,
    compute_default_times now2 due_at user = Ok times2
    /\ forall t, In t times2 -> In t times1.
Proof.
  intros Hle Hr. destruct due_at as [due_at |].
  - pose proof Hr as Hr1.
    apply compute_default_times_In in Hr1 as (offsets & Hoff & Hin1).
    assert (exists times2, compute_default_times now2 (Some due_at) user = Ok times2)
      as (times2 & Hr2).
    { unfold compute_default_times. rewrite Hoff. simpl. by eexists. }
    exists times2. split; [done |].
    apply compute_default_times_In in Hr2 as (offsets' & Hoff' & Hin2).
    assert (offsets' = offsets) as -> by congruence.
    intros t Ht. apply Hin2 in Ht as (o & m & Ho & Hm & -> & Hlt).
    apply Hin1. exists o, m. repeat split; try done. lia.
  - injection Hr as <-. exists []. split; [done | intros t []].
Qed.

End Scheduling.

(** C10. Scheduling an instant that a task already has a reminder for
    inserts nothing and returns a stored reminder of that task and instant;
    hence running [schedule_default_reminders] again on the same task and
    user, at the same or a later time, leaves the reminders as the first run
    left them and returns stored reminders. *)
Theorem schedule_idempotent `{Env} :
  (forall (session : Store) (task_id when : Z) (existing : Reminder.t),
      In existing (reminders session) ->
      Reminder.task_id existing = task_id ->
      Reminder.remind_at existing = when ->
      exists found,
        schedule session task_id when = (session, found)
        /\ In found (reminders session)
        /\ Reminder.task_id found = task_id
        /\ Reminder.remind_at found = when)
  /\ (forall (session : Store) (now1 now2 : Z) (task : Task.t) (user : option User.t)
             (session1 : Store) (first : list Reminder.t),
        (now1 <= now2)%Z ->
        schedule_default_reminders session now1 task user = Ok (session1, first) ->
        exists again,
          schedule_default_reminders session1 now2 task user = Ok (session1, again)
          /\ Forall (fun r => In r (reminders session1)) again).
Proof.
  split; [apply schedule_existing |].
  intros session now1 now2 task user session1 first Hle Hfirst.
  rewrite schedule_default_reminders_fold in *.
  destruct (compute_default_times now1 (Task.due_at task) user) as [times1 | e] eqn:E1;
    [| done].
  simpl in Hfirst. injection Hfirst as Hfold.
  destruct (default_times_later now1 now2 _ user times1 Hle E1) as (times2 & -> & Hsub).
  simpl.
  pose proof (schedule_all_covers (Task.id task) times1 session []) as Hcov.
  rewrite Hfold in Hcov. destruct Hcov as [_ Hall].
  assert (Hall2 : Forall (scheduled session1 (Task.id task)) times2).
  { apply List.Forall_forall. intros t Ht.
    apply (proj1 (List.Forall_forall _ _) Hall). by apply Hsub. }
  destruct (schedule_all_existing (Task.id task) times2 session1 [] Hall2)
    as (found & -> & Hfound).
  by exists found.
Qed.

Lemma schedule_idempotent_witness :
  let first_run :=
    schedule_default_reminders (H := Examples.env) Examples.empty_store
      ReminderExamples.eight_o_clock ReminderExamples.standup
      (Some ReminderExamples.regular) in
  exists session1 first,
    first_run = Ok (session1, first)
    /\ List.length (reminders session1) = 1%nat
    /\ exists again,
         schedule_default_reminders (H := Examples.env) session1
           (Examples.instant 2024 1 15 8 10) ReminderExamples.standup
           (Some ReminderExamples.regular)
         = Ok (session1, again)
         /\ Forall (fun r => In r (reminders session1)) again.
Proof.
  cbv zeta. eexists _, _. split; [reflexivity |]. split; [reflexivity |].
  refine (proj2 (schedule_idempotent (H := Examples.env)) Examples.empty_store
            ReminderExamples.eight_o_clock (Examples.instant 2024 1 15 8 10)
            ReminderExamples.standup (Some ReminderExamples.regular) _ _ _ eq_refl).
  apply Z.leb_le. reflexivity.
Defined.

(** ** One dispatch run *)

Section Dispatch.
Context `{Env} `{Adapter}.

Local Arguments reminder_message : simpl never.
Local Arguments deliverable : simpl never.
Local Arguments prepare_telegram : simpl never.

Lemma outcomes_cons session a r rest :
  outcomes session a (r :: rest)
  = match deliverable session r with
    | None => Dropped :: outcomes session a rest
    | Some (task, user, chat) =>
        let '(locale, message) := reminder_message task user in
        let '(a', delivered) :=
          send_message a (str_of_int chat) (prepare_telegram locale message) in
        (if delivered then Delivered else Failed) :: outcomes session a' rest
    end.
Proof. reflexivity. Qed.

Lemma dispatch_fold session batch st :
  visited (fold_left (dispatch_step session) batch st)
  = visited st ++ zip_with after_outcome batch (outcomes session (adapter st) batch)
  /\ processed (fold_left (dispatch_step session) batch st)
     = (processed st + delivered_count (outcomes session (adapter st) batch))%nat
  /\ delivery_failed (fold_left (dispatch_step session) batch st)
     = delivery_failed st ++ failed_ids batch (outcomes session (adapter st) batch).
Proof.
  revert st. induction batch as [| r batch IH]; intros st.
  - cbn. rewrite !app_nil_r. by rewrite Nat.add_0_r.
  - cbn [fold_left]. rewrite outcomes_cons.
    destruct (IH (dispatch_step session st r)) as (Hv & Hp & Hf).
    rewrite Hv, Hp, Hf. clear Hv Hp Hf IH.
    unfold dispatch_step.
    destruct (deliverable session r) as [[[task user] chat] |].
    + destruct (reminder_message task user) as [locale message].
      destruct (send_message (adapter st) (str_of_int chat) (prepare_telegram locale message))
        as [a' delivered].
      destruct delivered; cbn; rewrite <- ?app_assoc; repeat split; try done;
        unfold delivered_count; cbn; lia.
    + cbn. rewrite <- app_assoc. done.
Qed.

Lemma outcomes_dropped session a batch :
  Forall2 (fun r o => o = Dropped <-> deliverable session r = None)
          batch (outcomes session a batch).
Proof.
  revert a. induction batch as [| r batch IH]; intros a; [constructor |].
  rewrite outcomes_cons.
  destruct (deliverable session r) as [[[task user] chat] |] eqn:Ed.
  - destruct (reminder_message task user) as [locale message].
    destruct (send_message a (str_of_int chat) (prepare_telegram locale message))
      as [a' delivered].
    constructor; [| apply IH]. rewrite Ed.
    destruct delivered; split; intros; discriminate.
  - constructor; [by rewrite Ed | apply IH].
Qed.

Lemma get_due_reminders_unsent session now limit :
  Forall (fun r => Reminder.sent r = false /\ (Reminder.remind_at r <= now)%Z
                   /\ In r (reminders session))
         (get_due_reminders session now limit).
Proof.
  apply List.Forall_forall. intros r Hr. unfold get_due_reminders in Hr.
  apply list_elem_of_In, elem_of_take in Hr as (i & Hr & _).
  apply list_elem_of_lookup_2, list_elem_of_In in Hr.
  apply sorted_by_In, List.filter_In in Hr as [Hin Hc].
  apply andb_true_iff in Hc as [Hs Hd].
  apply negb_true_iff in Hs. apply Z.leb_le in Hd. done.
Qed.

(** Among reminders fetched unsent, those sent afterwards are the ones not
    marked [Failed]. *)
Lemma sent_count_after batch results :
  Forall (fun r => Reminder.sent r = false) batch ->
  List.length results = List.length batch ->
  (sent_count (zip_with after_outcome batch results)
   + List.length (failed_ids batch results) = List.length batch)%nat.
Proof.
  revert results. induction batch as [| r batch IH]; intros results Hall Hlen.
  - by destruct results.
  - destruct results as [| o results]; [done |].
    apply Forall_cons in Hall as [Hr Hall]. injection Hlen as Hlen.
    specialize (IH results Hall Hlen). unfold sent_count in *.
    destruct o; simpl; rewrite ?Hr; simpl; lia.
Qed.

Lemma outcomes_length session a batch :
  List.length (outcomes session a batch) = List.length batch.
Proof.
  symmetry. apply (Forall2_length _ _ _ (outcomes_dropped session a batch)).
Qed.

End Dispatch.

Lemma deliverable_none session reminder :
  deliverable session reminder = None <-> undeliverable session reminder.
Proof.
  unfold deliverable, undeliverable.
  destruct (reminder_task session reminder) as [task |] eqn:Er;
    [| by split; [left |]].
  destruct (task_user session task) as [user |] eqn:Eu.
  - destruct (User.telegram_id user) as [chat |] eqn:Et.
    + destruct (Z.eqb_spec chat 0) as [-> | Hne].
      * split; [| done]. intros _. right. exists task. split; [done |].
        right. exists user. split; [done |]. by right.
      * split; [done |].
        intros [? | (t & [= <-] & [? | (u & Hu & [? | ?])])]; congruence.
    + split; [| done]. intros _. right. exists task. split; [done |].
      right. exists user. split; [done |]. by left.
  - split; [| done]. intros _. right. exists task. split; [done |]. by left.
Qed.

Lemma flush_nothing (session : Store) : Worker.flush session [] = session.
Proof.
  destruct session. unfold Worker.flush. simpl. f_equal.
  induction reminders0 as [| r rs IH]; simpl; [done | by rewrite IH].
Qed.


(** ** The calendar *)

Section CalendarFacts.
Local Open Scope Z_scope.

Lemma is_leap_cases y :
  (is_leap y = true /\ (y mod 4 = 0 /\ (y mod 100 <> 0 \/ y mod 400 = 0)))
  \/ (is_leap y = false /\ (y mod 4 <> 0 \/ (y mod 100 = 0 /\ y mod 400 <> 0))).
Proof.
  unfold is_leap.
  destruct (Z.eqb_spec (y mod 4) 0), (Z.eqb_spec (y mod 100) 0),
    (Z.eqb_spec (y mod 400) 0); simpl; intuition lia.
Qed.

Lemma days_in_month_range y m : 28 <= days_in_month y m <= 31.
Proof.
  unfold days_in_month.
  destruct (m =? 2); [destruct (is_leap y); lia |].
  destruct ((m =? 4) || (m =? 6) || (m =? 9) || (m =? 11)); lia.
Qed.

(** The years before [y + 1]: one more year of 365 or 366 days. *)
Lemma days_before_next_year y :
  1 <= y ->
  days_before_year (y + 1) = days_before_year y + (if is_leap y then 366 else 365).
Proof.
  intros Hy. unfold days_before_year. cbv zeta.
  replace (y + 1 - 1) with y by lia.
  destruct (is_leap_cases y) as [[-> Hl] | [-> Hl]];
    Z.div_mod_to_equations; lia.
Qed.

(** The days before the month after [m]: those before [m], and [m]. *)
Lemma days_before_next_month y m :
  1 <= m < 12 ->
  days_before_month y (m + 1) = days_before_month y m + days_in_month y m.
Proof.
  intros Hm. unfold days_before_month, days_in_month.
  assert (m = 1 \/ m = 2 \/ m = 3 \/ m = 4 \/ m = 5 \/ m = 6 \/ m = 7 \/ m = 8
          \/ m = 9 \/ m = 10 \/ m = 11) as Hcases by lia.
  destruct Hcases as [-> | [-> | [-> | [-> | [-> | [-> | [-> | [-> | [-> | [-> | ->]]]]]]]]]];
    simpl; destruct (is_leap y); simpl; lia.
Qed.

Lemma days_before_december y :
  days_before_month y 12 + 31 = (if is_leap y then 366 else 365).
Proof. unfold days_before_month. simpl. destruct (is_leap y); lia. Qed.

Lemma next_day_valid d : valid_date d -> valid_date (next_day d).
Proof.
  intros (Hy & Hm & Hd). unfold next_day, valid_date.
  destruct (Z.ltb_spec (day d) (days_in_month (year d) (month d))); simpl.
  - lia.
  - destruct (Z.ltb_spec (month d) 12); simpl.
    + pose proof (days_in_month_range (year d) (month d + 1)). lia.
    + change (days_in_month (year d + 1) 1) with 31. lia.
Qed.

Lemma next_day_ordinal d : valid_date d -> toordinal (next_day d) = toordinal d + 1.
Proof.
  intros (Hy & Hm & Hd). unfold next_day, toordinal.
  destruct (Z.ltb_spec (day d) (days_in_month (year d) (month d))); simpl.
  - lia.
  - assert (day d = days_in_month (year d) (month d)) as Hlast by lia.
    destruct (Z.ltb_spec (month d) 12); simpl.
    + rewrite days_before_next_month by lia. lia.
    + assert (month d = 12) as Hdec by lia.
      rewrite days_before_next_year by lia.
      pose proof (days_before_december (year d)) as Hdecember.
      rewrite Hdec in *. change (days_in_month (year d) 12) with 31 in Hlast.
      change (days_before_month (year d + 1) 1) with 0.
      lia.
Qed.

Lemma date_add_days_succ n d : date_add_days (S n) d = next_day (date_add_days n d).
Proof. reflexivity. Qed.

Lemma date_add_days_ordinal n d :
  valid_date d ->
  valid_date (date_add_days n d)
  /\ toordinal (date_add_days n d) = toordinal d + Z.of_nat n.
Proof.
  intros Hv. induction n as [| n [IHv IHo]].
  - split; [done | simpl; lia].
  - rewrite date_add_days_succ. split; [by apply next_day_valid |].
    rewrite next_day_ordinal by done. lia.
Qed.

(** Adding days that stay inside the month. *)
Lemma date_add_days_within n y m d :
  d + Z.of_nat n <= days_in_month y m ->
  date_add_days n (Date y m d) = Date y m (d + Z.of_nat n).
Proof.
  induction n as [| n IH]; intros Hle.
  - simpl. f_equal. lia.
  - rewrite date_add_days_succ, IH by lia.
    unfold next_day. simpl.
    destruct (Z.ltb_spec (d + Z.of_nat n) (days_in_month y m)); [| lia].
    f_equal. lia.
Qed.

Lemma date_add_days_add a b d :
  date_add_days (a + b) d = date_add_days a (date_add_days b d).
Proof. unfold date_add_days. apply Nat.iter_add. Qed.

(** From the last day of a month, one day leads to the first of the next. *)
Lemma next_day_last y m :
  1 <= m <= 12 ->
  next_day (Date y m (days_in_month y m)) = first_of_next_month y m.
Proof.
  intros Hm. unfold next_day, first_of_next_month. simpl.
  rewrite Z.ltb_irrefl.
  destruct (Z.ltb_spec m 12), (Z.eqb_spec m 12); try lia; reflexivity.
Qed.

(** Thirty-two days after the first of a month is a day of the next
    month, whatever the length of the month. *)
Lemma first_plus_32 y m :
  1 <= m <= 12 ->
  exists d,
    date_add_days 32 (Date y m 1)
    = Date (year (first_of_next_month y m)) (month (first_of_next_month y m)) d.
Proof.
  intros Hm.
  pose proof (days_in_month_range y m) as Hr.
  set (len := days_in_month y m) in *.
  assert (Hsplit : (32 = (32 - Z.to_nat len) + (1 + (Z.to_nat len - 1)))%nat) by lia.
  rewrite Hsplit, date_add_days_add, date_add_days_add.
  rewrite (date_add_days_within (Z.to_nat len - 1) y m 1) by (fold len; lia).
  replace (1 + Z.of_nat (Z.to_nat len - 1)) with len by lia.
  change (date_add_days 1 (Date y m len)) with (next_day (Date y m len)).
  assert (Hn : next_day (Date y m len) = first_of_next_month y m)
    by (by apply next_day_last).
  rewrite Hn.
  assert (Hday : day (first_of_next_month y m) = 1).
  { unfold first_of_next_month. by destruct (m =? 12). }
  destruct (first_of_next_month y m) as [y' m' d']. simpl in *. subst d'.
  pose proof (days_in_month_range y' m') as Hr'.
  rewrite date_add_days_within by lia.
  by eexists.
Qed.

End CalendarFacts.

(** ** Report windows *)

Lemma first_of_next_month_day1 y m :
  first_of_next_month y m
  = Date (year (first_of_next_month y m)) (month (first_of_next_month y m)) 1.
Proof. unfold first_of_next_month. by destruct (m =? 12)%Z. Qed.

Lemma monthly_window now tz anchor :
  (1 <= month anchor <= 12)%Z ->
  _calculate_window now "monthly" (Some anchor) tz
  = (astimezone_utc tz (midnight (Date (year anchor) (month anchor) 1)),
     astimezone_utc tz (midnight (first_of_next_month (year anchor) (month anchor))),
     midnight (Date (year anchor) (month anchor) 1)).
Proof.
  intros Hm. unfold _calculate_window. cbn [String.eqb Ascii.eqb Bool.eqb].
  cbv zeta. unfold combine_min, replace_day1, add_days, midnight.
  cbn [ld_date ld_micro ld_fold year month day].
  destruct (first_plus_32 (year anchor) (month anchor) Hm) as (d & ->).
  cbn [year month day].
  by rewrite <- first_of_next_month_day1.
Qed.



(** ** The overdue trend *)

Section TrendFacts.
Context `{Env}.

Lemma sum_list_perm (l1 l2 : list nat) :
  Permutation l1 l2 -> sum_list l1 = sum_list l2.
Proof. induction 1; simpl; lia. Qed.

Lemma bucket_total_bump (buckets : gmap string nat) (key : string) :
  bucket_total (<[ key := S (default 0%nat (buckets !! key)) ]> buckets)
  = S (bucket_total buckets).
Proof.
  unfold bucket_total. destruct (buckets !! key) as [count |] eqn:Ek; simpl.
  - rewrite <- (insert_delete_eq buckets key (S count)).
    rewrite (sum_list_perm _ _
               (Permutation_map snd
                  (map_to_list_insert (delete key buckets) key (S count)
                     (lookup_delete_eq buckets key)))).
    rewrite <- (sum_list_perm _ _
                  (Permutation_map snd (map_to_list_delete buckets key count Ek))).
    simpl. lia.
  - rewrite (sum_list_perm _ _
               (Permutation_map snd (map_to_list_insert buckets key 1%nat Ek))).
    simpl. lia.
Qed.

Lemma metrics_step_buckets tz locale acc task :
  bucket_total (metrics_step tz locale acc task).1.2
  = (bucket_total acc.1.2 + (if open_with_due task then 1 else 0))%nat.
Proof.
  destruct acc as [[[throughput completed] buckets] users].
  unfold metrics_step, open_with_due.
  destruct (_is_completed task); simpl; [lia |].
  destruct (Task.due_at task) as [due |]; simpl; [| lia].
  rewrite bucket_total_bump. lia.
Qed.

Lemma metrics_fold_buckets tz locale tasks acc :
  bucket_total (fold_left (metrics_step tz locale) tasks acc).1.2
  = (bucket_total acc.1.2 + List.length (List.filter open_with_due tasks))%nat.
Proof.
  revert acc. induction tasks as [| task tasks IH]; intros acc; simpl; [lia |].
  rewrite IH, metrics_step_buckets.
  destruct (open_with_due task); simpl; lia.
Qed.

Lemma trend_total_of_items (items : list (string * nat)) :
  trend_total (List.map (fun item => {| period := item.1; tp_overdue := item.2 |}) items)
  = sum_list (List.map snd items).
Proof. unfold trend_total. by rewrite List.map_map. Qed.

(** The trend adds up to the number of tasks that are not completed and
    have a due date, past or not. *)
Lemma overdue_trend_total tz locale tasks :
  trend_total (overdue_trend (_compute_org_metrics tasks tz locale))
  = List.length (List.filter open_with_due tasks).
Proof.
  unfold _compute_org_metrics.
  pose proof (metrics_fold_buckets tz locale tasks (0%nat, 0%nat, ∅, ∅)) as Hfold.
  destruct (fold_left _ tasks _) as [[[throughput completed] buckets] users].
  simpl in *. rewrite trend_total_of_items.
  rewrite (sum_list_perm _ _ (Permutation_map snd (sorted_by_perm item_le _))).
  fold (bucket_total buckets). rewrite Hfold.
  unfold bucket_total. by rewrite map_to_list_empty.
Qed.

End TrendFacts.


(** ** The orchestrator *)

Section Generate.
Context `{Env} `{!Exporter}.

Local Arguments _format_user_summary : simpl never.
Local Arguments _format_org_summary : simpl never.
Local Arguments _calculate_window : simpl never.
Local Arguments _fetch_tasks : simpl never.
Local Arguments _compute_counts : simpl never.
Local Arguments _compute_org_metrics : simpl never.
Local Arguments _select_next_tasks : simpl never.
Local Arguments _select_overdue_tasks : simpl never.
Local Arguments _resolve_timezone : simpl never.
Local Arguments normalize_locale : simpl never.

Lemma append_empty (a b : string) : (a ++ b)%string = EmptyString -> b = EmptyString.
Proof. destruct a; simpl; [done | discriminate]. Qed.

(** Two lines or more joined by a separator give a text that is not empty. *)
Lemma join_two_lines (sep a b : string) (rest : list string) :
  sep <> EmptyString -> join sep (a :: b :: rest) <> EmptyString.
Proof.
  intros Hsep Hj. unfold join in Hj. simpl in Hj.
  apply append_empty in Hj. destruct sep; [done | discriminate Hj].
Qed.

Lemma newline_not_empty : String (ascii_of_nat 10) EmptyString <> EmptyString.
Proof. discriminate. Qed.

Lemma user_summary_not_empty locale report_type anchor counts next_tasks overdue_tasks tz
    window_start window_end :
  _format_user_summary locale report_type anchor counts next_tasks overdue_tasks tz
    window_start window_end <> EmptyString.
Proof.
  unfold _format_user_summary. cbv zeta.
  destruct (total counts =? 0)%nat.
  - apply join_two_lines, newline_not_empty.
  - destruct next_tasks, overdue_tasks; apply join_two_lines, newline_not_empty.
Qed.

Lemma org_summary_not_empty locale scope report_type counts metrics tz
    window_start window_end :
  _format_org_summary locale scope report_type counts metrics tz window_start window_end
  <> EmptyString.
Proof.
  unfold _format_org_summary. cbv zeta.
  destruct (overdue_trend metrics); apply join_two_lines, newline_not_empty.
Qed.

(** Apart from the two exporters, nothing in [generate] raises: without an
    export the response is returned, with the resolved scope, no file and
    a summary that is not empty. *)
Lemma generate_without_export session now payload principal :
  (_determine_scope payload = USER -> req_format payload <> PDF) ->
  (_determine_scope payload <> USER -> req_format payload <> CSV) ->
  exists response,
    generate session now payload principal = Ok response
    /\ scope response = _determine_scope payload
    /\ file_url response = None
    /\ summary response <> EmptyString.
Proof.
  intros Huser Horg. unfold generate.
  destruct (_calculate_window _ _ _ _) as [[window_start window_end] anchor].
  destruct (_determine_scope payload) eqn:Es.
  - destruct (req_format payload) eqn:Ef.
    + eexists. split; [reflexivity |]. cbn. repeat split; try done.
      apply user_summary_not_empty.
    + by destruct Huser.
    + eexists. split; [reflexivity |]. cbn. repeat split; try done.
      apply user_summary_not_empty.
  - destruct (req_format payload) eqn:Ef.
    + eexists. split; [reflexivity |]. cbn. repeat split; try done.
      apply org_summary_not_empty.
    + eexists. split; [reflexivity |]. cbn. repeat split; try done.
      apply org_summary_not_empty.
    + by destruct Horg.
  - destruct (req_format payload) eqn:Ef.
    + eexists. split; [reflexivity |]. cbn. repeat split; try done.
      apply org_summary_not_empty.
    + eexists. split; [reflexivity |]. cbn. repeat split; try done.
      apply org_summary_not_empty.
    + by destruct Horg.
  - destruct (req_format payload) eqn:Ef.
    + eexists. split; [reflexivity |]. cbn. repeat split; try done.
      apply org_summary_not_empty.
    + eexists. split; [reflexivity |]. cbn. repeat split; try done.
      apply org_summary_not_empty.
    + by destruct Horg.
Qed.

(** For a request resolved to the user scope, [generate] raises only what
    the PDF exporter raises. *)
Lemma generate_raise_is_export session now payload principal e :
  _determine_scope payload = USER ->
  generate session now payload principal = Raise e ->
  req_format payload = PDF
  /\ exists locale counts summary tasks tz window_start window_end,
       _render_user_pdf locale payload principal counts summary tasks tz
         window_start window_end = Raise e.
Proof.
  intros Hs. unfold generate.
  destruct (_calculate_window _ _ _ _) as [[window_start window_end] anchor].
  rewrite Hs. destruct (req_format payload); [done | | done].
  destruct (_render_user_pdf _ _ _ _ _ _ _ _ _) as [path | e'] eqn:Er; [done |].
  cbn. intros [= <-]. split; [done |]. by repeat eexists.
Qed.

End Generate.







(* ===================================================================== *)
(** * Part III: further properties of the same code                       *)
(* ===================================================================== *)

Set Warnings "-clear-no-such-hyp".

(** ** Sorted results *)

Section SortedBy.
Context {A : Type} (le : A -> A -> bool) (P : A -> Prop).
Hypothesis le_trans :
  forall a b c, P a -> P b -> P c -> le a b = true -> le b c = true -> le a c = true.
Hypothesis le_total : forall a b, P a -> P b -> le a b = false -> le b a = true.

Lemma insert_sorted_strongly x l :
  P x -> Forall P l ->
  StronglySorted (fun a b => le a b = true) l ->
  StronglySorted (fun a b => le a b = true) (insert_sorted le x l).
Proof using le_trans le_total.
  intros Hx Hl Hs. induction l as [| y l IH]; simpl.
  - repeat constructor.
  - apply Forall_cons in Hl as [Hy Hl].
    apply StronglySorted_inv in Hs as [Hs Hall].
    destruct (le x y) eqn:Exy.
    + constructor; [by constructor |].
      constructor; [done |].
      apply List.Forall_forall. intros z Hz.
      apply (le_trans x y z); try done.
      * by apply (proj1 (List.Forall_forall _ _) Hl).
      * by apply (proj1 (List.Forall_forall _ _) Hall).
    + constructor; [by apply IH |].
      apply List.Forall_forall. intros z Hz.
      apply (Permutation_in _ (insert_sorted_perm le x l)) in Hz as [<- | Hz].
      * by apply le_total.
      * by apply (proj1 (List.Forall_forall _ _) Hall).
Qed.

Lemma sorted_by_strongly l :
  Forall P l -> StronglySorted (fun a b => le a b = true) (sorted_by le l).
Proof using le_trans le_total.
  induction l as [| x l IH]; intros Hl; simpl; [constructor |].
  apply Forall_cons in Hl as [Hx Hl].
  apply insert_sorted_strongly; [done | | by apply IH].
  apply List.Forall_forall. intros z Hz. apply sorted_by_In in Hz.
  by apply (proj1 (List.Forall_forall _ _) Hl).
Qed.

End SortedBy.

Lemma strongly_sorted_take {A} (R : A -> A -> Prop) n (l : list A) :
  StronglySorted R l -> StronglySorted R (take n l).
Proof.
  intros Hs. rewrite <- (take_drop n l) in Hs.
  by apply StronglySorted_app_1_l in Hs.
Qed.

(** In a sorted list cut after [n] elements, what is kept is below what is
    cut off. *)
Lemma strongly_sorted_take_least {A} (R : A -> A -> Prop) n (l : list A) x y :
  StronglySorted R l -> In x (take n l) -> In y (drop n l) -> R x y.
Proof.
  intros Hs Hx Hy. rewrite <- (take_drop n l) in Hs.
  apply (StronglySorted_app_1_elem_of R _ _ x y Hs); by apply list_elem_of_In.
Qed.

Lemma strongly_sorted_weaken {A} (R1 R2 : A -> A -> Prop) (l : list A) :
  (forall a b, R1 a b -> R2 a b) -> StronglySorted R1 l -> StronglySorted R2 l.
Proof.
  intros Himp. induction 1 as [| x l Hs IH Hall]; constructor; [done |].
  eapply Forall_impl; [apply Hall | apply Himp].
Qed.

Lemma Z_leb_sorted (l : list Z) : StronglySorted Z.le (sorted_by Z.leb l).
Proof.
  apply (strongly_sorted_weaken (fun a b => Z.leb a b = true)).
  { intros a b. apply Z.leb_le. }
  apply (sorted_by_strongly Z.leb (fun _ => True)).
  - intros a b c _ _ _ Hab Hbc. apply Z.leb_le in Hab, Hbc. apply Z.leb_le. lia.
  - intros a b _ _ Hab. apply Z.leb_gt in Hab. apply Z.leb_le. lia.
  - apply List.Forall_forall. done.
Qed.

(** ** Fetching the due reminders *)

Lemma due_candidates_sorted (session : Store) (now : Z) :
  StronglySorted (fun a b => (Reminder.remind_at a <= Reminder.remind_at b)%Z)
    (sorted_by (fun a b => (Reminder.remind_at a <=? Reminder.remind_at b)%Z)
       (List.filter (fun r => negb (Reminder.sent r) && (Reminder.remind_at r <=? now)%Z)
                    (reminders session))).
Proof.
  apply (strongly_sorted_weaken
           (fun a b => (Reminder.remind_at a <=? Reminder.remind_at b)%Z = true)).
  { intros a b. apply Z.leb_le. }
  apply (sorted_by_strongly _ (fun _ => True)).
  - intros a b c _ _ _ Hab Hbc. apply Z.leb_le in Hab, Hbc. apply Z.leb_le. lia.
  - intros a b _ _ Hab. apply Z.leb_gt in Hab. apply Z.leb_le. lia.
  - apply List.Forall_forall. done.
Qed.

(** X1. [get_due_reminders] returns at most [limit] reminders, as many as
    there are unsent due ones up to that limit; each is a stored reminder,
    unsent and due; they are in ascending order of [remind_at]; and a stored
    unsent due reminder that is left out is not earlier than any returned
    one. *)
Theorem get_due_reminders_earliest (session : Store) (now : Z) (limit : nat) :
  let due := get_due_reminders session now limit in
  List.length due
  = Nat.min limit
      (List.length
         (List.filter (fun r => negb (Reminder.sent r) && (Reminder.remind_at r <=? now)%Z)
                      (reminders session)))
  /\ Forall (fun r => In r (reminders session)
                      /\ Reminder.sent r = false
                      /\ (Reminder.remind_at r <= now)%Z) due
  /\ StronglySorted (fun a b => (Reminder.remind_at a <= Reminder.remind_at b)%Z) due
  /\ (forall left_out : Reminder.t,
        In left_out (reminders session) ->
        Reminder.sent left_out = false ->
        (Reminder.remind_at left_out <= now)%Z ->
        ~ In left_out due ->
        Forall (fun r => (Reminder.remind_at r <= Reminder.remind_at left_out)%Z) due).
Proof.
  cbv zeta. split; [| split; [| split]].
  - unfold get_due_reminders. by rewrite length_take, sorted_by_length.
  - eapply Forall_impl; [apply get_due_reminders_unsent |].
    intros r (? & ? & ?). done.
  - unfold get_due_reminders. apply strongly_sorted_take, due_candidates_sorted.
  - intros left_out Hin Hs Hd Hout. apply List.Forall_forall. intros r Hr.
    unfold get_due_reminders in *.
    apply (strongly_sorted_take_least
             (fun a b => (Reminder.remind_at a <= Reminder.remind_at b)%Z)
             limit _ r left_out (due_candidates_sorted session now) Hr).
    assert (Hall : In left_out
                     (sorted_by (fun a b => (Reminder.remind_at a <=? Reminder.remind_at b)%Z)
                        (List.filter
                           (fun r => negb (Reminder.sent r) && (Reminder.remind_at r <=? now)%Z)
                           (reminders session)))).
    { apply sorted_by_In, List.filter_In. split; [done |].
      rewrite Hs. simpl. by apply Z.leb_le. }
    rewrite <- (take_drop limit) in Hall. apply in_app_iff in Hall as [Ht | Hdrop]; [| done].
    by destruct Hout.
Qed.

(** X2. The instants returned by [compute_default_times] are in ascending
    order, there are no more of them than stored offsets, and each is the
    due instant minus a stored offset in minutes that converts to an
    integer. *)
Theorem compute_default_times_sorted `{Env} (now due_at : Z) (user : option User.t)
    (times : list Z) :
  compute_default_times now (Some due_at) user = Ok times ->
  StronglySorted Z.le times
  /\ exists offsets,
       offsets_of (dict_get (match user with Some u => User.preferences u | None => [] end)
                            "default_reminder_minutes" (JList [JInt 30])) = Ok offsets
       /\ (List.length times <= List.length offsets)%nat
       /\ Forall (fun t => exists offset minutes,
                    In offset offsets /\ py_int offset = Ok minutes
                    /\ t = (due_at - minutes * us_per_minute)%Z) times.
Proof.
  intros Hr. pose proof Hr as Hr'.
  apply compute_default_times_In in Hr' as (offsets & Hoff & Hin).
  unfold compute_default_times in Hr. rewrite Hoff in Hr. simpl in Hr.
  injection Hr as <-. split; [apply Z_leb_sorted |].
  exists offsets. split; [done |]. split.
  - rewrite sorted_by_length. clear.
    assert (Hgen : forall acc,
               (List.length (fold_left (default_times_step now due_at) offsets acc)
                <= List.length acc + List.length offsets)%nat).
    { induction offsets as [| o offsets IH]; intros acc; simpl; [lia |].
      etrans; [apply IH |]. unfold default_times_step.
      destruct (py_int o); [| lia]. cbv zeta.
      destruct (now <? _)%Z; rewrite ?length_app; simpl; lia. }
    apply (Hgen []).
  - apply List.Forall_forall. intros t Ht.
    apply Hin in Ht as (o & m & ? & ? & ? & _). by exists o, m.
Qed.

Lemma compute_default_times_sorted_witness :
  compute_default_times (H := Examples.env) ReminderExamples.eight_o_clock
    (Some ReminderExamples.nine_o_clock) (Some ReminderExamples.regular)
  = Ok [Examples.instant 2024 1 15 8 45]
  /\ StronglySorted Z.le [Examples.instant 2024 1 15 8 45].
Proof.
  assert (Hr : compute_default_times (H := Examples.env) ReminderExamples.eight_o_clock
                 (Some ReminderExamples.nine_o_clock) (Some ReminderExamples.regular)
               = Ok [Examples.instant 2024 1 15 8 45]) by reflexivity.
  split; [exact Hr |].
  exact (proj1 (compute_default_times_sorted (H := Examples.env)
                  ReminderExamples.eight_o_clock ReminderExamples.nine_o_clock
                  (Some ReminderExamples.regular) _ Hr)).
Defined.

(** ** The task query of a report *)

Lemma strongly_sorted_weaken_in {A} (R1 R2 : A -> A -> Prop) (l : list A) :
  (forall a b, In a l -> In b l -> R1 a b -> R2 a b) ->
  StronglySorted R1 l -> StronglySorted R2 l.
Proof.
  intros Himp Hs. induction Hs as [| x l Hs IH Hall]; constructor.
  - apply IH. intros a b Ha Hb. apply Himp; by right.
  - apply List.Forall_forall. intros y Hy.
    apply Himp; [by left | by right |].
    by apply (proj1 (List.Forall_forall _ _) Hall).
Qed.

Lemma opt_eqb_spec column value : opt_eqb column value = true <-> column = Some value.
Proof.
  unfold opt_eqb. destruct column as [c |]; [| done].
  rewrite Z.eqb_eq. split; [by intros -> | by intros [= ->]].
Qed.

Lemma column_is_spec requested column :
  column_is requested column = true <-> forall v, requested = Some v -> column = Some v.
Proof.
  unfold column_is. destruct requested as [v |].
  - rewrite opt_eqb_spec. split; [by intros -> w [= <-] | intros Hv; by apply Hv].
  - split; [done | done].
Qed.

Lemma team_matches_spec session team task :
  team_matches session team task = true
  <-> forall team_id,
        team = Some team_id ->
        (exists a,
            In a (assignments session)
            /\ TaskAssignment.task_id a = Task.id task
            /\ TaskAssignment.assigned_team_id a = Some team_id)
        \/ (exists pr,
               In pr (projects session)
               /\ Task.project_id task = Some (Project.id pr)
               /\ Project.team_id pr = Some team_id).
Proof.
  unfold team_matches. destruct team as [team_id |]; [| done].
  rewrite orb_true_iff, !existsb_exists. split.
  - intros Hm t [= <-]. destruct Hm as [(a & Ha & Hc) | (pr & Hp & Hc)];
      apply andb_true_iff in Hc as [H1 H2].
    + left. exists a. apply Z.eqb_eq in H1. apply opt_eqb_spec in H2. done.
    + right. exists pr. apply opt_eqb_spec in H1, H2. done.
  - intros Hm. destruct (Hm team_id eq_refl) as [(a & Ha & H1 & H2) | (pr & Hp & H1 & H2)].
    + left. exists a. split; [done |]. apply andb_true_iff.
      split; [by apply Z.eqb_eq | by apply opt_eqb_spec].
    + right. exists pr. split; [done |]. apply andb_true_iff.
      split; by apply opt_eqb_spec.
Qed.

Lemma created_in_spec window_start window_end task :
  created_in window_start window_end task = true
  <-> exists created,
        Task.created_at task = Some created /\ (window_start <= created < window_end)%Z.
Proof.
  unfold created_in. destruct (Task.created_at task) as [c |].
  - rewrite andb_true_iff, Z.leb_le, Z.ltb_lt. split.
    + intros ?. by exists c.
    + intros (c' & [= <-] & ?). done.
  - split; [done | intros (c' & ? & _); done].
Qed.

Lemma created_le_trans a b c :
  created_le a b = true -> created_le b c = true -> created_le a c = true.
Proof.
  unfold created_le.
  destruct (Task.created_at a), (Task.created_at b), (Task.created_at c); try done.
  rewrite !Z.leb_le. lia.
Qed.

Lemma created_le_total a b : created_le a b = false -> created_le b a = true.
Proof.
  unfold created_le. destruct (Task.created_at a), (Task.created_at b); try done.
  rewrite Z.leb_gt, Z.leb_le. lia.
Qed.

(** X3. [_fetch_tasks] returns exactly the stored tasks the request asks
    for in the window (the team filter being the disjunction of assignment
    and project linkage), in ascending order of creation, and no more tasks
    than are stored; when no stored task qualifies the result is the empty
    list. *)
Theorem fetch_tasks_spec (session : Store) (payload : ReportRequest)
    (window_start window_end : Z) :
  let fetched := _fetch_tasks session payload window_start window_end in
  (forall task : Task.t,
      In task fetched
      <-> In task (tasks session)
          /\ requested session payload window_start window_end task)
  /\ StronglySorted created_no_later fetched
  /\ (List.length fetched <= List.length (tasks session))%nat
  /\ ((forall task, In task (tasks session) ->
                    ~ requested session payload window_start window_end task) ->
      fetched = []).
Proof.
  cbv zeta.
  assert (Hin : forall task,
             In task (_fetch_tasks session payload window_start window_end)
             <-> In task (tasks session)
                 /\ requested session payload window_start window_end task).
  { intros task. unfold _fetch_tasks, requested.
    rewrite sorted_by_In, List.filter_In, !andb_true_iff.
    rewrite created_in_spec, !column_is_spec, team_matches_spec. tauto. }
  split; [exact Hin |]. split; [| split].
  - apply (strongly_sorted_weaken_in (fun a b => created_le a b = true)).
    + intros a b Ha Hb Hab.
      apply Hin in Ha as (_ & (x & Hx & _) & _). apply Hin in Hb as (_ & (y & Hy & _) & _).
      exists x, y. unfold created_le in Hab. rewrite Hx, Hy in Hab.
      apply Z.leb_le in Hab. done.
    + apply (sorted_by_strongly _ (fun _ => True)).
      * intros a b c _ _ _. apply created_le_trans.
      * intros a b _ _. apply created_le_total.
      * by apply List.Forall_forall.
  - unfold _fetch_tasks. rewrite sorted_by_length. apply List.filter_length_le.
  - intros Hnone.
    destruct (_fetch_tasks session payload window_start window_end) as [| task rest] eqn:Ef;
      [done |].
    exfalso. destruct (proj1 (Hin task) (or_introl eq_refl)) as [Ht Hr].
    by apply (Hnone task).
Qed.

(** ** The task previews of a user report *)

Lemma In_take {A} n (l : list A) x : In x (take n l) -> In x l.
Proof.
  intros Hx. rewrite <- (take_drop n l). apply in_app_iff. by left.
Qed.

Lemma filter_ext_length {A} (f g : A -> bool) (l : list A) :
  (forall x, f x = g x) -> List.length (List.filter f l) = List.length (List.filter g l).
Proof.
  intros Hfg. induction l as [| x l IH]; simpl; [done |].
  rewrite Hfg. destruct (g x); simpl; lia.
Qed.

Lemma due_le_trans_dated a b c :
  is_not_none (Task.due_at a) = true -> is_not_none (Task.due_at b) = true ->
  is_not_none (Task.due_at c) = true ->
  due_le a b = true -> due_le b c = true -> due_le a c = true.
Proof.
  unfold due_le.
  destruct (Task.due_at a), (Task.due_at b), (Task.due_at c); try done.
  rewrite !Z.leb_le. lia.
Qed.

Lemma due_le_total_dated a b :
  is_not_none (Task.due_at a) = true -> is_not_none (Task.due_at b) = true ->
  due_le a b = false -> due_le b a = true.
Proof.
  unfold due_le. destruct (Task.due_at a), (Task.due_at b); try done.
  rewrite Z.leb_gt, Z.leb_le. lia.
Qed.

Lemma past_due_dated now task : past_due now task = true -> is_not_none (Task.due_at task) = true.
Proof. unfold past_due. by destruct (Task.due_at task). Qed.

(** X4. [_select_overdue_tasks] returns as many previews as there are
    overdue tasks in the counts, up to the limit; each is the preview of a
    listed task that is not completed and due strictly before the evaluation
    time; and they are in ascending order of due time. *)
Theorem select_overdue_tasks_spec (now : Z) (tasks : list Task.t) (tz : ZoneInfo) (limit : nat) :
  let selected := _select_overdue_tasks now tasks tz limit in
  List.length selected = Nat.min limit (overdue (_compute_counts now tasks))
  /\ Forall (fun preview =>
               exists task due,
                 In task tasks /\ preview = _to_report_task task tz
                 /\ _is_completed task = false
                 /\ rt_due_at preview = Some due /\ (due < now)%Z) selected
  /\ StronglySorted (fun a b => exists x y, rt_due_at a = Some x /\ rt_due_at b = Some y
                                            /\ (x <= y)%Z) selected.
Proof.
  cbv zeta. unfold _select_overdue_tasks.
  set (overdue_tasks :=
         List.filter (fun task => past_due now task && negb (_is_completed task)) tasks).
  assert (Hfilter : forall task, In task overdue_tasks ->
             In task tasks /\ past_due now task = true /\ _is_completed task = false).
  { intros task Ht. apply List.filter_In in Ht as [Hin Hc].
    apply andb_true_iff in Hc as [Hp Hn]. apply negb_true_iff in Hn. done. }
  assert (Hsorted : forall task,
             In task (take limit (sorted_by due_le overdue_tasks)) ->
             In task tasks /\ past_due now task = true /\ _is_completed task = false).
  { intros task Ht. apply Hfilter.
    apply (proj1 (sorted_by_In due_le overdue_tasks task)).
    by apply (In_take limit). }
  split; [| split].
  - rewrite length_map, length_take, sorted_by_length.
    destruct (compute_counts_filter now tasks) as (_ & _ & ->).
    f_equal. apply filter_ext_length. intros x. apply andb_comm.
  - apply List.Forall_forall. intros preview Hp.
    apply in_map_iff in Hp as (task & <- & Ht).
    destruct (Hsorted task Ht) as (Hin & Hpast & Hc).
    apply past_due_spec in Hpast as (due & Hd & Hlt).
    exists task, due. done.
  - change (List.map (fun task => _to_report_task task tz)
                     (take limit (sorted_by due_le overdue_tasks)))
      with ((fun task => _to_report_task task tz)
              <$> take limit (sorted_by due_le overdue_tasks)).
    apply (StronglySorted_fmap _
             (fun a b => exists x y, Task.due_at a = Some x /\ Task.due_at b = Some y
                                     /\ (x <= y)%Z)); [done |].
    apply (strongly_sorted_weaken_in (fun a b => due_le a b = true)).
    + intros a b Ha Hb Hab.
      destruct (Hsorted a Ha) as (_ & Hpa & _). destruct (Hsorted b Hb) as (_ & Hpb & _).
      apply past_due_spec in Hpa as (x & Hx & _). apply past_due_spec in Hpb as (y & Hy & _).
      exists x, y. unfold due_le in Hab. rewrite Hx, Hy in Hab. apply Z.leb_le in Hab. done.
    + apply strongly_sorted_take.
      apply (sorted_by_strongly _ (fun task => is_not_none (Task.due_at task) = true)).
      * apply due_le_trans_dated.
      * apply due_le_total_dated.
      * apply List.Forall_forall. intros task Ht.
        destruct (Hfilter task Ht) as (_ & Hp & _). by apply (past_due_dated now).
Qed.

Lemma pair_le_trans a b c : pair_le a b = true -> pair_le b c = true -> pair_le a c = true.
Proof.
  unfold pair_le. rewrite !orb_true_iff, !andb_true_iff, !Z.ltb_lt, !Z.eqb_eq, !Z.leb_le.
  lia.
Qed.

Lemma pair_le_total a b : pair_le a b = false -> pair_le b a = true.
Proof.
  unfold pair_le.
  rewrite orb_false_iff, andb_false_iff, orb_true_iff, andb_true_iff.
  rewrite !Z.ltb_lt, !Z.ltb_ge, !Z.eqb_eq, !Z.eqb_neq, !Z.leb_le, !Z.leb_gt. lia.
Qed.

Lemma pair_le_first a b : pair_le a b = true -> (a.1 <= b.1)%Z.
Proof.
  unfold pair_le. rewrite orb_true_iff, andb_true_iff, Z.ltb_lt, Z.eqb_eq. lia.
Qed.

Lemma pending_sorted tasks :
  StronglySorted (fun a b => pair_le (next_key a) (next_key b) = true)
    (sorted_by (fun a b => pair_le (next_key a) (next_key b))
       (List.filter (fun task => negb (_is_completed task)) tasks)).
Proof.
  apply (sorted_by_strongly _ (fun _ => True)).
  - intros a b c _ _ _. apply pair_le_trans.
  - intros a b _ _. apply pair_le_total.
  - by apply List.Forall_forall.
Qed.

(** X5. [_select_next_tasks] returns as many previews as there are tasks
    that are not completed, up to the limit; each is the preview of a listed
    task that is not completed; they are in ascending order of due time, a
    task without due time ranking last. Overdue tasks are not left out:
    a task that is not completed and due before [now] is among the previews
    unless every preview is itself due before [now]. *)
Theorem select_next_tasks_spec (now : Z) (tasks : list Task.t) (tz : ZoneInfo) (limit : nat) :
  let selected := _select_next_tasks tasks tz limit in
  let c := _compute_counts now tasks in
  List.length selected = Nat.min limit (total c - completed c)
  /\ Forall (fun preview =>
               exists task,
                 In task tasks /\ preview = _to_report_task task tz
                 /\ _is_completed task = false) selected
  /\ StronglySorted (fun a b => (due_rank a <= due_rank b)%Z) selected
  /\ (forall task : Task.t,
        In task tasks -> _is_completed task = false -> due_before now task ->
        In (_to_report_task task tz) selected
        \/ Forall (fun preview => (due_rank preview < now)%Z) selected).
Proof.
  cbv zeta. unfold _select_next_tasks.
  set (pending := List.filter (fun task => negb (_is_completed task)) tasks).
  set (order := fun a b : Task.t => pair_le (next_key a) (next_key b)).
  assert (Hpending : forall task, In task pending <-> In task tasks /\ _is_completed task = false).
  { intros task. unfold pending. rewrite List.filter_In, negb_true_iff. done. }
  assert (Htake : forall task, In task (take limit (sorted_by order pending)) ->
                               In task tasks /\ _is_completed task = false).
  { intros task Ht. apply Hpending.
    apply (proj1 (sorted_by_In order pending task)).
    by apply (In_take limit). }
  split; [| split; [| split]].
  - rewrite length_map, length_take, sorted_by_length.
    destruct (compute_counts_filter now tasks) as (-> & -> & _).
    f_equal. unfold pending. clear.
    induction tasks as [| t tasks IH]; simpl; [done |].
    destruct (_is_completed t); simpl; [done |].
    pose proof (List.filter_length_le _is_completed tasks). lia.
  - apply List.Forall_forall. intros preview Hp.
    apply in_map_iff in Hp as (task & <- & Ht).
    destruct (Htake task Ht). by exists task.
  - change (List.map (fun task => _to_report_task task tz)
                     (take limit (sorted_by order pending)))
      with ((fun task => _to_report_task task tz) <$> take limit (sorted_by order pending)).
    apply (StronglySorted_fmap _ (fun a b => order a b = true)).
    + intros a b Hab. by apply pair_le_first in Hab.
    + apply strongly_sorted_take, pending_sorted.
  - intros task Hin Hc (due & Hdue & Hlt).
    assert (Hall : In task (sorted_by order pending)).
    { apply (proj2 (sorted_by_In order pending task)). by apply Hpending. }
    rewrite <- (take_drop limit) in Hall. apply in_app_iff in Hall as [Hkept | Hcut].
    + left. apply in_map_iff. by exists task.
    + right. apply List.Forall_forall. intros preview Hp.
      apply in_map_iff in Hp as (kept & <- & Hk).
      pose proof (strongly_sorted_take_least _ limit _ kept task
                    (pending_sorted tasks) Hk Hcut) as Hle.
      apply pair_le_first in Hle. unfold next_key in Hle. simpl in Hle.
      rewrite Hdue in Hle. simpl in Hle.
      unfold due_rank, _to_report_task. simpl. lia.
Qed.

(** ** Consecutive report windows *)

Lemma daily_window now tz anchor :
  _calculate_window now "daily" (Some anchor) tz
  = (astimezone_utc tz (midnight anchor),
     astimezone_utc tz (midnight (next_day anchor)),
     midnight anchor).
Proof. reflexivity. Qed.

Lemma weekly_window now tz anchor :
  _calculate_window now "weekly" (Some anchor) tz
  = (astimezone_utc tz (midnight anchor),
     astimezone_utc tz (midnight (date_add_days 7 anchor)),
     midnight anchor).
Proof. reflexivity. Qed.





(** ** The organization metrics *)

Section MetricsFacts.
Context `{Env}.

Lemma metrics_step_spec tz locale acc task :
  let acc' := metrics_step tz locale acc task in
  acc'.1.1.1 = S acc.1.1.1
  /\ acc'.1.1.2 = (acc.1.1.2 + (if _is_completed task then 1 else 0))%nat
  /\ acc'.2 = active_user_ids [task] ∪ acc.2
  /\ (forall label,
        default 0%nat (acc'.1.2 !! label)
        = (default 0%nat (acc.1.2 !! label)
           + (if in_bucket tz locale label task then 1 else 0))%nat)
  /\ ((forall label n, acc.1.2 !! label = Some n -> (0 < n)%nat) ->
      forall label n, acc'.1.2 !! label = Some n -> (0 < n)%nat).
Proof.
  destruct acc as [[[throughput completed] buckets] users]. cbv zeta.
  unfold metrics_step, in_bucket, bucket_label. cbn [fst snd active_user_ids].
  assert (Husers :
            match Task.user_id task with
            | Some uid => if (uid =? 0)%Z then users else {[uid]} ∪ users
            | None => users
            end
            = match Task.user_id task with
              | Some uid => if (uid =? 0)%Z then ∅ else {[uid]} ∪ ∅
              | None => ∅
              end ∪ users).
  { destruct (Task.user_id task) as [uid |]; [destruct (uid =? 0)%Z |]; set_solver. }
  destruct (_is_completed task); cbn [fst snd].
  - split; [done |]. split; [lia |]. split; [done |].
    split; [intros label; lia | done].
  - destruct (Task.due_at task) as [due |]; cbn [fst snd fmap option_fmap option_map].
    + set (key := format_date due locale (TzInfo tz) "medium").
      split; [done |]. split; [lia |]. split; [done |]. split.
      * intros label. destruct (String.eqb_spec key label) as [<- | Hne].
        -- rewrite lookup_insert_eq. simpl. lia.
        -- rewrite lookup_insert_ne by done. lia.
      * intros Hpos label n. destruct (String.eqb_spec key label) as [<- | Hne].
        -- rewrite lookup_insert_eq. intros [= <-]. lia.
        -- rewrite lookup_insert_ne by done. apply Hpos.
    + split; [done |]. split; [lia |]. split; [done |].
      split; [intros label; lia | done].
Qed.

Lemma metrics_fold_spec tz locale tasks acc :
  let acc' := fold_left (metrics_step tz locale) tasks acc in
  acc'.1.1.1 = (acc.1.1.1 + List.length tasks)%nat
  /\ acc'.1.1.2 = (acc.1.1.2 + List.length (List.filter _is_completed tasks))%nat
  /\ acc'.2 = active_user_ids tasks ∪ acc.2
  /\ (forall label,
        default 0%nat (acc'.1.2 !! label)
        = (default 0%nat (acc.1.2 !! label)
           + List.length (List.filter (in_bucket tz locale label) tasks))%nat)
  /\ ((forall label n, acc.1.2 !! label = Some n -> (0 < n)%nat) ->
      forall label n, acc'.1.2 !! label = Some n -> (0 < n)%nat).
Proof.
  revert acc. induction tasks as [| task tasks IH]; intros acc; cbv zeta.
  - cbn [fold_left List.length List.filter active_user_ids].
    split; [lia |]. split; [lia |]. split; [by rewrite (left_id_L ∅ (∪)) |].
    split; [intros label; lia | done].
  - cbn [fold_left].
    destruct (IH (metrics_step tz locale acc task)) as (H1 & H2 & H3 & H4 & H5).
    destruct (metrics_step_spec tz locale acc task) as (S1 & S2 & S3 & S4 & S5).
    rewrite H1, H2, H3, S1, S2, S3. split; [simpl; lia |]. split; [| split; [| split]].
    + simpl. destruct (_is_completed task); simpl; lia.
    + cbn [active_user_ids].
      destruct (Task.user_id task) as [uid |]; [destruct (uid =? 0)%Z |]; set_solver.
    + intros label. rewrite H4, S4. simpl.
      destruct (in_bucket tz locale label task); simpl; lia.
    + intros Hpos. apply H5, S5, Hpos.
Qed.

Lemma active_user_ids_size tasks : (size (active_user_ids tasks) <= List.length tasks)%nat.
Proof.
  induction tasks as [| task tasks IH]; cbn [active_user_ids List.length].
  { rewrite size_empty. lia. }
  destruct (Task.user_id task) as [uid |]; [| lia].
  destruct (uid =? 0)%Z; [lia |].
  rewrite size_union_alt, size_singleton.
  assert (Hsub : active_user_ids tasks ∖ {[uid]} ⊆ active_user_ids tasks) by set_solver.
  apply subseteq_size in Hsub. lia.
Qed.

Lemma active_user_ids_spec tasks uid :
  uid ∈ active_user_ids tasks
  <-> uid <> 0%Z /\ exists task, In task tasks /\ Task.user_id task = Some uid.
Proof.
  induction tasks as [| task tasks IH]; simpl.
  - split; [set_solver | intros (_ & t & [] & _)].
  - destruct (Task.user_id task) as [u |] eqn:Eu.
    + destruct (Z.eqb_spec u 0) as [-> | Hne].
      * rewrite IH. split.
        -- intros (? & t & ? & ?). split; [done |]. exists t. auto.
        -- intros (? & t & [<- | ?] & Ht); [congruence |]. split; [done |]. by exists t.
      * rewrite elem_of_union, elem_of_singleton, IH. split.
        -- intros [-> | (? & t & ? & ?)].
           ++ split; [done |]. exists task. auto.
           ++ split; [done |]. exists t. auto.
        -- intros (? & t & [<- | ?] & Ht).
           ++ left. congruence.
           ++ right. split; [done |]. by exists t.
    + rewrite IH. split.
      * intros (? & t & ? & ?). split; [done |]. exists t. auto.
      * intros (? & t & [<- | ?] & Ht); [congruence |]. split; [done |]. by exists t.
Qed.

End MetricsFacts.

(** X8. The organization metrics agree with the counts of the same tasks:
    the throughput is the total, and the completion rate is computed from
    the same number of completed tasks (it is the zero rate when there is
    no task). The active users are the distinct user ids of the tasks that
    are neither null nor 0, so there are no more of them than tasks. *)
Theorem org_metrics_agree_with_counts `{Env} (now : Z) (tasks : list Task.t)
    (tz : ZoneInfo) (locale : string) :
  let m := _compute_org_metrics tasks tz locale in
  let c := _compute_counts now tasks in
  throughput m = total c
  /\ completion_rate m
     = (if (total c =? 0)%nat then float_zero
        else completion_rate_of (completed c) (total c))
  /\ active_users m = size (active_user_ids tasks)
  /\ (forall uid : Z,
        uid ∈ active_user_ids tasks
        <-> uid <> 0%Z /\ exists task, In task tasks /\ Task.user_id task = Some uid)
  /\ (active_users m <= throughput m)%nat.
Proof.
  cbv zeta. unfold _compute_org_metrics.
  destruct (metrics_fold_spec tz locale tasks (0%nat, 0%nat, ∅, ∅))
    as (H1 & H2 & H3 & _ & _).
  destruct (compute_counts_filter now tasks) as (-> & -> & _).
  destruct (fold_left _ tasks _) as [[[throughput completed] buckets] users].
  cbn [fst snd] in *. cbn.
  assert (users = active_user_ids tasks) as -> by set_solver.
  subst throughput completed. cbn.
  split; [done |]. split; [done |]. split; [done |].
  split; [intros uid; apply active_user_ids_spec |].
  pose proof (active_user_ids_size tasks). lia.
Qed.

(** ** The buckets of the overdue trend *)

Lemma string_compare_lt_trans (a b c : string) :
  String.compare a b = Lt -> String.compare b c = Lt -> String.compare a c = Lt.
Proof.
  revert b c. induction a as [| x a IH]; intros [| y b] [| z c]; simpl; try done.
  unfold Ascii.compare.
  destruct (N.compare_spec (N_of_ascii x) (N_of_ascii y)) as [Exy | Lxy | Gxy];
    destruct (N.compare_spec (N_of_ascii y) (N_of_ascii z)) as [Eyz | Lyz | Gyz];
    try done; intros Hab Hbc.
  - rewrite <- Exy in Eyz. rewrite (proj2 (N.compare_eq_iff _ _) Eyz). by apply (IH b c).
  - rewrite Exy. by rewrite (proj2 (N.compare_lt_iff _ _) Lyz).
  - rewrite <- Eyz. by rewrite (proj2 (N.compare_lt_iff _ _) Lxy).
  - assert (Hxz : (N_of_ascii x < N_of_ascii z)%N) by lia.
    by rewrite (proj2 (N.compare_lt_iff _ _) Hxz).
Qed.

Lemma string_ltb_trans a b c :
  String.ltb a b = true -> String.ltb b c = true -> String.ltb a c = true.
Proof.
  unfold String.ltb. intros Hab Hbc.
  destruct (String.compare a b) eqn:Eab; try done.
  destruct (String.compare b c) eqn:Ebc; try done.
  by rewrite (string_compare_lt_trans a b c).
Qed.

Lemma item_le_trans a b c : item_le a b = true -> item_le b c = true -> item_le a c = true.
Proof.
  unfold item_le. rewrite !orb_true_iff, !andb_true_iff.
  intros [Hab | [Eab Lab]] [Hbc | [Ebc Lbc]].
  - left. by apply (string_ltb_trans _ b.1).
  - left. apply String.eqb_eq in Ebc. by rewrite <- Ebc.
  - left. apply String.eqb_eq in Eab. by rewrite Eab.
  - right. apply String.eqb_eq in Eab, Ebc. rewrite Eab, Ebc, String.eqb_refl.
    split; [done |]. apply Nat.leb_le in Lab, Lbc. apply Nat.leb_le. lia.
Qed.

Lemma item_le_total a b : item_le a b = false -> item_le b a = true.
Proof.
  unfold item_le, String.ltb. rewrite orb_false_iff, andb_false_iff, orb_true_iff.
  intros [Hlt Hrest]. rewrite (String.compare_antisym b.1 a.1).
  destruct (String.compare a.1 b.1) eqn:Ec; simpl; try done.
  - apply String.compare_eq_iff in Ec. right. rewrite Ec, String.eqb_refl in *.
    destruct Hrest as [? | Hle]; [done |].
    apply Nat.leb_gt in Hle. simpl. apply Nat.leb_le. lia.
  - by left.
Qed.

Lemma item_le_distinct a b : a.1 <> b.1 -> item_le a b = true -> String.ltb a.1 b.1 = true.
Proof.
  unfold item_le. rewrite orb_true_iff, andb_true_iff.
  intros Hne [? | [He _]]; [done |]. apply String.eqb_eq in He. done.
Qed.

(** In a sorted list without two elements of the same key, the order of
    the keys is strict. *)
Lemma strongly_sorted_strict {A B} (key : A -> B) (R1 R2 : A -> A -> Prop) (l : list A) :
  (forall a b, key a <> key b -> R1 a b -> R2 a b) ->
  NoDup (List.map key l) ->
  StronglySorted R1 l -> StronglySorted R2 l.
Proof.
  intros Himp Hnd Hs. induction Hs as [| x l Hs IH Hall]; [constructor |].
  simpl in Hnd. apply NoDup_cons in Hnd as [Hx Hnd].
  constructor; [by apply IH |].
  apply List.Forall_forall. intros y Hy.
  apply Himp; [| by apply (proj1 (List.Forall_forall _ _) Hall)].
  intros Heq. apply Hx. rewrite Heq. apply list_elem_of_In, in_map, Hy.
Qed.

(** X9. The overdue trend has one point per period that holds a task: a
    point with a period and a count is in the trend exactly when the count
    is positive and is the number of tasks that are not completed and whose
    due time is formatted as that period; the points are in strictly
    ascending order of the period text. *)
Theorem overdue_trend_buckets `{Env} (tasks : list Task.t) (tz : ZoneInfo) (locale : string) :
  let trend := overdue_trend (_compute_org_metrics tasks tz locale) in
  (forall (label : string) (count : nat),
      In {| period := label; tp_overdue := count |} trend
      <-> (0 < count)%nat
          /\ count = List.length (List.filter (in_bucket tz locale label) tasks))
  /\ StronglySorted (fun a b => String.ltb (period a) (period b) = true) trend.
Proof.
  cbv zeta. unfold _compute_org_metrics.
  destruct (metrics_fold_spec tz locale tasks (0%nat, 0%nat, ∅, ∅))
    as (_ & _ & _ & Hcount & Hpos).
  destruct (fold_left _ tasks _) as [[[throughput completed] buckets] users].
  cbn [fst snd overdue_trend] in *.
  assert (Hpos' : forall label n, buckets !! label = Some n -> (0 < n)%nat).
  { apply Hpos. intros label n. by rewrite lookup_empty. }
  assert (Hcount' : forall label,
             default 0%nat (buckets !! label)
             = List.length (List.filter (in_bucket tz locale label) tasks)).
  { intros label. rewrite Hcount, lookup_empty. simpl. lia. }
  split.
  - intros label count. rewrite in_map_iff. split.
    + intros ([l n] & [= -> ->] & Hin).
      apply sorted_by_In, list_elem_of_In, elem_of_map_to_list in Hin.
      split; [by apply (Hpos' label) |].
      rewrite <- Hcount', Hin. done.
    + intros [Hc ->]. exists (label, List.length (List.filter (in_bucket tz locale label) tasks)).
      split; [done |].
      apply sorted_by_In, list_elem_of_In, elem_of_map_to_list.
      specialize (Hcount' label).
      destruct (buckets !! label) as [n |]; simpl in Hcount'; [by rewrite Hcount' | lia].
  - change (List.map (fun item : string * nat => {| period := item.1; tp_overdue := item.2 |})
                     (sorted_by item_le (map_to_list buckets)))
      with ((fun item : string * nat => {| period := item.1; tp_overdue := item.2 |})
              <$> sorted_by item_le (map_to_list buckets)).
    apply (StronglySorted_fmap _ (fun a b : string * nat => String.ltb a.1 b.1 = true));
      [done |].
    apply (strongly_sorted_strict fst (fun a b => item_le a b = true)).
    + apply item_le_distinct.
    + assert (Hperm : Permutation (List.map fst (sorted_by item_le (map_to_list buckets)))
                                  (List.map fst (map_to_list buckets)))
        by apply Permutation_map, sorted_by_perm.
      rewrite Hperm. apply (NoDup_fst_map_to_list buckets).
    + apply (sorted_by_strongly _ (fun _ => True)).
      * intros a b c _ _ _. apply item_le_trans.
      * intros a b _ _. apply item_le_total.
      * by apply List.Forall_forall.
Qed.

(** ** The response of the orchestrator *)

Section Response.
Context `{Env} `{!Exporter}.

Local Arguments _format_user_summary : simpl never.
Local Arguments _format_org_summary : simpl never.
Local Arguments _calculate_window : simpl never.
Local Arguments _fetch_tasks : simpl never.
Local Arguments _compute_counts : simpl never.
Local Arguments _compute_org_metrics : simpl never.
Local Arguments _select_next_tasks : simpl never.
Local Arguments _select_overdue_tasks : simpl never.
Local Arguments _resolve_timezone : simpl never.
Local Arguments normalize_locale : simpl never.

Lemma select_next_tasks_length tasks tz limit :
  (List.length (_select_next_tasks tasks tz limit) <= limit)%nat.
Proof.
  unfold _select_next_tasks. rewrite length_map, length_take. lia.
Qed.

Lemma select_overdue_tasks_length now tasks tz limit :
  (List.length (_select_overdue_tasks now tasks tz limit) <= limit)%nat.
Proof.
  unfold _select_overdue_tasks. rewrite length_map, length_take. lia.
Qed.

Lemma org_metrics_throughput now tasks tz locale :
  throughput (_compute_org_metrics tasks tz locale) = total (_compute_counts now tasks).
Proof.
  unfold _compute_org_metrics.
  destruct (metrics_fold_spec tz locale tasks (0%nat, 0%nat, ∅, ∅)) as (H1 & _).
  destruct (compute_counts_filter now tasks) as (-> & _).
  destruct (fold_left _ tasks _) as [[[throughput completed] buckets] users].
  cbn [fst snd] in *. cbn. lia.
Qed.


End Response.

(** ** The report routes *)

Section Routes.
Context `{Env} `{!Exporter}.

Local Arguments generate : simpl never.

Lemma has_org_privilege_spec p organization_id required :
  has_org_privilege p organization_id required = true
  <-> is_system_admin p = true
      \/ exists held,
           List.find (fun kv => (fst kv =? organization_id)%Z) (_org_roles p)
           = Some (organization_id, held)
           /\ (_rank required <= _rank held)%Z.
Proof.
  unfold has_org_privilege, _role_satisfies.
  destruct (is_system_admin p); [split; [by left | done] |].
  destruct (List.find _ _) as [[k held] |] eqn:Hfind.
  - apply List.find_some in Hfind as Hk. destruct Hk as [_ Hk]. simpl in Hk.
    apply Z.eqb_eq in Hk. subst k. rewrite Z.leb_le. split.
    + intros Hle. right. by exists held.
    + intros [? | (held' & Heq & Hle)]; [done |]. by inversion Heq; subst.
  - split; [done |]. intros [? | (held' & Heq & _)]; done.
Qed.

Lemma privileged_has_any_role p organization_id required :
  has_org_privilege p organization_id required = true ->
  has_any_role p [SYSTEM_ADMIN; ORG_ADMIN; TEAM_MANAGER; MEMBER] = true.
Proof.
  intros Hp. apply has_org_privilege_spec in Hp as [Hadmin | (held & Hfind & _)].
  - cbn. by rewrite Hadmin.
  - apply List.find_some in Hfind as [Hin _].
    assert (Hex : existsb (fun kv : Z * Role => _role_satisfies (snd kv) MEMBER) (_org_roles p)
                  = true).
    { apply existsb_exists. exists (organization_id, held). split; [done |].
      by destruct held. }
    cbn. rewrite Hex. by rewrite !orb_true_r.
Qed.

Lemma generate_scope_and_file session now payload principal :
  let export_format :=
    match _determine_scope payload with USER => PDF | _ => CSV end in
  match generate session now payload principal with
  | Ok response =>
      resp_report_type response = report_type payload
      /\ scope response = _determine_scope payload
      /\ (file_url response = None <-> req_format payload <> export_format)
  | Raise _ => req_format payload = export_format
  end.
Proof.
  unfold generate.
  destruct (_calculate_window _ _ _ _) as [[window_start window_end] anchor].
  destruct (_determine_scope payload), (req_format payload); cbn [bind];
    try match goal with
        | |- context [_render_user_pdf ?a ?b ?c ?d ?e ?f ?g ?h ?i] =>
            destruct (_render_user_pdf a b c d e f g h i); cbn [bind]
        | |- context [_render_org_csv ?a ?b ?c ?d ?e ?f ?g] =>
            destruct (_render_org_csv a b c d e f g); cbn [bind]
        end;
    try reflexivity;
    cbn [resp_report_type scope file_url];
    (split; [reflexivity |]; split; [reflexivity |]; split; congruence).
Qed.

Lemma generate_text_returns session now payload principal :
  req_format payload = TEXT ->
  exists response, generate session now payload principal = Ok response.
Proof.
  intros Hformat. pose proof (generate_scope_and_file session now payload principal) as Hg.
  destruct (generate session now payload principal) as [response | e]; [by exists response |].
  cbv zeta in Hg. rewrite Hformat in Hg. by destruct (_determine_scope payload).
Qed.

Lemma report_route_eq report_type session now principal report_date timezone
    organization_id locale format :
  report_route report_type session now principal report_date timezone
    organization_id locale format
  = if has_any_role principal [SYSTEM_ADMIN; ORG_ADMIN; TEAM_MANAGER; MEMBER]
    then match format with
         | CSV => Raise (HTTPException 400 "error_unsupported_format")
         | TEXT | PDF =>
             _generate_user_report session now principal report_type organization_id
               report_date timezone locale format
         end
    else Raise (HTTPException 403 "error_forbidden").
Proof.
  unfold report_route, require_any_role. by destruct (has_any_role principal _).
Qed.

Lemma report_route_spec report_type session now principal report_date timezone
    organization_id locale format :
  let outcome :=
    report_route report_type session now principal report_date timezone
      organization_id locale format in
  let allowed :=
    has_any_role principal [SYSTEM_ADMIN; ORG_ADMIN; TEAM_MANAGER; MEMBER] in
  match organization_id with
  | Some org =>
      ((exists response, outcome = Ok response)
       <-> has_org_privilege principal org TEAM_MANAGER = true /\ format <> CSV)
      /\ (forall response, outcome = Ok response ->
            resp_report_type response = report_type
            /\ scope response = ORGANIZATION /\ file_url response = None)
      /\ (has_org_privilege principal org TEAM_MANAGER = false -> format <> CSV ->
          outcome = Raise (HTTPException 403 "error_forbidden"))
  | None =>
      (forall response, outcome = Ok response ->
         allowed = true /\ principal_user_id principal <> None /\ format <> CSV
         /\ resp_report_type response = report_type
         /\ scope response = USER
         /\ (file_url response = None <-> format <> PDF))
      /\ (allowed = true -> principal_user_id principal <> None -> format = TEXT ->
          exists response, outcome = Ok response)
      /\ (allowed = false -> outcome = Raise (HTTPException 403 "error_forbidden"))
  end.
Proof.
  cbv zeta. rewrite report_route_eq. unfold _generate_user_report.
  destruct organization_id as [org |].
  - assert (Hguard : negb (has_org_privilege principal org TEAM_MANAGER)
                     && negb (is_system_admin principal)
                     = negb (has_org_privilege principal org TEAM_MANAGER)).
    { unfold has_org_privilege.
      destruct (is_system_admin principal); [done | apply andb_true_r]. }
    rewrite !Hguard. clear Hguard.
    destruct (has_org_privilege principal org TEAM_MANAGER) eqn:Hpriv.
    + rewrite (privileged_has_any_role _ _ _ Hpriv). cbn [bind negb is_not_none andb].
      destruct format.
      * match goal with
        | |- context [generate ?s ?n ?payload ?p] =>
            pose proof (generate_scope_and_file s n payload p) as Hshape;
            destruct (generate_text_returns s n payload p eq_refl) as [response Hgen]
        end.
        rewrite Hgen in Hshape |- *. destruct Hshape as (Htype & Hscope & Hfile).
        split; [split; [done | by exists response] |].
        split; [| done]. intros r [= <-]. split; [done |]. split; [done |]. by apply Hfile.
      * match goal with
        | |- context [generate ?s ?n ?payload ?p] =>
            pose proof (generate_scope_and_file s n payload p) as Hshape;
            destruct (generate s n payload p) as [response | e] eqn:Hgen
        end; [| done].
        destruct Hshape as (Htype & Hscope & Hfile).
        split; [split; [done | by exists response] |].
        split; [| done]. intros r [= <-]. split; [done |]. split; [done |]. by apply Hfile.
      * split; [split; [by intros [] | by intros []] |]. done.
    + split; [| split].
      * split; [| by intros []]. intros [response Hr]. exfalso.
        destruct (has_any_role principal _); cbn [bind] in Hr; [| done].
        by destruct format.
      * intros response Hr. exfalso.
        destruct (has_any_role principal _); cbn [bind] in Hr; [| done].
        by destruct format.
      * intros _ Hformat.
        destruct (has_any_role principal _); cbn [bind]; [| done].
        by destruct format.
  - destruct (has_any_role principal _); cbn [bind]; [| done].
    split; [| split; [| done]].
    + intros response Hr.
      destruct (principal_user_id principal) as [uid |]; cbn in Hr;
        [| by destruct format].
      destruct format; try done;
        match type of Hr with
        | generate ?s ?n ?payload ?p = _ =>
            pose proof (generate_scope_and_file s n payload p) as Hshape
        end;
        rewrite Hr in Hshape; destruct Hshape as (Htype & Hscope & Hfile); done.
    + intros _ Huid ->.
      destruct (principal_user_id principal) as [uid |]; [| done]. cbn.
      by apply generate_text_returns.
Qed.


(** X12.  The privilege order of [Principal.has_org_privilege].  A system
    administrator has every privilege in every organization; anyone else
    has a privilege exactly when the role they hold in that organization
    ranks at least as high as the required one, so a privilege implies
    every lower one, and no role in the organization means no privilege,
    whatever is held elsewhere. *)
Theorem has_org_privilege_order (p : Principal) (organization_id : Z) :
  (is_system_admin p = true ->
   forall required, has_org_privilege p organization_id required = true)
  /\ (is_system_admin p = false ->
      forall required,
        has_org_privilege p organization_id required = true
        <-> exists held,
              List.find (fun kv => (fst kv =? organization_id)%Z) (_org_roles p)
              = Some (organization_id, held)
              /\ (_rank required <= _rank held)%Z)
  /\ (forall required lower,
        (_rank lower <= _rank required)%Z ->
        has_org_privilege p organization_id required = true ->
        has_org_privilege p organization_id lower = true)
  /\ (is_system_admin p = false ->
      (forall kv, In kv (_org_roles p) -> fst kv <> organization_id) ->
      forall required, has_org_privilege p organization_id required = false).
Proof.
  split; [| split; [| split]].
  - intros Hadmin required. apply has_org_privilege_spec. by left.
  - intros Hadmin required. rewrite has_org_privilege_spec, Hadmin. split.
    + by intros [? | ?].
    + by right.
  - intros required lower Hle. rewrite !has_org_privilege_spec.
    intros [? | (held & Hfind & Hheld)]; [by left |].
    right. exists held. split; [done | lia].
  - intros Hadmin Hnone required. apply not_true_is_false.
    rewrite has_org_privilege_spec, Hadmin.
    intros [? | (held & Hfind & _)]; [done |].
    apply List.find_some in Hfind as [Hin _]. by apply (Hnone _ Hin).
Qed.

End Routes.

(** ** What a dispatch run leaves in the table *)

Lemma NoDup_map_In_inj {A B} (f : A -> B) (l : list A) (x y : A) :
  NoDup (List.map f l) -> In x l -> In y l -> f x = f y -> x = y.
Proof.
  induction l as [| a l IH]; simpl; [done |].
  intros Hnd Hx Hy Hf. apply NoDup_cons in Hnd as [Ha Hnd].
  destruct Hx as [-> | Hx], Hy as [-> | Hy]; try done.
  - exfalso. apply Ha. rewrite Hf. apply list_elem_of_In, in_map_iff. by exists y.
  - exfalso. apply Ha. rewrite <- Hf. apply list_elem_of_In, in_map_iff. by exists x.
  - by apply IH.
Qed.

Lemma NoDup_map_filter {A B} (f : A -> B) (p : A -> bool) (l : list A) :
  NoDup (List.map f l) -> NoDup (List.map f (List.filter p l)).
Proof.
  induction l as [| a l IH]; simpl; [done |].
  intros Hnd. apply NoDup_cons in Hnd as [Ha Hnd].
  destruct (p a); simpl; [| by apply IH].
  apply NoDup_cons. split; [| by apply IH].
  intros Hin. apply Ha. apply list_elem_of_In, in_map_iff in Hin as (x & Hx & Hin).
  apply List.filter_In in Hin as [Hin _].
  apply list_elem_of_In, in_map_iff. by exists x.
Qed.

Lemma NoDup_map_take {A B} (f : A -> B) (n : nat) (l : list A) :
  NoDup (List.map f l) -> NoDup (List.map f (take n l)).
Proof.
  revert n. induction l as [| a l IH]; intros [| n]; simpl; try done; [constructor |].
  intros Hnd. apply NoDup_cons in Hnd as [Ha Hnd].
  apply NoDup_cons. split; [| by apply IH].
  intros Hin. apply Ha. apply list_elem_of_In, in_map_iff in Hin as (x & Hx & Hin).
  apply list_elem_of_In, in_map_iff. exists x. split; [done |]. by apply (In_take n).
Qed.

Lemma Forall2_map_diag {A} (R : A -> A -> Prop) (g : A -> A) (l : list A) :
  (forall x, In x l -> R x (g x)) -> Forall2 R l (List.map g l).
Proof.
  induction l as [| a l IH]; intros Hall; simpl; constructor.
  - apply Hall. by left.
  - apply IH. intros x Hx. apply Hall. by right.
Qed.

Lemma Forall2_In_r {A B} (R : A -> B -> Prop) (l : list A) (k : list B) (y : B) :
  Forall2 R l k -> In y k -> exists x, In x l /\ R x y.
Proof.
  induction 1 as [| x y' l k Hxy Hall IH]; simpl; [done |].
  intros [<- | Hin].
  - exists x. split; [by left | done].
  - destruct (IH Hin) as (x' & Hx' & HR). exists x'. split; [by right | done].
Qed.

Section DispatchRows.
Context `{Env} `{Adapter}.

Lemma after_outcome_id r o : Reminder.id (after_outcome r o) = Reminder.id r.
Proof. by destruct o. Qed.

Lemma failed_ids_subset batch results rid :
  In rid (failed_ids batch results) -> In rid (List.map Reminder.id batch).
Proof.
  revert results. induction batch as [| r batch IH]; intros [| o results]; simpl; try done.
  destruct o; simpl; intros Hin; try (right; by apply (IH results)).
  destruct Hin as [<- | Hin]; [by left | right; by apply (IH results)].
Qed.

Lemma due_batch_ids session now limit :
  unique_ids session ->
  NoDup (List.map Reminder.id (get_due_reminders session now limit)).
Proof.
  intros Hnd. unfold get_due_reminders. apply NoDup_map_take.
  set (due := List.filter _ _).
  assert (Hperm : Permutation
                    (List.map Reminder.id
                       (sorted_by (fun a b => (Reminder.remind_at a <=? Reminder.remind_at b)%Z)
                                  due))
                    (List.map Reminder.id due))
    by apply Permutation_map, sorted_by_perm.
  rewrite Hperm. by apply NoDup_map_filter.
Qed.

Lemma visited_find batch results row :
  List.length results = List.length batch ->
  NoDup (List.map Reminder.id batch) ->
  In row batch ->
  let found :=
    List.find (fun o => (Reminder.id o =? Reminder.id row)%Z)
              (zip_with after_outcome batch results) in
  (found = Some row /\ In (Reminder.id row) (failed_ids batch results))
  \/ (found = Some (Reminder.set_sent row)
      /\ ~ In (Reminder.id row) (failed_ids batch results)).
Proof.
  cbv zeta. revert results.
  induction batch as [| r batch IH]; intros [| o results] Hlen Hnd Hin; try done.
  simpl in Hlen. injection Hlen as Hlen.
  cbn [List.map] in Hnd. apply NoDup_cons in Hnd as [Hr Hnd].
  cbn [zip_with List.find]. rewrite after_outcome_id.
  destruct Hin as [-> | Hin].
  - rewrite Z.eqb_refl.
    assert (Hrest : ~ In (Reminder.id row) (failed_ids batch results)).
    { intros Hf. apply Hr, list_elem_of_In. by apply (failed_ids_subset _ results). }
    destruct o; cbn; [right | right | left]; try done.
    split; [done | by left].
  - assert (Hne : (Reminder.id r =? Reminder.id row)%Z = false).
    { apply Z.eqb_neq. intros Heq. apply Hr. rewrite Heq.
      apply list_elem_of_In, in_map_iff. by exists row. }
    rewrite Hne. apply Z.eqb_neq in Hne.
    destruct (IH results Hlen Hnd Hin) as [[Hfound Hfailed] | [Hfound Hfailed]].
    + left. split; [done |]. destruct o; cbn; try done. by right.
    + right. split; [done |]. destruct o; cbn; try done. by intros [? | ?].
Qed.

Lemma visited_find_none batch results row :
  ~ In (Reminder.id row) (List.map Reminder.id batch) ->
  List.find (fun o => (Reminder.id o =? Reminder.id row)%Z)
            (zip_with after_outcome batch results) = None.
Proof.
  revert results. induction batch as [| r batch IH]; intros [| o results] Hnot; try done.
  cbn [zip_with List.find]. rewrite after_outcome_id.
  destruct (Z.eqb_spec (Reminder.id r) (Reminder.id row)) as [Heq | Hne].
  - exfalso. apply Hnot. by left.
  - apply IH. intros Hin. apply Hnot. by right.
Qed.

(** A row after the commit of a run whose loop visited [batch] with the
    outcomes [results]. *)
Lemma flush_row session batch results row :
  unique_ids session ->
  List.length results = List.length batch ->
  NoDup (List.map Reminder.id batch) ->
  Forall (fun r => Reminder.sent r = false /\ In r (reminders session)) batch ->
  In row (reminders session) ->
  let row' :=
    match List.find (fun o => (Reminder.id o =? Reminder.id row)%Z)
                    (zip_with after_outcome batch results) with
    | Some o => o
    | None => row
    end in
  (row' = row \/ row' = Reminder.set_sent row)
  /\ (Reminder.sent row' = true
      <-> Reminder.sent row = true
          \/ (In row batch /\ ~ In (Reminder.id row) (failed_ids batch results))).
Proof.
  intros Hids Hlen Hnd Hbatch Hrow. cbv zeta.
  destruct (in_dec Z.eq_dec (Reminder.id row) (List.map Reminder.id batch)) as [Hin | Hnot].
  - apply in_map_iff in Hin as (r & Hid & Hin).
    assert (r = row) as ->.
    { apply (NoDup_map_In_inj Reminder.id (reminders session)); try done.
      by apply (proj1 (List.Forall_forall _ _) Hbatch r Hin). }
    assert (Hunsent : Reminder.sent row = false)
      by apply (proj1 (List.Forall_forall _ _) Hbatch row Hin).
    destruct (visited_find batch results row Hlen Hnd Hin)
      as [[-> Hfailed] | [-> Hfailed]].
    + split; [by left |]. rewrite Hunsent. split; [done |].
      intros [? | [_ Hn]]; [done | by destruct Hn].
    + split; [by right |]. cbn. split; [| done]. intros _. by right.
  - rewrite (visited_find_none batch results row Hnot).
    split; [by left |]. split; [by left |].
    intros [? | [Hin _]]; [done |]. exfalso. apply Hnot, in_map_iff. by exists row.
Qed.

Lemma dispatch_rows session a now batch_size :
  unique_ids session ->
  let batch := get_due_reminders session now batch_size in
  let run := dispatch_due_reminders session a now true batch_size in
  users run.1.1 = users session /\ tasks run.1.1 = tasks session
  /\ Forall2 (fun row row' =>
                (row' = row \/ row' = Reminder.set_sent row)
                /\ (Reminder.sent row' = true
                    <-> Reminder.sent row = true
                        \/ (In row batch
                            /\ ~ In (Reminder.id row) (delivery_failed run.2))))
             (reminders session) (reminders run.1.1).
Proof.
  intros Hids. cbv zeta. unfold dispatch_due_reminders.
  pose proof (due_batch_ids session now batch_size Hids) as Hnd.
  pose proof (get_due_reminders_unsent session now batch_size) as Hdue.
  pose proof (dispatch_fold session (get_due_reminders session now batch_size)
                {| adapter := a; visited := []; processed := 0; delivery_failed := [] |})
    as (Hv & _ & Hf).
  cbn [adapter visited processed delivery_failed app] in Hv, Hf.
  fold (dispatch_loop session a (get_due_reminders session now batch_size)) in Hv, Hf.
  destruct (get_due_reminders session now batch_size) as [| r batch] eqn:Eb.
  - cbn [fst snd delivery_failed]. split; [done |]. split; [done |].
    rewrite <- (map_id (reminders session)) at 2. apply Forall2_map_diag.
    intros row _. split; [by left |]. split; [by left |]. by intros [? | [[] _]].
  - cbn [fst snd]. split; [done |]. split; [done |].
    rewrite Hv, Hf. cbn [flush reminders].
    apply Forall2_map_diag. intros row Hrow.
    apply (flush_row session); try done.
    + apply outcomes_length.
    + eapply Forall_impl; [apply Hdue |]. by intros x (? & _ & ?).
Qed.


End DispatchRows.


(** ** Scheduling and the reminder table *)

Section SchedulingRows.
Context `{Env}.

Lemma schedule_cases session task_id when :
  let out := schedule session task_id when in
  (scheduled session task_id when /\ out.1 = session)
  \/ (~ scheduled session task_id when
      /\ out.2 = Reminder.mk (next_reminder_id session) task_id when false
      /\ reminders out.1 = reminders session ++ [out.2]
      /\ next_reminder_id out.1 = (next_reminder_id session + 1)%Z
      /\ users out.1 = users session /\ tasks out.1 = tasks session).
Proof.
  cbv zeta. unfold schedule.
  destruct (List.find _ (reminders session)) as [found |] eqn:Ef.
  - left. apply List.find_some in Ef as [Hin Hm].
    apply andb_true_iff in Hm as [Ht Hw]. apply Z.eqb_eq in Ht, Hw.
    split; [by exists found | done].
  - right. cbn. split; [| done].
    intros (r & Hin & Ht & Hw). apply (List.find_none _ _ Ef) in Hin.
    rewrite Ht, Hw, !Z.eqb_refl in Hin. done.
Qed.

Lemma schedule_table session task_id when :
  let out := schedule session task_id when in
  (exists added,
      reminders out.1 = reminders session ++ added
      /\ (added = [] <-> scheduled session task_id when)
      /\ (added = []
          \/ added = [Reminder.mk (next_reminder_id session) task_id when false]
             /\ out.2 = Reminder.mk (next_reminder_id session) task_id when false))
  /\ In out.2 (reminders out.1)
  /\ slot out.2 = (task_id, when)
  /\ users out.1 = users session /\ tasks out.1 = tasks session
  /\ (unique_slots session -> unique_slots out.1)
  /\ (ids_below_next session ->
      ids_below_next out.1 /\ (unique_ids session -> unique_ids out.1)).
Proof.
  cbv zeta. pose proof (schedule_spec session task_id when) as Hspec.
  destruct (schedule_cases session task_id when)
    as [[Hs Hout] | (Hs & Hr & Hrows & Hnext & Hu & Ht)];
    destruct (schedule session task_id when) as [session' reminder];
    cbn [fst snd] in *; destruct Hspec as (_ & Hin & Htask & Hwhen).
  - subst session'. split.
    { exists []. rewrite app_nil_r. split; [done |]. split; [done | by left]. }
    split; [done |]. split; [unfold slot; congruence |]. done.
  - split.
    { exists [reminder]. split; [done |]. split; [split; [done | by intros ?] |].
      right. by rewrite Hr. }
    split; [done |]. split; [unfold slot; congruence |].
    split; [done |]. split; [done |]. split.
    + unfold unique_slots. rewrite Hrows, Hr. intros Hnd.
      rewrite List.map_app. apply NoDup_app. split; [done |].
      split; [| apply NoDup_singleton].
      intros x Hx Hx'. cbn in Hx'. apply list_elem_of_singleton in Hx'. subst x.
      apply list_elem_of_In, in_map_iff in Hx as (r & Hslot & Hr').
      apply Hs. exists r. unfold slot in Hslot. cbn in Hslot. by inversion Hslot.
    + unfold ids_below_next, unique_ids. rewrite Hrows, Hnext, Hr. intros Hbelow. split.
      * apply Forall_app. split.
        -- eapply Forall_impl; [exact Hbelow |]. intros r ?. cbv beta in *. lia.
        -- constructor; [cbn; lia | constructor].
      * intros Hnd. rewrite List.map_app. apply NoDup_app. split; [done |].
        split; [| apply NoDup_singleton].
        intros x Hx Hx'. cbn in Hx'. apply list_elem_of_singleton in Hx'. subst x.
        apply list_elem_of_In, in_map_iff in Hx as (r & Hid & Hr').
        apply (proj1 (List.Forall_forall _ _) Hbelow) in Hr'. lia.
Qed.

Lemma schedule_loop_table task_id times session acc :
  let out := fold_left (schedule_step task_id) times (session, acc) in
  (exists added found,
      reminders out.1 = reminders session ++ added
      /\ out.2 = acc ++ found
      /\ List.map slot found = List.map (fun t => (task_id, t)) times
      /\ Forall (fun r => In r (reminders out.1)) found
      /\ Forall (fun r => Reminder.task_id r = task_id /\ Reminder.sent r = false
                          /\ In (Reminder.remind_at r) times) added
      /\ (List.length added <= List.length times)%nat)
  /\ users out.1 = users session /\ tasks out.1 = tasks session
  /\ (unique_slots session -> unique_slots out.1)
  /\ (ids_below_next session -> unique_ids session ->
      ids_below_next out.1 /\ unique_ids out.1).
Proof.
  cbv zeta. revert session acc.
  induction times as [| t times IH]; intros session acc.
  - cbn. split; [| done]. exists [], []. rewrite !app_nil_r. repeat split; constructor.
  - cbn [fold_left].
    assert (Hunfold : schedule_step task_id (session, acc) t
                      = ((schedule session task_id t).1,
                         acc ++ [(schedule session task_id t).2]))
      by (unfold schedule_step; by destruct (schedule session task_id t)).
    rewrite Hunfold. clear Hunfold.
    pose proof (schedule_table session task_id t) as Hstep. cbv zeta in Hstep.
    destruct (schedule session task_id t) as [s1 r1]. cbn [fst snd] in Hstep |- *.
    destruct Hstep as ((added1 & Hrows1 & _ & Hadded1) & Hin1 & Hslot1 & Hu1 & Ht1
                       & Hslots1 & Hids1).
    destruct (IH s1 (acc ++ [r1]))
      as ((added2 & found2 & Hrows2 & Hout2 & Hslots & Hfound & Hadded2 & Hlen2)
          & Hu2 & Ht2 & Hslots2 & Hids2).
    split; [| split; [congruence | split; [congruence | split]]].
    + exists (added1 ++ added2), (r1 :: found2).
      split; [by rewrite Hrows2, Hrows1, <- app_assoc |].
      split; [by rewrite Hout2, <- app_assoc |].
      split; [cbn; by rewrite Hslot1, Hslots |].
      split.
      { constructor; [| done]. rewrite Hrows2. apply in_app_iff. by left. }
      split.
      { apply Forall_app. split.
        - destruct Hadded1 as [-> | [-> _]]; constructor; [| constructor].
          cbn. split; [done |]. split; [done | by left].
        - eapply Forall_impl; [exact Hadded2 |].
          intros r (? & ? & ?). split; [done |]. split; [done | by right]. }
      rewrite length_app. cbn [List.length].
      destruct Hadded1 as [-> | [-> _]]; cbn; lia.
    + intros Hs. by apply Hslots2, Hslots1.
    + intros Hbelow Hnd. destruct (Hids1 Hbelow) as [Hbelow1 Hnd1].
      apply Hids2; [done | by apply Hnd1].
Qed.

(** X14.  [ReminderService.schedule] and the loop of
    [schedule_default_reminders] only ever append to the reminder table.
    [schedule] appends nothing when the task already has a reminder at the
    instant and otherwise one unsent reminder with the next id; the
    reminder it returns is stored and stands for that task and instant.
    [schedule_default_reminders] returns one stored reminder per computed
    time, in the order of the times; what it appends are unsent reminders
    of the task at computed times, at most one per time.  Neither touches
    users or tasks, creates a second reminder for a task and instant, or
    reuses an id. *)
Theorem schedule_appends_only :
  (forall session task_id when,
      let out := schedule session task_id when in
      (exists added,
          reminders out.1 = reminders session ++ added
          /\ (added = [] <-> scheduled session task_id when)
          /\ (added = []
              \/ added = [Reminder.mk (next_reminder_id session) task_id when false]
                 /\ out.2 = Reminder.mk (next_reminder_id session) task_id when false))
      /\ In out.2 (reminders out.1)
      /\ slot out.2 = (task_id, when)
      /\ users out.1 = users session /\ tasks out.1 = tasks session
      /\ (unique_slots session -> unique_slots out.1)
      /\ (ids_below_next session ->
          ids_below_next out.1 /\ (unique_ids session -> unique_ids out.1)))
  /\ (forall session now task user,
        match schedule_default_reminders session now task user with
        | Ok out =>
            exists times,
              compute_default_times now (Task.due_at task) user = Ok times
              /\ List.map slot out.2 = List.map (fun t => (Task.id task, t)) times
              /\ Forall (fun r => In r (reminders out.1)) out.2
              /\ (exists added,
                     reminders out.1 = reminders session ++ added
                     /\ Forall (fun r => Reminder.task_id r = Task.id task
                                         /\ Reminder.sent r = false
                                         /\ In (Reminder.remind_at r) times
                                         /\ (now < Reminder.remind_at r)%Z) added
                     /\ (List.length added <= List.length times)%nat)
              /\ users out.1 = users session /\ tasks out.1 = tasks session
              /\ (unique_slots session -> unique_slots out.1)
              /\ (ids_below_next session -> unique_ids session ->
                  ids_below_next out.1 /\ unique_ids out.1)
        | Raise e => compute_default_times now (Task.due_at task) user = Raise e
        end).
Proof.
  split; [apply schedule_table |].
  intros session now task user. rewrite schedule_default_reminders_fold.
  destruct (compute_default_times now (Task.due_at task) user) as [times | e] eqn:Etimes;
    cbn [bind]; [| done].
  pose proof (default_times_all_after _ _ _ _ Etimes) as Hafter.
  destruct (schedule_loop_table (Task.id task) times session [])
    as ((added & found & Hrows & Hout & Hslots & Hfound & Hadded & Hlen)
        & Hu & Ht & Hs & Hids).
  exists times. split; [done |]. rewrite Hout. cbn [app].
  split; [done |]. split; [done |]. split; [| done].
  exists added. split; [done |]. split; [| done].
  eapply Forall_impl; [exact Hadded |]. intros r (? & ? & Hin).
  split; [done |]. split; [done |]. split; [done |].
  by apply (proj1 (List.Forall_forall _ _) Hafter).
Qed.

End SchedulingRows.

(** ** Cancelling and marking *)

Lemma filter_all_true {A} (p : A -> bool) (l : list A) :
  (forall x, In x l -> p x = true) -> List.filter p l = l.
Proof.
  induction l as [| a l IH]; intros Hall; simpl; [done |].
  rewrite (Hall a (or_introl eq_refl)). f_equal. apply IH. intros x Hx. apply Hall. by right.
Qed.

Lemma map_all_same {A} (g : A -> A) (l : list A) :
  (forall x, In x l -> g x = x) -> List.map g l = l.
Proof.
  induction l as [| a l IH]; intros Hall; simpl; [done |].
  rewrite (Hall a (or_introl eq_refl)). f_equal. apply IH. intros x Hx. apply Hall. by right.
Qed.

Lemma filter_length_lt {A} (p : A -> bool) (l : list A) (x : A) :
  In x l -> p x = false -> (List.length (List.filter p l) < List.length l)%nat.
Proof.
  induction l as [| a l IH]; simpl; [done |].
  intros [-> | Hin] Hp.
  - rewrite Hp. pose proof (List.filter_length_le p l). lia.
  - specialize (IH Hin Hp). destruct (p a); simpl; lia.
Qed.

Section CancelAndMark.
Context `{Env}.

Lemma cancel_In session rid r :
  In r (reminders (cancel session rid)) <-> In r (reminders session) /\ Reminder.id r <> rid.
Proof.
  unfold cancel. cbn [reminders]. rewrite List.filter_In, negb_true_iff, Z.eqb_neq. done.
Qed.

Lemma get_due_reminders_In session now limit r :
  In r (get_due_reminders session now limit) ->
  In r (reminders session) /\ still_due now r.
Proof.
  intros Hr.
  pose proof (proj1 (List.Forall_forall _ _) (get_due_reminders_unsent session now limit) r Hr)
    as (? & ? & ?).
  done.
Qed.

Lemma get_due_reminders_all session now r :
  In r (reminders session) -> still_due now r ->
  In r (get_due_reminders session now (List.length (reminders session))).
Proof.
  intros Hin [Hunsent Hle]. unfold get_due_reminders.
  rewrite take_ge.
  - apply (proj2 (sorted_by_In _ _ r)). apply List.filter_In. split; [done |].
    rewrite Hunsent. cbn. by apply Z.leb_le.
  - rewrite sorted_by_length. apply List.filter_length_le.
Qed.

(** X15.  [ReminderService.cancel] deletes the reminders of the given id
    and nothing else: what stays are the other rows, users, tasks and the
    id counter; cancelling an id that is not stored, or cancelling twice,
    changes nothing more, and no later fetch returns a reminder of that
    id.  Scheduling a new reminder and cancelling the returned one
    restores the table, but the id is spent: the counter stays advanced.
    When the instant was already scheduled, cancelling what [schedule]
    returned removes a reminder that was there before, and the task is
    left without a reminder at that instant. *)
Theorem cancel_spec session rid :
  let session' := cancel session rid in
  (forall r, In r (reminders session')
             <-> In r (reminders session) /\ Reminder.id r <> rid)
  /\ users session' = users session /\ tasks session' = tasks session
  /\ next_reminder_id session' = next_reminder_id session
  /\ (~ In rid (List.map Reminder.id (reminders session)) -> session' = session)
  /\ cancel session' rid = session'
  /\ (forall now limit,
        Forall (fun r => Reminder.id r <> rid /\ In r (reminders session))
               (get_due_reminders session' now limit))
  /\ (forall task_id when,
        let out := schedule session task_id when in
        let after := cancel out.1 (Reminder.id out.2) in
        (ids_below_next session -> ~ scheduled session task_id when ->
         reminders after = reminders session
         /\ next_reminder_id after = (next_reminder_id session + 1)%Z)
        /\ (unique_slots session -> scheduled session task_id when ->
            (List.length (reminders after) < List.length (reminders session))%nat
            /\ ~ scheduled after task_id when)).
Proof.
  cbv zeta. split; [apply cancel_In |].
  split; [done |]. split; [done |]. split; [done |]. split; [| split; [| split]].
  - intros Hnot. destruct session. unfold cancel. cbn in *. f_equal.
    apply filter_all_true. intros r Hr. apply negb_true_iff, Z.eqb_neq.
    intros Heq. apply Hnot, in_map_iff. by exists r.
  - unfold cancel. cbn. f_equal.
    apply filter_all_true. intros r Hr. by apply List.filter_In in Hr as [_ ?].
  - intros now limit. apply List.Forall_forall. intros r Hr.
    apply get_due_reminders_In in Hr as [Hr _]. apply cancel_In in Hr. tauto.
  - intros task_id when.
    pose proof (schedule_cases session task_id when) as Hcases. cbv zeta in Hcases.
    pose proof (schedule_spec session task_id when) as Hspec.
    destruct (schedule session task_id when) as [s1 r1]. cbn [fst snd] in *.
    destruct Hspec as (_ & Hin1 & Htask & Hwhen).
    split.
    + intros Hbelow Hfresh.
      destruct Hcases as [[? _] | (_ & Hr & Hrows & Hnext & _)]; [done |].
      split; [| done]. unfold cancel. cbn [reminders]. rewrite Hrows, List.filter_app.
      rewrite filter_all_true.
      * cbn. rewrite Z.eqb_refl. cbn. apply app_nil_r.
      * intros r Hr'. apply negb_true_iff, Z.eqb_neq.
        apply (proj1 (List.Forall_forall _ _) Hbelow) in Hr'. rewrite Hr. cbn. lia.
    + intros Hids Hs. destruct Hcases as [[_ ->] | [? _]]; [| done].
      split.
      * unfold cancel. cbn [reminders].
        apply (filter_length_lt _ _ r1 Hin1). by rewrite Z.eqb_refl.
      * intros (r & Hr & Ht & Hw). apply cancel_In in Hr as [Hr Hne].
        apply Hne. f_equal.
        apply (NoDup_map_In_inj slot (reminders session)); try done.
        unfold slot. congruence.
Qed.

Lemma mark_sent_rows session rid :
  reminders (mark_sent session rid)
  = List.map (fun r => if (Reminder.id r =? rid)%Z then Reminder.set_sent r else r)
             (reminders session).
Proof.
  unfold mark_sent.
  destruct (List.find _ (reminders session)) eqn:Ef; [done |].
  symmetry. apply map_all_same. intros r Hr.
  by rewrite (List.find_none _ _ Ef r Hr).
Qed.

Lemma mark_sent_In session rid r :
  In r (reminders (mark_sent session rid))
  <-> exists row, In row (reminders session)
                  /\ r = (if (Reminder.id row =? rid)%Z then Reminder.set_sent row else row).
Proof.
  rewrite mark_sent_rows, in_map_iff. split; intros (row & ? & ?); exists row; done.
Qed.

(** X16.  [ReminderService.mark_sent] sets the flag of the reminder of the
    given id and changes nothing else: ids, tasks and instants of the
    rows, their order, users and tasks stay.  An id that is not stored
    leaves the session as it is, and marking twice is marking once.
    Afterwards no fetch returns a reminder of that id, whereas every other
    reminder that was due is still fetched when the limit allows. *)
Theorem mark_sent_spec session rid :
  let session' := mark_sent session rid in
  Forall2 (fun row row' =>
             Reminder.id row' = Reminder.id row /\ slot row' = slot row
             /\ Reminder.sent row'
                = (Reminder.sent row || (Reminder.id row =? rid)%Z))
          (reminders session) (reminders session')
  /\ users session' = users session /\ tasks session' = tasks session
  /\ next_reminder_id session' = next_reminder_id session
  /\ (~ In rid (List.map Reminder.id (reminders session)) -> session' = session)
  /\ mark_sent session' rid = session'
  /\ (forall now limit,
        Forall (fun r => Reminder.id r <> rid /\ In r (reminders session) /\ still_due now r)
               (get_due_reminders session' now limit))
  /\ (forall now r,
        In r (reminders session) -> Reminder.id r <> rid -> still_due now r ->
        In r (get_due_reminders session' now (List.length (reminders session)))).
Proof.
  cbv zeta.
  assert (Hsame : users (mark_sent session rid) = users session
                  /\ tasks (mark_sent session rid) = tasks session
                  /\ next_reminder_id (mark_sent session rid) = next_reminder_id session).
  { unfold mark_sent. by destruct (List.find _ (reminders session)). }
  destruct Hsame as (Hu & Ht & Hn).
  split; [| split; [done | split; [done | split; [done | split; [| split; [| split]]]]]].
  - rewrite mark_sent_rows. apply Forall2_map_diag. intros row _.
    destruct (Reminder.id row =? rid)%Z; cbn.
    + by rewrite orb_true_r.
    + by rewrite orb_false_r.
  - intros Hnot. unfold mark_sent.
    destruct (List.find _ (reminders session)) as [r |] eqn:Ef; [| done].
    exfalso. apply List.find_some in Ef as [Hin Hid]. apply Z.eqb_eq in Hid.
    apply Hnot, in_map_iff. by exists r.
  - assert (Hrows : reminders (mark_sent (mark_sent session rid) rid)
                    = reminders (mark_sent session rid)).
    { rewrite (mark_sent_rows (mark_sent session rid)), mark_sent_rows, List.map_map.
      apply List.map_ext. intros r.
      destruct (Reminder.id r =? rid)%Z eqn:Hid; cbn; by rewrite Hid. }
    unfold mark_sent at 1.
    destruct (List.find _ (reminders (mark_sent session rid))); [| done].
    rewrite <- (mark_sent_rows (mark_sent session rid)), Hrows.
    by destruct (mark_sent session rid).
  - intros now limit. apply List.Forall_forall. intros r Hr.
    apply get_due_reminders_In in Hr as [Hr [Hunsent Hle]].
    apply mark_sent_In in Hr as (row & Hrow & ->).
    destruct (Z.eqb_spec (Reminder.id row) rid) as [Heq | Hne]; [done |].
    done.
  - intros now r Hin Hne Hdue.
    assert (Hlen : List.length (reminders session)
                   = List.length (reminders (mark_sent session rid)))
      by (by rewrite mark_sent_rows, length_map).
    rewrite Hlen. apply get_due_reminders_all; [| done].
    apply mark_sent_In. exists r. split; [done |].
    by rewrite (proj2 (Z.eqb_neq _ _) Hne).
Qed.

End CancelAndMark.

(** ** Tasks created from a chat message *)

Lemma substring_length_le (n : nat) (s : string) :
  (String.length (String.substring 0 n s) <= n)%nat.
Proof.
  revert s. induction n as [| n IH]; intros [| c s]; simpl; try lia.
  specialize (IH s). lia.
Qed.

Lemma dict_get_stored (items : list (string * json)) (key : string) (d1 d2 v : json) :
  dict_get items key d1 = v -> v <> d1 -> dict_get items key d2 = v.
Proof.
  induction items as [| [k x] items IH]; simpl; [congruence |].
  destruct (String.eqb k key); [done | apply IH].
Qed.

Lemma dict_get_absent (items : list (string * json)) (key : string) (d1 d2 : json) :
  (forall v, ~ In (key, v) items) -> dict_get items key d1 = d1.
Proof.
  induction items as [| [k x] items IH]; simpl; [done |].
  intros Hnot. destruct (String.eqb_spec k key) as [-> | Hne].
  - exfalso. apply (Hnot x). by left.
  - apply IH. intros v Hv. apply (Hnot v). by right.
Qed.

Section ChatTasks.
Context `{Env}.

Lemma build_tasks_spec user now_utc next_id task_payloads :
  let title_of payload := str_or (tp_title payload) (str_or (tp_name payload) EmptyString) in
  let created := build_tasks user now_utc next_id task_payloads in
  Forall2 (fun payload task =>
             Task.title task = truncate255 (title_of payload)
             /\ (String.length (Task.title task) <= 255)%nat
             /\ Task.due_at task = tp_due_at payload
             /\ Task.priority task = tp_priority payload
             /\ Task.user_id task = Some (User.id user)
             /\ Task.organization_id task = None /\ Task.project_id task = None
             /\ _is_completed task = false)
          (List.filter (fun payload => negb (String.eqb (title_of payload) EmptyString))
                       task_payloads)
          created
  /\ (forall (i : nat) task, created !! i = Some task ->
                             Task.id task = (next_id + Z.of_nat i)%Z).
Proof.
  cbv zeta. revert next_id.
  induction task_payloads as [| payload rest IH]; intros next_id; cbn [build_tasks List.filter].
  - split; [constructor | done].
  - destruct (String.eqb _ EmptyString); cbn [negb]; [apply IH |].
    destruct (IH (next_id + 1)%Z) as [Hall Hids]. split.
    + constructor; [| done]. cbn.
      split; [done |]. split; [apply substring_length_le |]. done.
    + intros [| i] task; cbn; intros Hi.
      * injection Hi as <-. cbn. lia.
      * rewrite (Hids i task Hi). lia.
Qed.

Lemma build_reminders_spec now_utc reminder_offset next_id created :
  let inserted := build_reminders now_utc reminder_offset next_id created in
  Forall2 (fun task r =>
             Reminder.task_id r = Task.id task
             /\ Reminder.remind_at r = chat_remind_at now_utc reminder_offset (Task.due_at task)
             /\ Reminder.sent r = false)
          created inserted
  /\ (forall (i : nat) r, inserted !! i = Some r ->
                          Reminder.id r = (next_id + Z.of_nat i)%Z).
Proof.
  cbv zeta. revert next_id.
  induction created as [| task created IH]; intros next_id; cbn [build_reminders].
  - split; [constructor | done].
  - destruct (IH (next_id + 1)%Z) as [Hall Hids]. split.
    + by constructor.
    + intros [| i] r; cbn; intros Hi.
      * injection Hi as <-. cbn. lia.
      * rewrite (Hids i r Hi). lia.
Qed.


Lemma Forall2_In_l {A B} (R : A -> B -> Prop) (l : list A) (k : list B) (x : A) :
  Forall2 R l k -> In x l -> exists y, In y k /\ R x y.
Proof.
  induction 1 as [| x' y l k Hxy Hall IH]; simpl; [done |].
  intros [<- | Hin].
  - exists y. split; [by left | done].
  - destruct (IH Hin) as (y' & Hy' & HR). exists y'. split; [by right | done].
Qed.

Lemma create_tasks_reminders session now_utc user task_payloads reminder_offset :
  py_int (dict_get (User.preferences user) "default_reminder_minutes"
                   DEFAULT_REMINDER_MINUTES) = Ok reminder_offset ->
  exists out,
    create_tasks session now_utc user task_payloads = Ok out
    /\ forall task,
         In task out.2 ->
         exists r, In r (reminders out.1)
                   /\ Reminder.task_id r = Task.id task
                   /\ Reminder.remind_at r
                      = chat_remind_at now_utc reminder_offset (Task.due_at task).
Proof.
  intros Hoffset. unfold create_tasks. rewrite Hoffset. cbn [bind].
  destruct (build_tasks user now_utc (next_task_id session) task_payloads)
    as [| task created] eqn:Ecreated.
  - eexists. split; [done |]. by intros task [].
  - eexists. split; [done |]. cbn [fst snd reminders]. intros t Ht.
    destruct (build_reminders_spec now_utc reminder_offset (next_reminder_id session)
                (task :: created)) as [Hrem _].
    cbv zeta in Hrem.
    destruct (Forall2_In_l _ _ _ t Hrem Ht) as (r & Hr & Htask & Hat & _).
    exists r. split; [apply in_app_iff; by right | done].
Qed.

Lemma dict_get_set_same items key value default :
  dict_get (dict_set items key value) key default = value.
Proof.
  induction items as [| [k v] items IH]; simpl.
  - by rewrite String.eqb_refl.
  - destruct (String.eqb k key) eqn:Hk; simpl; by rewrite Hk.
Qed.

Lemma dict_get_set_other items key key' value default :
  key' <> key ->
  dict_get (dict_set items key' value) key default = dict_get items key default.
Proof.
  intros Hne. induction items as [| [k v] items IH]; simpl.
  - by rewrite (proj2 (String.eqb_neq _ _) Hne).
  - destruct (String.eqb_spec k key') as [-> | Hk]; simpl.
    + by rewrite (proj2 (String.eqb_neq _ _) Hne).
    + by rewrite IH.
Qed.

Lemma set_default_preferences_stored user minutes work_hours default :
  dict_get (User.preferences (set_default_preferences user (Some minutes) work_hours))
           "default_reminder_minutes" default
  = JList (List.map JInt minutes).
Proof.
  unfold set_default_preferences, update_preferences, dict_update.
  destruct work_hours as [hours |]; cbn.
  - by rewrite dict_get_set_other, dict_get_set_same.
  - apply dict_get_set_same.
Qed.


End ChatTasks.

(** ** The role check of the routes *)

Lemma role_eqb_eq (a b : Role) : role_eqb a b = true <-> a = b.
Proof. destruct a, b; cbn; split; congruence. Qed.

Lemma has_any_role_one (p : Principal) (required : Role) (rest : list Role) :
  has_any_role p (required :: rest) = true
  <-> exists role,
        In role (required :: rest)
        /\ (In role (_global_roles p)
            \/ (exists kv, In kv (_org_roles p) /\ (_rank role <= _rank kv.2)%Z)
            \/ (exists kv, In kv (_team_roles p) /\ (_rank role <= _rank kv.2)%Z)).
Proof.
  unfold has_any_role. rewrite existsb_exists. split.
  - intros (role & Hin & Hrole). exists role. split; [done |].
    rewrite !orb_true_iff, andb_true_iff in Hrole.
    destruct Hrole as [[[[Hsys Hadmin] | Hglobal] | Horg] | Hteam].
    + left. apply role_eqb_eq in Hsys. subst role.
      apply existsb_exists in Hadmin as (r & Hr & Heq).
      apply role_eqb_eq in Heq. by subst r.
    + left. apply existsb_exists in Hglobal as (r & Hr & Heq).
      apply role_eqb_eq in Heq. by subst r.
    + right; left. apply existsb_exists in Horg as (kv & Hkv & Hle).
      exists kv. split; [done |]. by apply Z.leb_le.
    + right; right. apply existsb_exists in Hteam as (kv & Hkv & Hle).
      exists kv. split; [done |]. by apply Z.leb_le.
  - intros (role & Hin & Hrole). exists role. split; [done |].
    rewrite !orb_true_iff.
    destruct Hrole as [Hglobal | [(kv & Hkv & Hle) | (kv & Hkv & Hle)]].
    + left; left; right. apply existsb_exists. exists role. split; [done |].
      by apply role_eqb_eq.
    + left; right. apply existsb_exists. exists kv. split; [done |]. by apply Z.leb_le.
    + right. apply existsb_exists. exists kv. split; [done |]. by apply Z.leb_le.
Qed.

(** X19.  Whom [Principal.has_any_role] lets through.  A requirement is
    met by holding one of the required roles globally, or a role of at
    least its rank in any organization or team; no requirement at all is
    met by everyone.  Hence the dependency of the report routes, which
    lists all four roles, passes exactly the principals that hold some
    role anywhere, and a privilege in an organization passes the
    requirement of that role.  Global roles are not ranked: a principal
    whose only role is a global system administrator meets a requirement
    only if it lists [SYSTEM_ADMIN], although [has_org_privilege] grants
    that principal everything. *)
Theorem has_any_role_spec (p : Principal) :
  has_any_role p [] = true
  /\ (forall required rest,
        has_any_role p (required :: rest) = true
        <-> exists role,
              In role (required :: rest)
              /\ (In role (_global_roles p)
                  \/ (exists kv, In kv (_org_roles p) /\ (_rank role <= _rank kv.2)%Z)
                  \/ (exists kv, In kv (_team_roles p) /\ (_rank role <= _rank kv.2)%Z)))
  /\ (has_any_role p [SYSTEM_ADMIN; ORG_ADMIN; TEAM_MANAGER; MEMBER] = true
      <-> _global_roles p <> [] \/ _org_roles p <> [] \/ _team_roles p <> [])
  /\ (forall organization_id required,
        is_system_admin p = false ->
        has_org_privilege p organization_id required = true ->
        has_any_role p [required] = true)
  /\ (Forall (eq SYSTEM_ADMIN) (_global_roles p) -> _org_roles p = [] -> _team_roles p = [] ->
      forall required,
        has_any_role p required = true -> required = [] \/ In SYSTEM_ADMIN required).
Proof.
  split; [done |]. split; [apply has_any_role_one |]. split; [| split].
  - rewrite has_any_role_one. split.
    + intros (role & _ & [Hglobal | [(kv & Hkv & _) | (kv & Hkv & _)]]).
      * left. by destruct (_global_roles p).
      * right; left. by destruct (_org_roles p).
      * right; right. by destruct (_team_roles p).
    + intros [Hglobal | [Horg | Hteam]].
      * destruct (_global_roles p) as [| role roles] eqn:Eg; [done |].
        exists role. split; [destruct role; cbn; tauto |]. left. by left.
      * destruct (_org_roles p) as [| kv kvs] eqn:Eo; [done |].
        exists MEMBER. split; [cbn; tauto |]. right; left. exists kv.
        split; [by left | by destruct kv.2].
      * destruct (_team_roles p) as [| kv kvs] eqn:Et; [done |].
        exists MEMBER. split; [cbn; tauto |]. right; right. exists kv.
        split; [by left | by destruct kv.2].
  - intros organization_id required Hadmin Hpriv.
    unfold has_org_privilege in Hpriv. rewrite Hadmin in Hpriv.
    destruct (List.find _ (_org_roles p)) as [[k held] |] eqn:Hfind; [| done].
    apply List.find_some in Hfind as [Hin _].
    apply has_any_role_one. exists required. split; [by left |].
    right; left. exists (k, held). split; [done |]. by apply Z.leb_le.
  - intros Hglobal Horg Hteam [| required rest] Hany; [by left |]. right.
    apply has_any_role_one in Hany as (role & Hin & Hrole).
    rewrite Horg, Hteam in Hrole.
    destruct Hrole as [Hrole | [(kv & [] & _) | (kv & [] & _)]].
    apply (proj1 (List.Forall_forall _ _) Hglobal) in Hrole. by subst role.
Qed.

(** ** Locale normalisation *)

Section Locales.
Context `{Env}.

Lemma ensure_locale_supported code :
  In code SUPPORTED_LOCALES -> _ensure_locale (Some code) = code /\ lower code = code.
Proof.
  intros Hin. cbn in Hin. destruct Hin as [<- | [<- | [<- | []]]]; done.
Qed.

Lemma before_dash_append (l region : string) :
  before_dash l = l ->
  before_dash (l ++ String "-" region)%string = l.
Proof.
  induction l as [| c l IH]; simpl; [done |].
  destruct (Ascii.eqb c "-"); [done |].
  intros [= Hl]. by rewrite (IH Hl).
Qed.

(** X20.  [_ensure_locale] (also exported as [normalize_locale]) answers
    with a supported code or with the configured default.  It looks only
    at the part before the first dash and ignores case, so a supported
    code with any region and in any case gives that code, and appending a
    region never changes the answer.  When the default is itself
    supported, normalising twice is normalising once, so [translate],
    which normalises again, uses the catalog of the normalised locale. *)
Theorem ensure_locale_spec :
  (forall locale,
      In (_ensure_locale locale) SUPPORTED_LOCALES \/ _ensure_locale locale = default_locale)
  /\ (forall locale code,
        In code SUPPORTED_LOCALES ->
        eq_ignoring_case (before_dash locale) code ->
        normalize_locale (Some locale) = code)
  /\ (forall locale,
        In (lower (before_dash locale)) SUPPORTED_LOCALES \/ locale = EmptyString
        \/ _ensure_locale (Some locale) = default_locale)
  /\ (forall locale region : string,
        before_dash locale = locale ->
        _ensure_locale (Some (locale ++ String "-" region)%string)
        = _ensure_locale (Some locale))
  /\ (In default_locale SUPPORTED_LOCALES ->
      forall locale key kwargs,
        _ensure_locale (Some (_ensure_locale locale)) = _ensure_locale locale
        /\ translate (normalize_locale locale) key kwargs
           = catalog_format (normalize_locale locale) key kwargs).
Proof.
  assert (Hrange : forall locale,
             In (_ensure_locale locale) SUPPORTED_LOCALES
             \/ _ensure_locale locale = default_locale).
  { intros [l |]; [| by right]. unfold _ensure_locale.
    destruct (String.eqb l EmptyString); [by right |].
    destruct (str_in _ SUPPORTED_LOCALES) eqn:Hin; [| by right].
    left. by apply str_in_spec. }
  split; [exact Hrange |]. split; [| split; [| split]].
  - intros locale code Hcode Heq. unfold normalize_locale, _ensure_locale.
    destruct (ensure_locale_supported code Hcode) as [_ Hlower].
    apply lower_eq_ignoring_case in Heq. rewrite Hlower in Heq.
    destruct (String.eqb_spec locale EmptyString) as [-> | _].
    + cbn in Heq. subst code. cbn in Hcode. by destruct Hcode as [? | [? | [? | []]]].
    + rewrite Heq. by rewrite (proj2 (str_in_spec code SUPPORTED_LOCALES) Hcode).
  - intros locale. unfold _ensure_locale.
    destruct (String.eqb_spec locale EmptyString) as [-> | _]; [right; by left |].
    destruct (str_in _ SUPPORTED_LOCALES) eqn:Hin.
    + left. by apply str_in_spec.
    + right; by right.
  - intros locale region Hplain. unfold _ensure_locale.
    rewrite (before_dash_append locale region Hplain).
    destruct locale as [| c locale]; [reflexivity |].
    rewrite Hplain. reflexivity.
  - intros Hdefault locale key kwargs.
    assert (Hidem : _ensure_locale (Some (_ensure_locale locale)) = _ensure_locale locale).
    { destruct (Hrange locale) as [Hin | Heq].
      - by apply ensure_locale_supported.
      - rewrite Heq. by apply ensure_locale_supported. }
    split; [exact Hidem |]. unfold translate, normalize_locale. by rewrite Hidem.
Qed.

End Locales.

(** ** The chat report and the report service *)

Lemma filter_length_implies {A} (p q : A -> bool) (l : list A) :
  (forall x, In x l -> p x = true -> q x = true) ->
  (List.length (List.filter p l) <= List.length (List.filter q l))%nat.
Proof.
  induction l as [| a l IH]; intros Himp; simpl; [done |].
  assert (IH' := IH (fun x Hx => Himp x (or_intror Hx))).
  pose proof (Himp a (or_introl eq_refl)) as Ha.
  destruct (p a); [rewrite Ha by done |]; simpl; [lia |].
  destruct (q a); simpl; lia.
Qed.

Lemma filter_length_split {A} (p : A -> bool) (l : list A) :
  (List.length (List.filter p l) + List.length (List.filter (fun x => negb (p x)) l)
   = List.length l)%nat.
Proof.
  induction l as [| a l IH]; simpl; [done |]. destruct (p a); simpl; lia.
Qed.

Section ChatReport.
Context `{Env}.

Lemma chat_done_is_completed task :
  chat_is_pending task = false -> _is_completed task = true.
Proof.
  unfold chat_is_pending, _is_completed.
  destruct (Task.status task) as [status |]; [| done].
  intros Hs. apply negb_false_iff, String.eqb_eq in Hs. subst status. done.
Qed.

Lemma chat_window_daily tz now period :
  String.eqb period "week" = false ->
  chat_window tz now period
  = (astimezone_utc tz (replace_midnight (fromutc tz now)),
     astimezone_utc tz (add_days (replace_midnight (fromutc tz now)) 1)).
Proof. intros Hp. unfold chat_window. by rewrite Hp. Qed.

Lemma chat_window_weekly tz now :
  chat_window tz now "week"
  = (astimezone_utc tz (replace_midnight (fromutc tz now)),
     astimezone_utc tz (add_days (replace_midnight (fromutc tz now)) 7)).
Proof. reflexivity. Qed.

Lemma calculate_window_today now tz :
  _calculate_window now "daily" None tz
  = (astimezone_utc tz (replace_midnight (fromutc tz now)),
     astimezone_utc tz (add_days (replace_midnight (fromutc tz now)) 1),
     replace_midnight (fromutc tz now)).
Proof. reflexivity. Qed.

Lemma calculate_window_this_week now tz :
  _calculate_window now "weekly" None tz
  = (astimezone_utc tz (replace_midnight (fromutc tz now)),
     astimezone_utc tz (add_days (replace_midnight (fromutc tz now)) 7),
     replace_midnight (fromutc tz now)).
Proof. reflexivity. Qed.

(** X21.  The chat report ([build_report]) beside the report service,
    for a user whose zone (the stored one, or the default when none is
    stored) loads.  The report is produced; it uses the zone
    [_resolve_timezone] gives the service, and its window is the service's
    daily window, or the weekly one for the period [week], of the current
    day.  It lists the user's tasks that have no due time or are due
    inside the window, both ends included.  Its completed count takes only
    the status [completed] literally, so it never exceeds the service's
    count for the same tasks, and a task that is done, resolved, completed
    in another case, or ended under another status is pending in the chat
    report and completed in the service's. *)
Theorem chat_report_and_service session now user locale period :
  let tz := str_or (User.timezone user) default_timezone in
  let report_type := if String.eqb period "week" then "weekly" else "daily" in
  (forall zone,
      zone_lookup tz = Some zone ->
      build_report session now user locale period <> None
      /\ to_user_timezone tz = Some zone
      /\ zone = _resolve_timezone (User.timezone user)
      /\ chat_window zone now period = (_calculate_window now report_type None zone).1
      /\ forall task,
           In task (chat_tasks session user (chat_window zone now period).1
                               (chat_window zone now period).2)
           <-> In task (tasks session)
               /\ Task.user_id task = Some (User.id user)
               /\ (Task.due_at task = None
                   \/ exists due, Task.due_at task = Some due
                                  /\ ((chat_window zone now period).1 <= due
                                      <= (chat_window zone now period).2)%Z))
  /\ (forall tasks now',
        let pending := List.length (List.filter chat_is_pending tasks) in
        let finished := (List.length tasks - pending)%nat in
        (finished <= completed (_compute_counts now' tasks))%nat
        /\ (pending + finished = total (_compute_counts now' tasks))%nat)
  /\ (forall task,
        (chat_is_pending task = false -> _is_completed task = true)
        /\ (forall status,
              Task.status task = Some status ->
              In status ["done"; "resolved"; "Completed"; "DONE"] ->
              chat_is_pending task = true /\ _is_completed task = true)
        /\ (Task.end_at task <> None -> Task.status task <> Some "completed" ->
            chat_is_pending task = true /\ _is_completed task = true)).
Proof.
  cbv zeta. split; [| split].
  - intros zone Hzone. split; [| split; [| split; [| split]]].
    + unfold build_report, to_user_timezone. rewrite Hzone.
      destruct (chat_window zone now period) as [start_utc end_utc].
      by destruct (chat_tasks _ _ _ _).
    + unfold to_user_timezone. by rewrite Hzone.
    + unfold _resolve_timezone. by rewrite Hzone.
    + destruct (String.eqb period "week") eqn:Hp.
      * apply String.eqb_eq in Hp. subst period.
        by rewrite chat_window_weekly, calculate_window_this_week.
      * by rewrite (chat_window_daily _ _ _ Hp), calculate_window_today.
    + intros task. unfold chat_tasks. rewrite List.filter_In, andb_true_iff.
      unfold opt_eqb.
      destruct (Task.user_id task) as [uid |], (Task.due_at task) as [due |];
        rewrite ?andb_true_iff, ?Z.eqb_eq, ?Z.leb_le; split.
      * intros (Hin & -> & Hlo & Hhi). split; [done |]. split; [done |].
        right. by exists due.
      * intros (Hin & [= ->] & [? | (d & [= <-] & Hlo & Hhi)]); done.
      * intros (Hin & -> & _). split; [done |]. split; [done | by left].
      * intros (Hin & [= ->] & _). done.
      * intros (_ & ? & _). done.
      * intros (_ & ? & _). done.
      * intros (_ & ? & _). done.
      * intros (_ & ? & _). done.
  - intros tasks now'.
    destruct (compute_counts_filter now' tasks) as (-> & -> & _).
    pose proof (filter_length_split chat_is_pending tasks) as Hsplit.
    pose proof (filter_length_implies (fun t => negb (chat_is_pending t)) _is_completed tasks)
      as Hle.
    split; [| lia].
    assert (Hdone : (List.length (List.filter (fun t => negb (chat_is_pending t)) tasks)
                     <= List.length (List.filter _is_completed tasks))%nat).
    { apply Hle. intros t _ Ht. apply chat_done_is_completed. by apply negb_true_iff. }
    lia.
  - intros task. split; [apply chat_done_is_completed |]. split.
    + intros status Hs Hin. unfold chat_is_pending, _is_completed. rewrite Hs.
      cbn in Hin. destruct Hin as [<- | [<- | [<- | [<- | []]]]]; done.
    + intros Hend Hs. unfold chat_is_pending, _is_completed. split.
      * destruct (Task.status task) as [status |]; [| done].
        apply negb_true_iff, String.eqb_neq. congruence.
      * destruct (Task.end_at task); [| done]. apply orb_true_r.
Qed.

End ChatReport.

(** ** Marking the latest tasks done *)

Lemma find_map_same_key {A} (key : A -> Z) (g : A -> A) (k : Z) (l : list A) :
  (forall x, key (g x) = key x) ->
  List.find (fun x => (key x =? k)%Z) (List.map g l)
  = option_map g (List.find (fun x => (key x =? k)%Z) l).
Proof.
  intros Hkey. induction l as [| a l IH]; simpl; [done |].
  rewrite Hkey. by destruct (key a =? k)%Z.
Qed.

Section LatestTasks.
Context `{Env}.

Lemma int_items_ints ids : int_items (List.map JInt ids) = Some ids.
Proof.
  unfold int_items. induction ids as [| n ids IH]; [done |].
  cbn. cbn in IH. by rewrite IH.
Qed.

Lemma complete_is_completed task :
  _is_completed (complete task) = true /\ chat_is_pending (complete task) = false.
Proof. done. Qed.

Lemma mark_latest_rows session user ids :
  dict_get (User.preferences user) "last_task_ids" (JList []) = JList (List.map JInt ids) ->
  exists session',
    mark_latest_tasks_done session user
    = Some (session', List.length (List.filter (is_latest ids) (tasks session)))
    /\ tasks session'
       = List.map (fun task => if is_latest ids task then complete task else task)
                  (tasks session)
    /\ users session' = users session
    /\ reminders session' = reminders session.
Proof.
  intros Hstored. unfold mark_latest_tasks_done. rewrite Hstored.
  assert (Hnone : List.filter (is_latest ids) (tasks session) = [] ->
                  tasks session
                  = List.map (fun task => if is_latest ids task then complete task else task)
                             (tasks session)).
  { intros Hempty. symmetry. apply map_all_same. intros task Hin.
    destruct (is_latest ids task) eqn:Hl; [| done].
    assert (Hf : In task (List.filter (is_latest ids) (tasks session)))
      by (by apply List.filter_In).
    rewrite Hempty in Hf. done. }
  destruct ids as [| n ids].
  - exists session. cbn [List.map].
    assert (Hempty : List.filter (is_latest []) (tasks session) = []).
    { clear. induction (tasks session) as [| t l IH]; [done |]. by cbn. }
    rewrite Hempty. split; [done |]. split; [by apply Hnone | done].
  - cbn [List.map]. rewrite <- (List.map_cons JInt n ids), int_items_ints.
    destruct (List.filter (is_latest (n :: ids)) (tasks session)) as [| t found] eqn:Ef.
    + exists session. split; [done |]. split; [by apply Hnone | done].
    + eexists. split; [reflexivity |]. done.
Qed.

Lemma is_latest_In ids task : is_latest ids task = true <-> In (Task.id task) ids.
Proof.
  unfold is_latest. rewrite existsb_exists. split.
  - intros (n & Hn & Heq). apply Z.eqb_eq in Heq. by subst n.
  - intros Hin. exists (Task.id task). split; [done | apply Z.eqb_refl].
Qed.

(** X22.  [mark_latest_tasks_done], for a user whose [last_task_ids] is a
    list of task ids.  It returns the number of stored tasks with one of
    these ids and gives each of them the status [completed], changing no
    other field and no other task, so both reports count them as completed
    afterwards.  Users and reminders are untouched: the reminders of the
    completed tasks stay due and stay deliverable, and a later dispatch
    run fetches the very same batch. *)
Theorem mark_latest_tasks_done_spec session user ids :
  dict_get (User.preferences user) "last_task_ids" (JList []) = JList (List.map JInt ids) ->
  match mark_latest_tasks_done session user with
  | Some (session', count) =>
      count = List.length (List.filter (fun task => existsb (Z.eqb (Task.id task)) ids)
                                       (tasks session))
      /\ Forall2 (fun row row' =>
                    (In (Task.id row) ids -> row' = complete row)
                    /\ (~ In (Task.id row) ids -> row' = row))
                 (tasks session) (tasks session')
      /\ (forall task',
            In task' (tasks session') -> In (Task.id task') ids ->
            Task.status task' = Some "completed"
            /\ _is_completed task' = true /\ chat_is_pending task' = false)
      /\ (forall now, (count <= completed (_compute_counts now (tasks session')))%nat)
      /\ users session' = users session
      /\ reminders session' = reminders session
      /\ (forall now limit,
            get_due_reminders session' now limit = get_due_reminders session now limit)
      /\ (forall r, deliverable session' r = None <-> deliverable session r = None)
  | None => False
  end.
Proof.
  intros Hstored.
  destruct (mark_latest_rows session user ids Hstored) as (session' & -> & Hrows & Hu & Hr).
  set (g := fun task => if is_latest ids task then complete task else task) in Hrows.
  assert (Hid : forall task, Task.id (g task) = Task.id task)
    by (intros task; unfold g; by destruct (is_latest ids task)).
  assert (Huser : forall task, Task.user_id (g task) = Task.user_id task)
    by (intros task; unfold g; by destruct (is_latest ids task)).
  split; [done |]. split; [| split; [| split; [| split; [done | split; [done | split]]]]].
  - rewrite Hrows. apply Forall2_map_diag. intros row _. unfold g.
    destruct (is_latest ids row) eqn:Hl.
    + split; [done |]. intros Hnot. exfalso. by apply Hnot, is_latest_In.
    + split; [| done]. intros Hin. apply is_latest_In in Hin. congruence.
  - intros task' Hin Hids. rewrite Hrows in Hin.
    apply in_map_iff in Hin as (row & <- & _).
    rewrite Hid in Hids. apply is_latest_In in Hids. unfold g. rewrite Hids. done.
  - intros now. destruct (compute_counts_filter now (tasks session')) as (_ & -> & _).
    rewrite Hrows. clear. induction (tasks session) as [| t l IH]; [done |].
    cbn. destruct (is_latest ids t) eqn:Hl.
    + assert (Hg : _is_completed (g t) = true) by (unfold g; by rewrite Hl).
      rewrite Hg. cbn. lia.
    + destruct (_is_completed (g t)); cbn; lia.
  - intros now limit. unfold get_due_reminders. by rewrite Hr.
  - intros r. unfold deliverable, reminder_task, task_user.
    rewrite Hrows, Hu, (find_map_same_key Task.id g _ _ Hid).
    destruct (List.find _ (tasks session)) as [task |]; [| done]. cbn.
    rewrite Huser. destruct (Task.user_id task) as [uid |]; [| done].
    destruct (List.find _ (users session)) as [u |]; [| done].
    destruct (User.telegram_id u) as [chat |]; [| done].
    by destruct (chat =? 0)%Z.
Qed.

End LatestTasks.

Lemma mark_latest_tasks_done_spec_witness :
  let user := User.mk 1 (Some 11%Z) (Some "en") None
                      [("last_task_ids", JList [JInt 1; JInt 2; JInt 9])] in
  dict_get (User.preferences user) "last_task_ids" (JList [])
  = JList (List.map JInt [1; 2; 9]%Z)
  /\ match mark_latest_tasks_done Examples.five_store user with
     | Some (session', count) =>
         count = 2%nat /\ reminders session' = reminders Examples.five_store
     | None => False
     end.
Proof.
  cbv zeta. split; [reflexivity |].
  pose proof (mark_latest_tasks_done_spec Examples.five_store
                (User.mk 1 (Some 11%Z) (Some "en") None
                         [("last_task_ids", JList [JInt 1; JInt 2; JInt 9])])
                [1; 2; 9]%Z eq_refl) as Hrun.
  destruct (mark_latest_tasks_done _ _) as [[session' count] |]; [| done].
  destruct Hrun as (-> & _ & _ & _ & _ & Hr & _). split; [reflexivity | exact Hr].
Defined.

(** ** The slug of an export file name *)

Section SlugFacts.
Variable char : Type.
Variable isalnum : char -> bool.
Variable str_lower : list char -> list char.
Variable is_dash : char -> bool.
Variable dash : char.
Variable subject_word : list char.

Hypothesis is_dash_spec : forall c, is_dash c = true <-> c = dash.
Hypothesis dash_not_alnum : isalnum dash = false.
Hypothesis subject_word_alnum : Forall (fun c => isalnum c = true) subject_word.
Hypothesis subject_word_not_empty : subject_word <> [].

Lemma lstrip_suffix (s : list char) :
  exists dropped, s = dropped ++ lstrip char is_dash s /\ Forall (fun c => c = dash) dropped.
Proof using is_dash_spec.
  induction s as [| c s IH]; [by exists [] |]. cbn.
  destruct (is_dash c) eqn:Hc.
  - destruct IH as (dropped & Hs & Hall). exists (c :: dropped).
    split; [cbn; by rewrite <- Hs |]. constructor; [by apply is_dash_spec | done].
  - by exists [].
Qed.

Lemma lstrip_head (s : list char) :
  match lstrip char is_dash s with
  | [] => True
  | c :: _ => c <> dash
  end.
Proof using is_dash_spec.
  induction s as [| c s IH]; [done |]. cbn.
  destruct (is_dash c) eqn:Hc; [done |].
  intros ->. rewrite (proj2 (is_dash_spec dash) eq_refl) in Hc. done.
Qed.

Lemma lstrip_fixed (s : list char) :
  match s with
  | [] => True
  | c :: _ => c <> dash
  end ->
  lstrip char is_dash s = s.
Proof using is_dash_spec.
  destruct s as [| c s]; [done |]. cbn. intros Hc.
  destruct (is_dash c) eqn:Hd; [| done]. by apply is_dash_spec in Hd.
Qed.

Lemma strip_spec (s : list char) :
  let stripped := strip char is_dash s in
  (exists before after,
      s = before ++ stripped ++ after
      /\ Forall (fun c => c = dash) before /\ Forall (fun c => c = dash) after)
  /\ match stripped with
     | [] => True
     | c :: _ => c <> dash
     end
  /\ match rev stripped with
     | [] => True
     | c :: _ => c <> dash
     end.
Proof using is_dash_spec.
  cbv zeta. unfold strip.
  destruct (lstrip_suffix s) as (before & Hs & Hbefore).
  destruct (lstrip_suffix (rev (lstrip char is_dash s))) as (after & Hr & Hafter).
  pose proof (lstrip_head s) as Hhead.
  pose proof (lstrip_head (rev (lstrip char is_dash s))) as Hlast.
  set (middle := lstrip char is_dash (rev (lstrip char is_dash s))) in *.
  assert (Hmid : lstrip char is_dash s = rev middle ++ rev after).
  { rewrite <- rev_app_distr, <- Hr. by rewrite rev_involutive. }
  split; [| split].
  - exists before, (rev after). split; [by rewrite <- Hmid |].
    split; [done |]. apply List.Forall_forall. intros c Hc.
    apply in_rev in Hc. by apply (proj1 (List.Forall_forall _ _) Hafter).
  - rewrite Hmid in Hhead. destruct (rev middle) as [| c m] eqn:Em; [done |]. done.
  - by rewrite rev_involutive.
Qed.


End SlugFacts.

